(** * get-a-life-alert: the router client and the alert manager

    A shallow embedding of [src/fritz-client.ts], [src/alert-manager.ts],
    [DatabaseService] and [ConfigService.validateConfig], and the properties
    of the specification checked against it.

    Conventions of the embedding.
    - A JavaScript string is a [string]: a sequence of 8-bit characters, so
      the only line terminators are line feed and carriage return.
    - A JavaScript number is a [jsnum]: an integer or [NaN].  Minute values
      of the configuration and of the alert table are integers ([Z]).
    - A thrown [Error] is its message.
    - Everything outside the program (the clock, the router behind axios,
      the Twilio gateway, the MD5 digest and the URI encoder) is a [World]
      of oracles; the program state is a [State] threaded through a small
      state-and-exception monad.  The state also keeps a trace of the
      interactions, newest first, that the program itself never reads.
    - The two tables are a store that takes every statement: [logAlert],
      [logSystem] and the dedup query do not throw.  Where the program
      itself handles a statement that fails ([testSystem]), the failure is
      a parameter of the function ([Status.logSystem_on]).
    - The device name is compiled as pattern text on the covered part of
      the syntax ([Regex.compile]).  For any other name the answer of the
      parser is [NotCovered], and what is proved of the parser says so or
      is stated for covered names. *)

From Stdlib Require Import String Ascii List ZArith Lia Bool Arith Sorted.
From Stdlib Require Import DecimalString.
Import ListNotations.

Open Scope string_scope.
Open Scope list_scope.

(** Concatenation of strings; [++] is kept for lists. *)
Infix "+++" := String.append (right associativity, at level 60).

(** ** Strings *)

Module Str.

(** The double quote, as a one-character string. *)
Definition dq : string := String "034"%char EmptyString.

Fixpoint drop (n : nat) (s : string) : string :=
  match n, s with
  | O, _ => s
  | S _, EmptyString => EmptyString
  | S n', String _ s' => drop n' s'
  end.

Fixpoint take (n : nat) (s : string) : string :=
  match n, s with
  | O, _ => EmptyString
  | S _, EmptyString => EmptyString
  | S n', String c s' => String c (take n' s')
  end.

(** [slice a b s] is [s.slice(a, b)] for [a <= b]. *)
Definition slice (a b : nat) (s : string) : string := take (b - a) (drop a s).

(** [s.startsWith(p)] *)
Fixpoint starts_with (p s : string) : bool :=
  match p, s with
  | EmptyString, _ => true
  | String _ _, EmptyString => false
  | String a p', String b s' => Ascii.eqb a b && starts_with p' s'
  end.

(** [find needle hay]: the least offset at which [needle] occurs in [hay]. *)
Fixpoint find (needle hay : string) : option nat :=
  if starts_with needle hay then Some O
  else match hay with
       | EmptyString => None
       | String _ hay' => option_map S (find needle hay')
       end.

(** [hay.indexOf(needle)], which is [-1] when there is no occurrence. *)
Definition indexOf (hay needle : string) : Z :=
  match find needle hay with
  | Some i => Z.of_nat i
  | None => (-1)%Z
  end.

(** [hay.includes(needle)]. *)
Definition includes (hay needle : string) : bool :=
  match find needle hay with
  | Some _ => true
  | None => false
  end.

(** [s.substring(i)]: a negative start counts as zero. *)
Definition substring_from (s : string) (i : Z) : string := drop (Z.to_nat i) s.

(** [s.split(c)] for a one-character separator [c]. *)
Fixpoint split (c : ascii) (s : string) : list string :=
  match s with
  | EmptyString => [EmptyString]
  | String x s' =>
      if Ascii.eqb x c then EmptyString :: split c s'
      else match split c s' with
           | [] => [String x EmptyString]
           | p :: ps => String x p :: ps
           end
  end.

(** Every character of [s] satisfies [p]. *)
Fixpoint all (p : ascii -> bool) (s : string) : bool :=
  match s with
  | EmptyString => true
  | String c s' => p c && all p s'
  end.

(** A string is truthy when it is not empty. *)
Definition truthy (s : string) : bool :=
  match s with
  | EmptyString => false
  | String _ _ => true
  end.

Definition of_nat (n : nat) : string := NilEmpty.string_of_uint (Nat.to_uint n).
Definition of_Z (z : Z) : string := NilZero.string_of_int (Z.to_int z).

End Str.

(** ** Numbers *)

Inductive jsnum : Type :=
| Int (z : Z)
| NaN.

Module Num.

Definition add (a b : jsnum) : jsnum :=
  match a, b with
  | Int x, Int y => Int (x + y)
  | _, _ => NaN
  end.

Definition sub (a b : jsnum) : jsnum :=
  match a, b with
  | Int x, Int y => Int (x - y)
  | _, _ => NaN
  end.

Definition mul (a b : jsnum) : jsnum :=
  match a, b with
  | Int x, Int y => Int (x * y)
  | _, _ => NaN
  end.

(** [Math.max(a, b)]. *)
Definition max (a b : jsnum) : jsnum :=
  match a, b with
  | Int x, Int y => Int (Z.max x y)
  | _, _ => NaN
  end.

(** [a <= b]: false as soon as one side is [NaN]. *)
Definition leb (a b : jsnum) : bool :=
  match a, b with
  | Int x, Int y => (x <=? y)%Z
  | _, _ => false
  end.

Definition to_string (a : jsnum) : string :=
  match a with
  | Int z => Str.of_Z z
  | NaN => "NaN"
  end.

Definition is_digit (c : ascii) : bool :=
  let n := nat_of_ascii c in (48 <=? n)%nat && (n <=? 57)%nat.

Fixpoint digits_value (acc : Z) (s : string) : option Z :=
  match s with
  | EmptyString => Some acc
  | String c s' =>
      if is_digit c
      then digits_value (10 * acc + (Z.of_nat (nat_of_ascii c) - 48))%Z s'
      else None
  end.

(** [Number(s)] on the texts that reach it in this program, runs of decimal
    digits (the empty text is 0).  Text that is not a run of digits is sent
    to [NaN]; that is exact for text that is no numeric literal at all. *)
Definition Number (s : string) : jsnum :=
  match digits_value 0 s with
  | Some z => Int z
  | None => NaN
  end.

End Num.

(** ** Regular expressions

    The fragment of ECMAScript regular expressions that the program uses:
    a sequence of character classes, each with a repetition range that is
    greedy or lazy, and capturing groups around runs of them.  Matching is
    the backtracking search of the language: leftmost start, and at each
    repetition the longer (greedy) or shorter (lazy) choice first. *)

Module Regex.

Definition charset := ascii -> bool.

Record atom : Type := Rep {
  cls : charset;
  lo : nat;
  hi : option nat;
  greedy : bool
}.

Inductive item : Type :=
| Plain (a : atom)
| Group (body : list atom).

Definition regex := list item.

Definition chr (c : ascii) : atom := Rep (Ascii.eqb c) 1 (Some 1) true.
Definition one (p : charset) : atom := Rep p 1 (Some 1) true.
Definition exactly (n : nat) (p : charset) : atom := Rep p n (Some n) true.
Definition star (p : charset) : atom := Rep p 0 None true.
Definition plus (p : charset) : atom := Rep p 1 None true.
Definition opt (p : charset) : atom := Rep p 0 (Some 1) true.
Definition lazy_star (p : charset) : atom := Rep p 0 None false.

(** [.] : any character but a line terminator. *)
Definition dot : charset :=
  fun c => negb (Ascii.eqb c "010"%char || Ascii.eqb c "013"%char).
(** [\d] *)
Definition digit : charset := Num.is_digit.
(** [[^>]] *)
Definition not_gt : charset := fun c => negb (Ascii.eqb c ">"%char).

Definition lit_atoms (s : string) : list atom := map chr (list_ascii_of_string s).
Definition lit (s : string) : regex := map Plain (lit_atoms s).

Section Matcher.
Variable R : Type.

Definition exhausted (h : option nat) : bool :=
  match h with
  | Some O => true
  | _ => false
  end.

(** One repetition [p{lo,hi}] at the head of [s], which starts at offset
    [pos]; [k] matches what follows. *)
Fixpoint rep (p : charset) (lo : nat) (hi : option nat) (g : bool)
    (s : string) (pos : nat) (k : nat -> string -> option R) {struct s}
    : option R :=
  let more :=
    match s with
    | EmptyString => None
    | String c s' =>
        if p c && negb (exhausted hi)
        then rep p (pred lo) (option_map pred hi) g s' (S pos) k
        else None
    end in
  match lo with
  | S _ => more
  | O =>
      if g
      then match more with
           | Some r => Some r
           | None => k pos s
           end
      else match k pos s with
           | Some r => Some r
           | None => more
           end
  end.

Fixpoint atoms (l : list atom) (s : string) (pos : nat)
    (k : nat -> string -> option R) : option R :=
  match l with
  | [] => k pos s
  | a :: l' =>
      rep (cls a) (lo a) (hi a) (greedy a) s pos
          (fun pos' s' => atoms l' s' pos' k)
  end.

Fixpoint items (l : regex) (s : string) (pos : nat)
    (caps : list (nat * nat))
    (k : nat -> list (nat * nat) -> option R) : option R :=
  match l with
  | [] => k pos caps
  | Plain a :: l' =>
      atoms [a] s pos (fun pos' s' => items l' s' pos' caps k)
  | Group body :: l' =>
      atoms body s pos
            (fun pos' s' => items l' s' pos' (caps ++ [(pos, pos')]) k)
  end.
End Matcher.

(** The result of [str.match(re)] when it is not [null]: [m.index], [m[0]]
    and the captures [m[1]], [m[2]], ... *)
Record match_result : Type := MatchResult {
  index : nat;
  whole : string;
  groups : list string
}.

(** [m[n]] for [n >= 1]; [None] is [undefined]. *)
Definition group (n : nat) (m : match_result) : option string :=
  nth_error (groups m) (pred n).

(** An attempt at offset 0 of [s]: the length matched and the capture spans. *)
Definition match_here (r : regex) (s : string)
    : option (nat * list (nat * nat)) :=
  items _ r s 0 [] (fun pos caps => Some (pos, caps)).

Fixpoint exec_from (r : regex) (s : string) (i : nat) : option match_result :=
  match match_here r s with
  | Some (len, caps) =>
      Some (MatchResult i (Str.take len s)
                        (map (fun ab => Str.slice (fst ab) (snd ab) s) caps))
  | None =>
      match s with
      | EmptyString => None
      | String _ s' => exec_from r s' (S i)
      end
  end.

(** [s.match(r)] for a regular expression without the [g] flag. *)
Definition exec (r : regex) (s : string) : option match_result :=
  exec_from r s 0.

Definition is_quantifier (c : ascii) : bool :=
  Ascii.eqb c "*"%char || Ascii.eqb c "+"%char || Ascii.eqb c "?"%char.

(** Characters with a syntactic role in a pattern. *)
Definition is_meta (c : ascii) : bool :=
  existsb (Ascii.eqb c)
          (list_ascii_of_string "\^$.|?*+()[]{}").

Definition plain_text (s : string) : bool :=
  forallb (fun c => negb (is_meta c)) (list_ascii_of_string s).

(** [new RegExp(src)] on the part of pattern text the embedding covers: a
    sequence of units, each an ordinary character or [.], optionally
    followed by one greedy quantifier among [*], [+] and [?].  [None] is
    pattern text outside this part (escapes, groups, classes, alternation,
    anchors, braces, lazy or stacked quantifiers). *)
Fixpoint compile (src : list ascii) : option (list atom) :=
  match src with
  | [] => Some []
  | c :: rest =>
      let p : charset := if Ascii.eqb c "."%char then dot else Ascii.eqb c in
      if is_meta c && negb (Ascii.eqb c "."%char) then None
      else
        match rest with
        | q :: rest' =>
            if is_quantifier q then
              match rest' with
              | q' :: _ =>
                  if is_quantifier q' || Ascii.eqb q' "{"%char then None
                  else
                    option_map
                      (cons (if Ascii.eqb q "*"%char then star p
                             else if Ascii.eqb q "+"%char then plus p
                             else opt p))
                      (compile rest')
              | [] =>
                  Some [if Ascii.eqb q "*"%char then star p
                        else if Ascii.eqb q "+"%char then plus p
                        else opt p]
              end
            else option_map (cons (one p)) (compile rest)
        | [] => Some [one p]
        end
  end.

End Regex.

(** ** Data *)

(** [TimeRemaining] of fritz-client.ts. *)
Record TimeRemaining : Type := mkTimeRemaining {
  used : string;
  total : string;
  remainingMinutes : jsnum;
  isExhausted : bool
}.

(** A row of the table [alert_logs] (the [id] column is left out). *)
Record AlertLog : Type := mkAlertLog {
  phoneNumber : string;
  alert_message : string;
  alert_minutes : Z;          (* column remaining_minutes *)
  sentAt : string;
  date : string
}.

(** A row of the table [system_logs]. *)
Record SystemLog : Type := mkSystemLog {
  event : string;
  log_message : string;
  timestamp : string;
  level : string
}.

Record MessageConfig : Type := mkMessageConfig {
  minutes : Z;
  message : string
}.

Record NumberConfig : Type := mkNumberConfig {
  number : string;
  isAdmin : bool;
  MessageWhenRemainingMins : list MessageConfig
}.

(** The part of [Config] that the alert manager reads. *)
Record Config : Type := mkConfig {
  fritz_url : string;
  fritz_device_name : string;
  NumbersToSMS : list NumberConfig;
  cron_schedule : string
}.

(** The constructor arguments of [FritzClient]. *)
Record FritzClient : Type := mkFritzClient {
  baseUrl : string;
  username : string;
  password : string
}.

(** ** The world and the program state *)

(** What the program did to its collaborators, for the statements only. *)
Inductive io : Type :=
| HttpGet (path : string)
| HttpPost (path body : string)
| Sms (to body : string) (ok : bool)
| Query (phone day : string) (mins : Z) (found : bool)
| Insert (row : AlertLog).

(** The collaborators.  An answer may depend on the request and on the
    number of interactions that came before it. *)
Record World : Type := mkWorld {
  (** the text of [new Date().toISOString()] at the k-th reading *)
  clock : nat -> string;
  (** [GET /]: the status of the answer, [None] when axios rejects *)
  get_root : nat -> option nat;
  (** [GET /login_sid.lua]: the body, or the message of the rejection *)
  get_login : nat -> string + string;
  (** [POST /login_sid.lua] *)
  post_login : nat -> string -> string + string;
  (** [POST /data.lua] *)
  post_data : nat -> string -> string + string;
  (** whether [client.messages.create] resolves *)
  twilio_create : nat -> string -> string -> bool;
  (** hex MD5 digest of the UTF-16LE encoding of a text *)
  md5_utf16le_hex : string -> string;
  encodeURIComponent : string -> string
}.

Record State : Type := mkState {
  sessionId : option string;          (* FritzClient.sessionId *)
  alert_logs : list AlertLog;         (* oldest first *)
  system_logs : list SystemLog;       (* oldest first *)
  clock_reads : nat;
  trace : list io                     (* newest first *)
}.

Definition initial_state : State := mkState None [] [] 0 [].

(** ** The monad *)

Inductive Res (A : Type) : Type :=
| Ret (a : A) (s : State)           (* normal completion *)
| Throw (e : string) (s : State)    (* an Error with message [e] *)
| Diverge                           (* the recursion budget ran out *)
| Unmodelled.                       (* input outside the embedding *)
Arguments Ret {A} a s.
Arguments Throw {A} e s.
Arguments Diverge {A}.
Arguments Unmodelled {A}.

Definition M (A : Type) : Type := State -> Res A.

Definition ret {A} (a : A) : M A := fun s => Ret a s.
Definition throw {A} (e : string) : M A := fun s => Throw e s.
Definition diverge {A} : M A := fun _ => Diverge.
Definition unmodelled {A} : M A := fun _ => Unmodelled.

Definition bind {A B} (m : M A) (k : A -> M B) : M B :=
  fun s =>
    match m s with
    | Ret a s' => k a s'
    | Throw e s' => Throw e s'
    | Diverge => Diverge
    | Unmodelled => Unmodelled
    end.

(** [try { m } catch (error) { h(error.message) }] *)
Definition try_catch {A} (m : M A) (h : string -> M A) : M A :=
  fun s =>
    match m s with
    | Throw e s' => h e s'
    | r => r
    end.

Declare Scope prog_scope.
Delimit Scope prog_scope with prog.
Notation "x <- m ;; k" := (bind m (fun x => k))
  (at level 100, m at next level, right associativity) : prog_scope.
Notation "m ;;; k" := (bind m (fun _ => k))
  (at level 100, right associativity) : prog_scope.
Open Scope prog_scope.

(** [for (const x of l) { await f(x) }] *)
Fixpoint for_each {A} (l : list A) (f : A -> M unit) : M unit :=
  match l with
  | [] => ret tt
  | x :: l' => f x ;;; for_each l' f
  end.

Definition get_state : M State := fun s => Ret s s.
Definition emit (e : io) : M unit :=
  fun s => Ret tt (mkState (sessionId s) (alert_logs s) (system_logs s)
                           (clock_reads s) (e :: trace s)).
Definition set_sessionId (sid : option string) : M unit :=
  fun s => Ret tt (mkState sid (alert_logs s) (system_logs s)
                           (clock_reads s) (trace s)).

(** [new Date().toISOString()] *)
Definition newDateISO (w : World) : M string :=
  fun s => Ret (clock w (clock_reads s))
               (mkState (sessionId s) (alert_logs s) (system_logs s)
                        (S (clock_reads s)) (trace s)).

(** [iso.split('T')[0]] *)
Definition day_of (iso : string) : string :=
  hd EmptyString (Str.split "T" iso).

(** ** DatabaseService *)

Module DatabaseService.

Definition row_matches (phone day : string) (mins : Z) (a : AlertLog) : bool :=
  (phoneNumber a =? phone) && (date a =? day) && (alert_minutes a =? mins)%Z.

(** [SELECT COUNT( * ) ... WHERE phone_number = ? AND date = ? AND
    remaining_minutes = ?] *)
Definition count_rows (rows : list AlertLog) (phone day : string) (mins : Z)
    : nat :=
  List.length (filter (row_matches phone day mins) rows).

(** [result.count > 0] *)
Definition was_sent (rows : list AlertLog) (phone day : string) (mins : Z)
    : bool :=
  (0 <? count_rows rows phone day mins)%nat.

Definition logAlert (a : AlertLog) : M unit :=
  fun s => Ret tt (mkState (sessionId s) (alert_logs s ++ [a]) (system_logs s)
                           (clock_reads s) (Insert a :: trace s)).

Definition logSystem (l : SystemLog) : M unit :=
  fun s => Ret tt (mkState (sessionId s) (alert_logs s) (system_logs s ++ [l])
                           (clock_reads s) (trace s)).

Definition wasAlertSentForMinutes (phone day : string) (mins : Z) : M bool :=
  s <- get_state ;;
  let found := was_sent (alert_logs s) phone day mins in
  emit (Query phone day mins found) ;;;
  ret found.

End DatabaseService.

(** ** SmsService *)

Module SmsService.

(** [sendSms]: [true] when [messages.create] resolves, [false] when it
    rejects; it never throws. *)
Definition sendSms (w : World) (to body : string) : M bool :=
  s <- get_state ;;
  let ok := twilio_create w (List.length (trace s)) to body in
  emit (Sms to body ok) ;;;
  ret ok.

End SmsService.

(** ** FritzClient *)

Module Fritz.

Import Regex.

(** [/<Challenge>(.*?)<\/Challenge>/] *)
Definition re_challenge : regex :=
  lit "<Challenge>" ++ [Group [lazy_star dot]] ++ lit "</Challenge>".

(** [/<SID>(.*?)<\/SID>/] *)
Definition re_sid : regex :=
  lit "<SID>" ++ [Group [lazy_star dot]] ++ lit "</SID>".

Definition exhausted_marker : string :=
  "<span title=" +++ Str.dq +++ "Online time exhausted" +++ Str.dq +++ ">".

(** [/<span title="Online time exhausted">/] *)
Definition re_exhausted : regex := lit exhausted_marker.

(** [(\d{n}:\d{2})] *)
Definition hhmm (n : nat) : item :=
  Group [exactly n digit; chr ":"%char; exactly 2 digit].

(** [/<span title="(\d{2}:\d{2}) of (\d{2}:\d{2}) hours">/] *)
Definition re_time2 : regex :=
  lit ("<span title=" +++ Str.dq) ++ [hhmm 2] ++ lit " of " ++ [hhmm 2]
  ++ lit (" hours" +++ Str.dq +++ ">").

(** [/<span title="(\d{2}:\d{2}) of (\d{1}:\d{2}) hours">/] *)
Definition re_time1 : regex :=
  lit ("<span title=" +++ Str.dq) ++ [hhmm 2] ++ lit " of " ++ [hhmm 1]
  ++ lit (" hours" +++ Str.dq +++ ">").

(** [new RegExp(`<[^>]*>${deviceName}<[^>]*>`)]; [None] when the device
    name is pattern text that [Regex.compile] does not cover: for such a
    name [new RegExp] builds a pattern of another kind or throws a
    [SyntaxError]. *)
Definition deviceRegex (deviceName : string) : option regex :=
  option_map
    (fun name =>
       lit "<" ++ [Plain (star not_gt)] ++ lit ">" ++ map Plain name
       ++ lit "<" ++ [Plain (star not_gt)] ++ lit ">")
    (compile (list_ascii_of_string deviceName)).

Definition all_zero_sid : string := "0000000000000000".

Definition axios_get (path : string) (answer : nat -> string + string)
    : M string :=
  s <- get_state ;;
  emit (HttpGet path) ;;;
  match answer (List.length (trace s)) with
  | inl body => ret body
  | inr e => throw e
  end.

Definition axios_post (path body : string)
    (answer : nat -> string -> string + string) : M string :=
  s <- get_state ;;
  emit (HttpPost path body) ;;;
  match answer (List.length (trace s)) body with
  | inl data => ret data
  | inr e => throw e
  end.

(** [getSessionId] *)
Definition getSessionId (w : World) (fc : FritzClient) : M string :=
  try_catch
    (challengeResponse <- axios_get "/login_sid.lua" (get_login w) ;;
     match exec re_challenge challengeResponse with
     | None => throw "Could not extract challenge from Fritz router"
     | Some challengeMatch =>
         match group 1 challengeMatch with
         | None => unmodelled
         | Some challenge =>
             let responseString := challenge +++ "-" +++ password fc in
             let md5Hash := md5_utf16le_hex w responseString in
             let response := challenge +++ "-" +++ md5Hash in
             loginResponse <-
               axios_post "/login_sid.lua"
                 ("username=" +++ encodeURIComponent w (username fc)
                  +++ "&response=" +++ response)
                 (post_login w) ;;
             match exec re_sid loginResponse with
             | None => throw "Fritz router authentication failed"
             | Some sidMatch =>
                 match group 1 sidMatch with
                 | None => unmodelled
                 | Some sid =>
                     if sid =? all_zero_sid
                     then throw "Fritz router authentication failed"
                     else set_sessionId (Some sid) ;;; ret sid
                 end
             end
         end
     end)
    (fun error =>
       throw ("Failed to authenticate with Fritz router: " +++ error)).

(** [calculateRemainingMinutes] *)
Definition parseTime (timeStr : string) : jsnum :=
  match map Num.Number (Str.split ":" timeStr) with
  | hours :: minutes :: _ => Num.add (Num.mul hours (Int 60)) minutes
  | _ => NaN
  end.

Definition calculateRemainingMinutes (used total : string) : jsnum :=
  let usedMinutes := parseTime used in
  let totalMinutes := parseTime total in
  Num.max (Int 0) (Num.sub totalMinutes usedMinutes).

(** The result of a computation without state: a value, a thrown [Error],
    or input outside the embedding. *)
Inductive outcome (A : Type) : Type :=
| Return (a : A)
| Raise (e : string)
| NotCovered.
Arguments Return {A} a.
Arguments Raise {A} e.
Arguments NotCovered {A}.

(** The loop over [spanMatches]. *)
Fixpoint scanSpanMatches (spanMatches : list (option match_result))
    : outcome TimeRemaining :=
  match spanMatches with
  | [] => Raise "Could not parse time information from parental control data"
  | None :: rest => scanSpanMatches rest
  | Some m :: _ =>
      if Str.includes (whole m) "exhausted"
      then Return (mkTimeRemaining "N/A" "N/A" (Int 0) true)
      else
        match group 1 m, group 2 m with
        | Some used, Some total =>
            let remainingMinutes := calculateRemainingMinutes used total in
            Return (mkTimeRemaining used total remainingMinutes
                                    (Num.leb remainingMinutes (Int 0)))
        | _, _ => NotCovered
        end
  end.

(** [parseParentalControlData] *)
Definition parseParentalControlData (htmlData deviceName : string)
    : outcome TimeRemaining :=
  match deviceRegex deviceName with
  | None => NotCovered
  | Some deviceRe =>
      let body :=
        match exec deviceRe htmlData with
        | None =>
            Raise ("Device " +++ Str.dq +++ deviceName +++ Str.dq
                   +++ " not found in parental control data")
        | Some deviceMatch =>
            let deviceIndex := Str.indexOf htmlData (whole deviceMatch) in
            let afterDevice := Str.substring_from htmlData deviceIndex in
            scanSpanMatches
              [exec re_exhausted afterDevice;
               exec re_time2 afterDevice;
               exec re_time1 afterDevice]
        end in
      match body with
      | Raise e => Raise ("Failed to parse parental control data: " +++ e)
      | r => r
      end
  end.

Definition lift {A} (o : outcome A) : M A :=
  match o with
  | Return a => ret a
  | Raise e => throw e
  | NotCovered => unmodelled
  end.

(** The text of [${this.sessionId}]. *)
Definition sid_text (sid : option string) : string :=
  match sid with
  | Some s => s
  | None => "null"
  end.

(** [!this.sessionId] *)
Definition no_session (sid : option string) : bool :=
  match sid with
  | Some s => negb (Str.truthy s)
  | None => true
  end.

(** [getParentalControlData].  The method calls itself from its [catch];
    [fuel] bounds the depth of these calls. *)
Fixpoint getParentalControlData (fuel : nat) (w : World) (fc : FritzClient)
    (deviceName : string) : M TimeRemaining :=
  match fuel with
  | O => diverge
  | S fuel' =>
      try_catch
        (s0 <- get_state ;;
         (if no_session (sessionId s0)
          then getSessionId w fc ;;; ret tt
          else ret tt) ;;;
         s1 <- get_state ;;
         data <- axios_post "/data.lua"
                   ("xhr=1&sid=" +++ sid_text (sessionId s1) +++ "&page=kidLis")
                   (post_data w) ;;
         lift (parseParentalControlData data deviceName))
        (fun error =>
           if Str.includes error "session"
           then
             set_sessionId None ;;;
             getSessionId w fc ;;;
             getParentalControlData fuel' w fc deviceName
           else
             throw ("Failed to fetch parental control data: " +++ error))
  end.

(** [testConnection] *)
Definition testConnection (w : World) : M bool :=
  s <- get_state ;;
  emit (HttpGet "/") ;;;
  ret (match get_root w (List.length (trace s)) with
       | Some status => (status =? 200)%nat
       | None => false
       end).

End Fritz.

(** ** AlertManager *)

Module AlertManager.

Import DatabaseService SmsService.

(** [[...l].sort((a, b) => b.minutes - a.minutes)]: the stable sort by
    decreasing [minutes]. *)
Fixpoint insert_desc (x : MessageConfig) (l : list MessageConfig)
    : list MessageConfig :=
  match l with
  | [] => [x]
  | y :: l' =>
      if (minutes y <=? minutes x)%Z then x :: y :: l'
      else y :: insert_desc x l'
  end.

Definition sort_desc (l : list MessageConfig) : list MessageConfig :=
  fold_right insert_desc [] l.

(** The loop over [sortedMessages] of [processAlertsForNumber]; the result
    is the pair ([messageToSend], [alertMinutes]), or [None] when both are
    still [null] after the loop. *)
Fixpoint scanThresholds (phone today : string) (remaining : jsnum)
    (sortedMessages : list MessageConfig) : M (option (string * Z)) :=
  match sortedMessages with
  | [] => ret None
  | messageConfig :: rest =>
      if Num.leb remaining (Int (minutes messageConfig))
      then
        sent <- wasAlertSentForMinutes phone today (minutes messageConfig) ;;
        if negb sent
        then ret (Some (message messageConfig, minutes messageConfig))
        else scanThresholds phone today remaining rest
      else scanThresholds phone today remaining rest
  end.

(** [processAlertsForNumber] *)
Definition processAlertsForNumber (w : World) (numberConfig : NumberConfig)
    (timeRemaining : TimeRemaining) (today : string) : M unit :=
  let sortedMessages := sort_desc (MessageWhenRemainingMins numberConfig) in
  found <- scanThresholds (number numberConfig) today
             (remainingMinutes timeRemaining) sortedMessages ;;
  match found with
  | None => ret tt
  | Some (messageToSend, alertMinutes) =>
      if Str.truthy messageToSend
      then
        success <- sendSms w (number numberConfig) messageToSend ;;
        if success
        then
          at_ <- newDateISO w ;;
          logAlert (mkAlertLog (number numberConfig) messageToSend
                               alertMinutes at_ today) ;;;
          ts <- newDateISO w ;;
          logSystem
            (mkSystemLog "alert_sent"
               ("Alert sent to " +++ number numberConfig +++ " for "
                +++ Str.of_Z alertMinutes +++ " minutes remaining")
               ts "info")
        else
          ts <- newDateISO w ;;
          logSystem
            (mkSystemLog "alert_failed"
               ("Failed to send alert to " +++ number numberConfig)
               ts "error")
      else ret tt
  end.

(** The text sent to the administrators. *)
Definition connection_error_message : string :=
  "⚠️ Get A Life Alert: Cannot connect to Fritz router. Please check the system.".

(** The body of the loop over [adminNumbers]. *)
Definition alertAdmin (w : World) (today : string) (admin : NumberConfig)
    : M unit :=
  sent <- wasAlertSentForMinutes (number admin) today (-1) ;;
  if negb sent
  then
    success <- sendSms w (number admin) connection_error_message ;;
    if success
    then
      at_ <- newDateISO w ;;
      logAlert (mkAlertLog (number admin) connection_error_message
                           (-1) at_ today)
    else ret tt
  else ret tt.

(** [handleFritzConnectionError] *)
Definition handleFritzConnectionError (w : World) (config : Config) : M unit :=
  now <- newDateISO w ;;
  let today := day_of now in
  let adminNumbers := filter isAdmin (NumbersToSMS config) in
  for_each adminNumbers (alertAdmin w today) ;;;
  ts <- newDateISO w ;;
  logSystem (mkSystemLog "fritz_connection_error"
                         "Cannot connect to Fritz router" ts "error").

(** [checkAndAlert] *)
Definition checkAndAlert (fuel : nat) (w : World) (fc : FritzClient)
    (config : Config) : M unit :=
  now <- newDateISO w ;;
  let today := day_of now in
  try_catch
    (logSystem (mkSystemLog "check_start" "Starting network time check"
                            now "info") ;;;
     isConnected <- Fritz.testConnection w ;;
     if negb isConnected
     then handleFritzConnectionError w config
     else
       timeRemaining <-
         Fritz.getParentalControlData fuel w fc (fritz_device_name config) ;;
       logSystem
         (mkSystemLog "time_check"
            ("Time remaining: "
             +++ Num.to_string (remainingMinutes timeRemaining)
             +++ " minutes (" +++ used timeRemaining +++ "/"
             +++ total timeRemaining +++ ")")
            now "info") ;;;
       for_each (NumbersToSMS config)
                (fun numberConfig =>
                   processAlertsForNumber w numberConfig timeRemaining today))
    (fun errorMessage =>
       logSystem (mkSystemLog "check_error"
                              ("Error during check: " +++ errorMessage)
                              now "error") ;;;
       handleFritzConnectionError w config).

End AlertManager.

(** ** ConfigService.validateConfig *)

Module ConfigService.

(** A value as [yaml.load] may produce it. *)
Inductive jsval : Type :=
| VUndefined
| VNull
| VBool (b : bool)
| VNum (n : jsnum)
| VStr (s : string)
| VObject.

(** [!v] is [negb (truthy v)]. *)
Definition truthy (v : jsval) : bool :=
  match v with
  | VUndefined | VNull => false
  | VBool b => b
  | VNum (Int z) => negb (z =? 0)%Z
  | VNum NaN => false
  | VStr s => Str.truthy s
  | VObject => true
  end.

Definition is_number (v : jsval) : bool :=
  match v with
  | VNum _ => true
  | _ => false
  end.

Definition is_boolean (v : jsval) : bool :=
  match v with
  | VBool _ => true
  | _ => false
  end.

Record RawMessage : Type := mkRawMessage {
  raw_minutes : jsval;
  raw_message : jsval
}.

(** [raw_messages] is [None] when the field is missing or not an array. *)
Record RawNumber : Type := mkRawNumber {
  raw_number : jsval;
  raw_isAdmin : jsval;
  raw_messages : option (list RawMessage)
}.

(** The loaded file: [raw_fritz] is [None] when there is no [fritz] entry,
    otherwise its [url] and [device_name]; [raw_numbers] is [None] when
    [NumbersToSMS] is missing or not an array. *)
Record RawConfig : Type := mkRawConfig {
  raw_fritz : option (jsval * jsval);
  raw_numbers : option (list RawNumber);
  raw_cron_schedule : jsval
}.

Definition nl : string := String "010"%char EmptyString.

Fixpoint message_errors (index msgIndex : nat) (l : list RawMessage)
    : list string :=
  match l with
  | [] => []
  | msg :: l' =>
      (if negb (is_number (raw_minutes msg))
       then ["Invalid minutes value for NumbersToSMS[" +++ Str.of_nat index
             +++ "].MessageWhenRemainingMins[" +++ Str.of_nat msgIndex +++ "]"]
       else [])
      ++ (if negb (truthy (raw_message msg))
          then ["Missing message for NumbersToSMS[" +++ Str.of_nat index
                +++ "].MessageWhenRemainingMins[" +++ Str.of_nat msgIndex
                +++ "]"]
          else [])
      ++ message_errors index (S msgIndex) l'
  end.

Fixpoint number_errors (index : nat) (l : list RawNumber) : list string :=
  match l with
  | [] => []
  | numberConfig :: l' =>
      (if negb (truthy (raw_number numberConfig))
       then ["Missing number for NumbersToSMS[" +++ Str.of_nat index +++ "]"]
       else [])
      ++ (if negb (is_boolean (raw_isAdmin numberConfig))
          then ["Invalid isAdmin value for NumbersToSMS[" +++ Str.of_nat index
                +++ "]"]
          else [])
      ++ match raw_messages numberConfig with
         | None =>
             ["Missing or invalid MessageWhenRemainingMins for NumbersToSMS["
              +++ Str.of_nat index +++ "]"]
         | Some msgs => message_errors index 0 msgs
         end
      ++ number_errors (S index) l'
  end.

Definition validation_errors (c : RawConfig) : list string :=
  match raw_fritz c with
  | None => ["Missing fritz configuration"]
  | Some (url, device_name) =>
      (if negb (truthy url) then ["Missing fritz.url"] else [])
      ++ (if negb (truthy device_name) then ["Missing fritz.device_name"]
          else [])
  end
  ++ match raw_numbers c with
     | None => ["Missing or invalid NumbersToSMS array"]
     | Some numbers =>
         number_errors 0 numbers
         ++ (if negb (existsb (fun n => truthy (raw_isAdmin n)) numbers)
             then ["At least one admin number must be configured"]
             else [])
     end
  ++ (if negb (truthy (raw_cron_schedule c)) then ["Missing cron_schedule"]
      else []).

(** [validateConfig]: [None] when it returns, [Some message] when it
    throws. *)
Definition validateConfig (c : RawConfig) : option string :=
  match validation_errors c with
  | [] => None
  | errors =>
      Some ("Configuration validation failed:" +++ nl +++ String.concat nl errors)
  end.

(** The threshold rule that [as Config] makes of a raw entry whose fields
    have the declared types. *)
Definition as_message (m : RawMessage) : option MessageConfig :=
  match raw_minutes m, raw_message m with
  | VNum (Int z), VStr s => Some (mkMessageConfig z s)
  | _, _ => None
  end.

End ConfigService.

(** ** The language of a regular expression

    What the matcher is compared with: the texts of the language of a
    pattern, and the texts under its groups. *)

Module RegexSpec.

Import Regex.

Definition span (s : string) (ab : nat * nat) : string :=
  Str.slice (fst ab) (snd ab) s.

Definition within (h : option nat) (n : nat) : Prop :=
  match h with
  | Some m => n <= m
  | None => True
  end.

(** [in_atom a x]: the text [x] is a repetition allowed by [a]. *)
Definition in_atom (a : atom) (x : string) : Prop :=
  lo a <= String.length x /\ within (hi a) (String.length x)
  /\ Str.all (cls a) x = true.

(** [in_atoms l x]: [x] is a concatenation of repetitions, one per atom. *)
Fixpoint in_atoms (l : list atom) (x : string) : Prop :=
  match l with
  | [] => x = EmptyString
  | a :: l' => exists x1 x2, x = x1 +++ x2 /\ in_atom a x1 /\ in_atoms l' x2
  end.

(** [in_items r x caps]: [x] is in the language of [r], with the texts
    [caps] under its groups. *)
Fixpoint in_items (r : regex) (x : string) (caps : list string) : Prop :=
  match r with
  | [] => x = EmptyString /\ caps = []
  | Plain a :: r' =>
      exists x1 x2, x = x1 +++ x2 /\ in_atom a x1 /\ in_items r' x2 caps
  | Group body :: r' =>
      exists x1 x2 caps',
        x = x1 +++ x2 /\ in_atoms body x1 /\ caps = x1 :: caps'
        /\ in_items r' x2 caps'
  end.


(** What a repetition does when it takes one more character. *)
Definition more_of {R : Type} (p : charset) (lo : nat) (hi : option nat) (g : bool)
  (s : string) (pos : nat) (k : nat -> string -> option R) : option R :=
  match s with
  | EmptyString => None
  | String c s' =>
      if p c && negb (exhausted hi)
      then rep R p (pred lo) (option_map pred hi) g s' (S pos) k
      else None
  end.

End RegexSpec.

(** ** What the specification says of the parser *)

Module ParseSpec.

(** The decimal value of a run of digits. *)
Fixpoint decimal_from (acc : Z) (s : string) : Z :=
  match s with
  | EmptyString => acc
  | String c s' =>
      decimal_from (10 * acc + (Z.of_nat (nat_of_ascii c) - 48))%Z s'
  end.

Definition decimal (s : string) : Z := decimal_from 0 s.

(** Minutes of a label [H:MM] or [HH:MM], as the specification words it:
    hours times sixty plus minutes. *)
Definition hhmm_minutes (label : string) : Z :=
  match Str.find ":" label with
  | Some i =>
      (decimal (Str.take i label) * 60 + decimal (Str.drop (S i) label))%Z
  | None => 0%Z
  end.

Definition exhausted_result : TimeRemaining :=
  mkTimeRemaining "N/A" "N/A" (Int 0) true.

(** A text [h:m] made of two runs of digits. *)
Definition is_label (n : nat) (x : string) : Prop :=
  exists h m,
    x = h +++ ":" +++ m /\ String.length h = n /\ String.length m = 2
    /\ Str.all Num.is_digit h = true /\ Str.all Num.is_digit m = true.

End ParseSpec.

(** ** The order of queries, sends and insertions *)

Module Protocol.

Import DatabaseService.

(** [triple R m Q]: from any state, when [m] completes or throws the final
    state is [R]-related to the initial one, and a returned value
    satisfies [Q]. *)
Definition triple (R : State -> State -> Prop) {A} (m : M A) (Q : A -> Prop)
    : Prop :=
  forall st,
    match m st with
    | Ret a st' => R st st' /\ Q a
    | Throw _ st' => R st st'
    | Diverge | Unmodelled => True
    end.

(** The order in which the program talks to the alert table and to the
    SMS gateway.  [blocks allowed rows0 added rows]: the events [added]
    (newest first) lead the table from [rows0] to [rows], and are made of
    - requests to the router,
    - dedup queries, answered from the table as it is at that time,
    - a query answered [false], then a send that fails,
    - a query answered [false], then a send that succeeds, then the
      insertion of the row for the key queried.
    [allowed phone key body] restricts what may be sent under a key. *)
Inductive blocks (allowed : string -> Z -> string -> Prop)
    (rows0 : list AlertLog) : list io -> list AlertLog -> Prop :=
| blocks_nil : blocks allowed rows0 [] rows0
| blocks_get t rows path :
    blocks allowed rows0 t rows ->
    blocks allowed rows0 (HttpGet path :: t) rows
| blocks_post t rows path body :
    blocks allowed rows0 t rows ->
    blocks allowed rows0 (HttpPost path body :: t) rows
| blocks_query t rows phone day mins :
    blocks allowed rows0 t rows ->
    blocks allowed rows0
           (Query phone day mins (was_sent rows phone day mins) :: t) rows
| blocks_failed t rows phone day mins body :
    blocks allowed rows0 t rows ->
    was_sent rows phone day mins = false ->
    allowed phone mins body ->
    blocks allowed rows0
           (Sms phone body false :: Query phone day mins false :: t) rows
| blocks_sent t rows phone day mins body at_ :
    blocks allowed rows0 t rows ->
    was_sent rows phone day mins = false ->
    allowed phone mins body ->
    blocks allowed rows0
           (Insert (mkAlertLog phone body mins at_ day)
            :: Sms phone body true :: Query phone day mins false :: t)
           (rows ++ [mkAlertLog phone body mins at_ day]).

Definition steps (allowed : string -> Z -> string -> Prop)
    (st st' : State) : Prop :=
  exists added,
    trace st' = added ++ trace st
    /\ blocks allowed (alert_logs st) added (alert_logs st').

(** Every insertion comes right after a successful send of the same text
    to the same number, itself right after a query of the same key that
    was answered [false]. *)
Fixpoint gated (t : list io) : Prop :=
  match t with
  | [] => True
  | Insert row :: rest =>
      (exists rest',
         rest = Sms (phoneNumber row) (alert_message row) true
                :: Query (phoneNumber row) (date row) (alert_minutes row) false
                :: rest')
      /\ gated rest
  | _ :: rest => gated rest
  end.

(** The sends made under the key [mins]: those that come right after a
    query of that key answered [false].  Each is given with the number, the
    text, the outcome and the day. *)
Fixpoint key_sends (mins : Z) (t : list io)
    : list (string * string * bool * string) :=
  match t with
  | [] => []
  | Sms to body ok :: rest =>
      match rest with
      | Query phone day mins' false :: _ =>
          if (mins' =? mins)%Z && (phone =? to)
          then (to, body, ok, day) :: key_sends mins rest
          else key_sends mins rest
      | _ => key_sends mins rest
      end
  | _ :: rest => key_sends mins rest
  end.

(** Every send comes right after some query for the same number that was
    answered [false]. *)
Fixpoint sends_gated (t : list io) : Prop :=
  match t with
  | [] => True
  | Sms to _ _ :: rest =>
      (exists day mins rest', rest = Query to day mins false :: rest')
      /\ sends_gated rest
  | _ :: rest => sends_gated rest
  end.

Definition successful (phone day : string)
    (s : string * string * bool * string) : bool :=
  let '(to, _, ok, d) := s in (to =? phone) && ok && (d =? day).

(** The number of successful sends to [phone] under the key [mins] on
    [day]. *)
Definition sends_on (phone day : string) (mins : Z) (t : list io) : nat :=
  List.length (filter (successful phone day) (key_sends mins t)).

Definition is_admin (config : Config) (phone : string) : Prop :=
  exists a, In a (NumbersToSMS config) /\ isAdmin a = true /\ number a = phone.

(** What the alert manager may send: under the key [-1], only the
    connection text and only to an administrator. *)
Definition allowed (config : Config) (phone : string) (mins : Z)
    (body : string) : Prop :=
  mins = (-1)%Z ->
  is_admin config phone /\ body = AlertManager.connection_error_message.

Definition is_http (e : io) : Prop :=
  match e with
  | HttpGet _ | HttpPost _ _ => True
  | _ => False
  end.

(** What the router client does to the state: requests to the router, and
    the session; it leaves the tables and the clock alone. *)
Definition fetches (st st' : State) : Prop :=
  exists added,
    trace st' = added ++ trace st
    /\ Forall is_http added
    /\ alert_logs st' = alert_logs st
    /\ system_logs st' = system_logs st
    /\ clock_reads st' = clock_reads st.

(** What the connectivity path may send: only under the key [-1]. *)
Definition connectivity_only (config : Config) (phone : string) (mins : Z)
    (body : string) : Prop :=
  mins = (-1)%Z /\ is_admin config phone
  /\ body = AlertManager.connection_error_message.

(** The sends of a trace, oldest first: number, text and outcome. *)
Fixpoint sms_of (t : list io) : list (string * string * bool) :=
  match t with
  | [] => []
  | Sms to body ok :: rest => sms_of rest ++ [(to, body, ok)]
  | _ :: rest => sms_of rest
  end.

(** The rows inserted by a trace, oldest first. *)
Fixpoint inserted (t : list io) : list AlertLog :=
  match t with
  | [] => []
  | Insert row :: rest => inserted rest ++ [row]
  | _ :: rest => inserted rest
  end.

(** [history fc config st0 st]: a sequence of completed checks, in worlds
    of any behaviour, leads from [st0] to [st]. *)
Inductive history (fc : FritzClient) (config : Config) (st0 : State)
    : State -> Prop :=
| history_start : history fc config st0 st0
| history_check fuel w st st' :
    history fc config st0 st ->
    AlertManager.checkAndAlert fuel w fc config st = Ret tt st' ->
    history fc config st0 st'.

End Protocol.

(** ** The selection of a threshold rule *)

Module SelectSpec.

Import DatabaseService.
Import Protocol.

(** A rule may fire: the remaining time is at or under its threshold and
    the alert table has no row for it today. *)
Definition eligible (rows : list AlertLog) (phone today : string)
    (remaining : jsnum) (rule : MessageConfig) : bool :=
  Num.leb remaining (Int (minutes rule))
  && negb (was_sent rows phone today (minutes rule)).

Definition select (rows : list AlertLog) (phone today : string)
    (remaining : jsnum) (rules : list MessageConfig) : option (string * Z) :=
  option_map (fun rule => (message rule, minutes rule))
             (find (eligible rows phone today remaining) rules).

Definition descending (a b : MessageConfig) : Prop :=
  (minutes b <= minutes a)%Z.

Definition with_trace (st : State) (t : list io) : State :=
  mkState (sessionId st) (alert_logs st) (system_logs st) (clock_reads st) t.

End SelectSpec.

(** ** The final states of the alert manager, in closed form *)

Module RunSpec.

Import DatabaseService.
Import AlertManager.
Import SelectSpec.

(** The state in which [processAlertsForNumber] ends, when its loop has
    asked the queries [qs] and selected [found]. *)
Definition process_result (w : World) (numberConfig : NumberConfig)
    (today : string) (st : State) (qs : list io)
    (found : option (string * Z)) : State :=
  let st1 := with_trace st (qs ++ trace st) in
  match found with
  | None => st1
  | Some (body, m) =>
      if Str.truthy body
      then
        if twilio_create w (List.length (qs ++ trace st))
                         (number numberConfig) body
        then
          let row := mkAlertLog (number numberConfig) body m
                                (clock w (clock_reads st)) today in
          mkState (sessionId st) (alert_logs st ++ [row])
            (system_logs st
             ++ [mkSystemLog "alert_sent"
                   ("Alert sent to " +++ number numberConfig +++ " for "
                    +++ Str.of_Z m +++ " minutes remaining")
                   (clock w (S (clock_reads st))) "info"])
            (S (S (clock_reads st)))
            (Insert row :: Sms (number numberConfig) body true
             :: qs ++ trace st)
        else
          mkState (sessionId st) (alert_logs st)
            (system_logs st
             ++ [mkSystemLog "alert_failed"
                   ("Failed to send alert to " +++ number numberConfig)
                   (clock w (clock_reads st)) "error"])
            (S (clock_reads st))
            (Sms (number numberConfig) body false :: qs ++ trace st)
      else st1
  end.

(** The state in which the loop body of [handleFritzConnectionError]
    ends. *)
Definition alertAdmin_result (w : World) (today : string)
    (admin : NumberConfig) (st : State) : State :=
  let phone := number admin in
  if was_sent (alert_logs st) phone today (-1)
  then with_trace st (Query phone today (-1) true :: trace st)
  else
    let asked := Query phone today (-1) false :: trace st in
    if twilio_create w (List.length asked) phone connection_error_message
    then
      let row := mkAlertLog phone connection_error_message (-1)
                            (clock w (clock_reads st)) today in
      mkState (sessionId st) (alert_logs st ++ [row]) (system_logs st)
              (S (clock_reads st))
              (Insert row :: Sms phone connection_error_message true :: asked)
    else
      with_trace st (Sms phone connection_error_message false :: asked).

(** A remaining time that is not negative. *)
Definition nonneg (x : jsnum) : Prop :=
  match x with
  | Int z => (0 <= z)%Z
  | NaN => True
  end.

End RunSpec.

(** ** The outcomes of an authentication *)

Module AuthSpec.

Import Regex.
Import Fritz.

(** The body of the login request for a challenge. *)
Definition login_request (w : World) (fc : FritzClient) (challenge : string)
    : string :=
  "username=" +++ encodeURIComponent w (username fc) +++ "&response="
  +++ challenge +++ "-"
  +++ md5_utf16le_hex w (challenge +++ "-" +++ password fc).

(** Why an authentication that starts as interaction number [i] is
    rejected, with the message of the cause. *)
Inductive rejected (w : World) (fc : FritzClient) (i : nat) : string -> Prop :=
| challenge_transport e :
    get_login w i = inr e -> rejected w fc i e
| challenge_missing body :
    get_login w i = inl body -> exec re_challenge body = None ->
    rejected w fc i "Could not extract challenge from Fritz router"
| login_transport body cm challenge e :
    get_login w i = inl body -> exec re_challenge body = Some cm ->
    group 1 cm = Some challenge ->
    post_login w (S i) (login_request w fc challenge) = inr e ->
    rejected w fc i e
| sid_missing body cm challenge data :
    get_login w i = inl body -> exec re_challenge body = Some cm ->
    group 1 cm = Some challenge ->
    post_login w (S i) (login_request w fc challenge) = inl data ->
    exec re_sid data = None ->
    rejected w fc i "Fritz router authentication failed"
| sid_zero body cm challenge data sm :
    get_login w i = inl body -> exec re_challenge body = Some cm ->
    group 1 cm = Some challenge ->
    post_login w (S i) (login_request w fc challenge) = inl data ->
    exec re_sid data = Some sm -> group 1 sm = Some all_zero_sid ->
    rejected w fc i "Fritz router authentication failed".

(** The router grants the session [sid]. *)
Inductive granted (w : World) (fc : FritzClient) (i : nat) : string -> Prop :=
| granted_session body cm challenge data sm sid :
    get_login w i = inl body -> exec re_challenge body = Some cm ->
    group 1 cm = Some challenge ->
    post_login w (S i) (login_request w fc challenge) = inl data ->
    exec re_sid data = Some sm -> group 1 sm = Some sid ->
    sid <> all_zero_sid ->
    granted w fc i sid.

(** The causes of failure that the specification names: a transport error
    on either request, or a login answer whose session identifier is
    missing or all zero. *)
Definition named_cause (w : World) (i : nat) : Prop :=
  (exists e, get_login w i = inr e)
  \/ (exists request e, post_login w (S i) request = inr e)
  \/ (exists request data,
        post_login w (S i) request = inl data
        /\ (exec re_sid data = None
            \/ exists sm, exec re_sid data = Some sm
                          /\ group 1 sm = Some all_zero_sid)).


(** The message of the [Error] that [getSessionId] throws for a cause. *)
Definition auth_error (cause : string) : string :=
  "Failed to authenticate with Fritz router: " +++ cause.

End AuthSpec.

(** ** Worlds, configurations and states for the examples *)

Module Scenario.

Import AlertManager.
Import ConfigService.

Definition page (deviceName label : string) : string :=
  "<tr><td class=" +++ Str.dq +++ "name" +++ Str.dq +++ ">" +++ deviceName
  +++ "</td><td><span title=" +++ Str.dq +++ label +++ Str.dq
  +++ "></span></td></tr>".

Definition challenge_page : string :=
  "<SessionInfo><SID>0000000000000000</SID><Challenge>1234abcd</Challenge>"
  +++ "</SessionInfo>".

Definition granted_page : string :=
  "<SessionInfo><SID>9a8b7c6d5e4f3a2b</SID></SessionInfo>".

(** A router that is up and grants a session; [data] answers the usage
    requests, and [sms] says whether the gateway accepts a text. *)
Definition world (data : nat -> string -> string + string) (sms : bool)
    : World :=
  mkWorld (fun _ => "2024-05-01T10:00:00.000Z")
          (fun _ => Some 200)
          (fun _ => inl challenge_page)
          (fun _ _ => inl granted_page)
          data
          (fun _ _ _ => sms)
          (fun _ => "d41d8cd98f00b204e9800998ecf8427e")
          (fun s => s).

(** A router that answers nothing. *)
Definition unreachable : World :=
  mkWorld (fun _ => "2024-05-01T10:00:00.000Z")
          (fun _ => None)
          (fun _ => inr "connect ECONNREFUSED")
          (fun _ _ => inr "connect ECONNREFUSED")
          (fun _ _ => inr "connect ECONNREFUSED")
          (fun _ _ _ => true)
          (fun _ => "d41d8cd98f00b204e9800998ecf8427e")
          (fun s => s).

(** A router that answers nothing, and a gateway that refuses every
    text. *)
Definition unreachable_refusing : World :=
  mkWorld (fun _ => "2024-05-01T10:00:00.000Z")
          (fun _ => None)
          (fun _ => inr "connect ECONNREFUSED")
          (fun _ _ => inr "connect ECONNREFUSED")
          (fun _ _ => inr "connect ECONNREFUSED")
          (fun _ _ _ => false)
          (fun _ => "d41d8cd98f00b204e9800998ecf8427e")
          (fun s => s).

Definition client : FritzClient :=
  mkFritzClient "http://fritz.box" "admin" "secret".

Definition parent : NumberConfig :=
  mkNumberConfig "+441" true
    [mkMessageConfig 15 "15 left"; mkMessageConfig 30 "30 left";
     mkMessageConfig 5 "5 left"; mkMessageConfig 0 "none left"].

Definition config (deviceName : string) : Config :=
  mkConfig "http://fritz.box" deviceName [parent] "*/5 * * * *".

(** The usage page always shows 18 minutes left. *)
Definition steady : World :=
  world (fun _ _ => inl (page "Leos-11" "01:42 of 02:00 hours")) true.

(** The usage page always shows 18 minutes left, and the gateway refuses
    every text. *)
Definition steady_refusing : World :=
  world (fun _ _ => inl (page "Leos-11" "01:42 of 02:00 hours")) false.

(** The data endpoint rejects every request with a session error. *)
Definition always_expired : World :=
  world (fun _ _ => inr "Invalid session") true.

(** The data endpoint rejects the first two usage requests of a check with
    a session error and answers the third. *)
Definition expired_twice : World :=
  world (fun n _ =>
           if (n <? 9)%nat then inr "Invalid session"
           else inl (page "Leos-11" "01:42 of 02:00 hours"))
        true.

(** The first answer to the challenge request has no challenge. *)
Definition no_challenge : World :=
  mkWorld (fun _ => "2024-05-01T10:00:00.000Z")
          (fun _ => Some 200)
          (fun _ => inl "<SessionInfo></SessionInfo>")
          (fun _ _ => inl granted_page)
          (fun _ _ => inl (page "Leos-11" "01:42 of 02:00 hours"))
          (fun _ _ _ => true)
          (fun _ => "d41d8cd98f00b204e9800998ecf8427e")
          (fun s => s).

Definition data_posts (t : list io) : nat :=
  List.length
    (filter (fun e => match e with
                      | HttpPost path _ => path =? "/data.lua"
                      | _ => false
                      end) t).


Definition sample_page : string :=
  "<tr><td class=" +++ Str.dq +++ "name" +++ Str.dq +++ ">Leos-11</td><td>"
  +++ "<span title=" +++ Str.dq +++ "00:04 of 02:10 hours" +++ Str.dq
  +++ "></span></td></tr>".

Definition granted_sid : string := "9a8b7c6d5e4f3a2b".

(** The state after a successful [getSessionId] in a world of
    [Scenario.world]. *)
Definition authenticated (st : State) : State :=
  mkState (Some granted_sid) (alert_logs st) (system_logs st) (clock_reads st)
          (HttpPost "/login_sid.lua"
             "username=admin&response=1234abcd-d41d8cd98f00b204e9800998ecf8427e"
           :: HttpGet "/login_sid.lua" :: trace st).

Definition state_of {A} (r : Res A) : State :=
  match r with
  | Ret _ s => s
  | Throw _ s => s
  | Diverge | Unmodelled => initial_state
  end.

(** Two checks on one day while the router is down. *)
Definition after_one_failure : State :=
  Eval vm_compute in
    state_of (checkAndAlert 1 unreachable client (config "Leos-11")
                            initial_state).

Definition after_two_failures : State :=
  Eval vm_compute in
    state_of (checkAndAlert 1 unreachable client (config "Leos-11")
                            after_one_failure).

(** A configuration file with a threshold of minus one minute. *)
Definition raw_config_minus_one : RawConfig :=
  mkRawConfig
    (Some (VStr "http://fritz.box", VStr "Leos-11"))
    (Some [mkRawNumber (VStr "+441") (VBool true)
             (Some [mkRawMessage (VNum (Int (-1))) (VStr "offline")])])
    (VStr "*/5 * * * *").

Definition offline_rule : MessageConfig := mkMessageConfig (-1) "offline".

Definition offline_parent : NumberConfig :=
  mkNumberConfig "+441" true [offline_rule].

End Scenario.

(** ** SmsService.sendMultipleSms *)

Module SmsBatch.

Import SmsService.

(** [SmsConfig] *)
Record SmsConfig : Type := mkSmsConfig {
  sms_to : string;
  sms_message : string
}.

(** The loop of [sendMultipleSms], with the counters [sent] and [failed]
    as they stand before the messages [messages].  The pause of 100 ms
    after each message changes nothing of the state and is left out. *)
Fixpoint sendLoop (w : World) (messages : list SmsConfig)
    (sent failed : nat) : M (nat * nat) :=
  match messages with
  | [] => ret (sent, failed)
  | m :: rest =>
      success <- sendSms w (sms_to m) (sms_message m) ;;
      if success then sendLoop w rest (S sent) failed
      else sendLoop w rest sent (S failed)
  end.

(** [sendMultipleSms]: the pair is [{ sent, failed }]. *)
Definition sendMultipleSms (w : World) (messages : list SmsConfig)
    : M (nat * nat) :=
  sendLoop w messages 0 0.

(** [testSms] *)
Definition testSms (w : World) (to : string) : M bool :=
  sendSms w to "Test message from Get A Life Alert system".

End SmsBatch.

(** ** AlertManager.getCurrentStatus and AlertManager.testSystem *)

Module Status.

Import DatabaseService.

(** The object that [getCurrentStatus] returns; [status_error] is [None]
    when the object has no [error]. *)
Record CurrentStatus : Type := mkCurrentStatus {
  status_timeRemaining : option TimeRemaining;
  status_isConnected : bool;
  status_error : option string
}.

(** [getCurrentStatus] *)
Definition getCurrentStatus (fuel : nat) (w : World) (fc : FritzClient)
    (config : Config) : M CurrentStatus :=
  try_catch
    (isConnected <- Fritz.testConnection w ;;
     if negb isConnected
     then ret (mkCurrentStatus None false
                               (Some "Cannot connect to Fritz router"))
     else
       timeRemaining <-
         Fritz.getParentalControlData fuel w fc (fritz_device_name config) ;;
       ret (mkCurrentStatus (Some timeRemaining) true None))
    (fun error => ret (mkCurrentStatus None false (Some error))).

(** The object that [testSystem] returns. *)
Record SystemTest : Type := mkSystemTest {
  test_fritz : bool;
  test_sms : bool;
  test_database : bool;
  test_errors : list string
}.

(** [this.database.logSystem(l)] on a store whose statement may fail:
    [fault] is the message that the [catch] of [testSystem] finds for what
    [db.prepare] or [stmt.run] throws ([error.message], or [Unknown error]
    for a value that is no [Error]), and [None] when the row is written. *)
Definition logSystem_on (fault : option string) (l : SystemLog) : M unit :=
  match fault with
  | Some error => throw error
  | None => logSystem l
  end.

(** [testSystem].  Each [try] block yields the variables it assigns, and
    the list is [errors] as the block leaves it; [this.smsService !== null]
    holds of every alert manager, which is built with a service.  The
    timestamp of the row is read before the statement runs. *)
Definition testSystem (w : World) (fault : option string) : M SystemTest :=
  r1 <- try_catch
          (fritzOk <- Fritz.testConnection w ;;
           ret (fritzOk,
                if negb fritzOk then ["Cannot connect to Fritz router"]
                else []))
          (fun error => ret (false, ["Fritz error: " +++ error])) ;;
  let smsOk := true in
  r3 <- try_catch
          (ts <- newDateISO w ;;
           logSystem_on fault
             (mkSystemLog "system_test" "System test performed" ts "info") ;;;
           ret (true, snd r1))
          (fun error =>
             ret (false, snd r1 ++ ["Database error: " +++ error])) ;;
  ret (mkSystemTest (fst r1) smsOk (fst r3) (snd r3)).

End Status.

(** ** DatabaseService.cleanupOldLogs *)

Module Cleanup.

Import DatabaseService.

(** The rows that [DELETE FROM alert_logs WHERE date < ?] leaves: the
    texts are compared character by character. *)
Definition keeps_alert (cutoffString : string) (a : AlertLog) : bool :=
  negb (date a <? cutoffString).

(** The rows that [DELETE FROM system_logs WHERE timestamp < ?] leaves. *)
Definition keeps_system (cutoffString : string) (l : SystemLog) : bool :=
  negb (timestamp l <? cutoffString).

Definition set_tables (alerts : list AlertLog) (systems : list SystemLog)
    : M unit :=
  fun s => Ret tt (mkState (sessionId s) alerts systems (clock_reads s)
                           (trace s)).

(** [cleanupOldLogs].  [shifted now days] is the text of [toISOString()]
    of the date that [setDate(getDate() - days)] makes of the date of
    text [now]; [changes] is the number of rows a statement deleted. *)
Definition cleanupOldLogs (w : World) (shifted : string -> Z -> string)
    (daysToKeep : Z) : M unit :=
  now <- newDateISO w ;;
  let cutoffString := day_of (shifted now daysToKeep) in
  s <- get_state ;;
  let alerts := filter (keeps_alert cutoffString) (alert_logs s) in
  let systems := filter (keeps_system cutoffString) (system_logs s) in
  let alertDeleted := List.length (alert_logs s) - List.length alerts in
  let systemDeleted := List.length (system_logs s) - List.length systems in
  set_tables alerts systems ;;;
  ts <- newDateISO w ;;
  logSystem
    (mkSystemLog "cleanup"
       ("Cleaned up " +++ Str.of_nat alertDeleted +++ " alert logs and "
        +++ Str.of_nat systemDeleted +++ " system logs older than "
        +++ Str.of_Z daysToKeep +++ " days")
       ts "info").

End Cleanup.

(** ** ConfigService: the time rules *)

Module Schedule.

(** [TimeRule] *)
Record TimeRule : Type := mkTimeRule {
  time_start : string;
  time_end : string;
  max_minutes : Z
}.

(** [TimeRulesByDay[key] || null]: [None] when the object has no rule
    under the key. *)
Definition TimeRules : Type := string -> option TimeRule.

Definition lower (c : ascii) : ascii :=
  let n := nat_of_ascii c in
  if (65 <=? n)%nat && (n <=? 90)%nat then ascii_of_nat (n + 32) else c.

(** [s.toLowerCase()], for a text of ASCII characters. *)
Fixpoint toLowerCase (s : string) : string :=
  match s with
  | EmptyString => EmptyString
  | String c s' => String (lower c) (toLowerCase s')
  end.

(** [getTimeRulesForDay] *)
Definition getTimeRulesForDay (rules : TimeRules) (day : string)
    : option TimeRule :=
  rules (toLowerCase day).

(** [new Date().getDay()] *)
Inductive weekday : Type :=
| Sunday | Monday | Tuesday | Wednesday | Thursday | Friday | Saturday.

(** [days[d]] *)
Definition day_name (d : weekday) : string :=
  match d with
  | Sunday => "sunday"
  | Monday => "monday"
  | Tuesday => "tuesday"
  | Wednesday => "wednesday"
  | Thursday => "thursday"
  | Friday => "friday"
  | Saturday => "saturday"
  end.

(** [getTodayTimeRules] *)
Definition getTodayTimeRules (rules : TimeRules) (today : weekday)
    : option TimeRule :=
  getTimeRulesForDay rules (day_name today).

(** [s.padStart(targetLength, c)] for a one-character filler. *)
Definition padStart (targetLength : nat) (c : ascii) (s : string) : string :=
  string_of_list_ascii (repeat c (targetLength - String.length s)) +++ s.

(** The text [currentTime] for [getHours()] and [getMinutes()]. *)
Definition time_text (hours minutes : nat) : string :=
  padStart 2 "0" (Str.of_nat hours) +++ ":"
  +++ padStart 2 "0" (Str.of_nat minutes).

(** [isWithinAllowedHours]: [today] is read from the first [new Date()],
    [hours] and [minutes] from the second. *)
Definition isWithinAllowedHours (rules : TimeRules) (today : weekday)
    (hours minutes : nat) : bool :=
  match getTodayTimeRules rules today with
  | None => false
  | Some r =>
      let currentTime := time_text hours minutes in
      (time_start r <=? currentTime) && (currentTime <=? time_end r)
  end.

End Schedule.

(** ** The configuration, once validated *)

Module TypedConfig.

Import ConfigService.

Fixpoint as_messages (l : list RawMessage) : option (list MessageConfig) :=
  match l with
  | [] => Some []
  | m :: l' =>
      match as_message m, as_messages l' with
      | Some m', Some r => Some (m' :: r)
      | _, _ => None
      end
  end.

Definition as_number (n : RawNumber) : option NumberConfig :=
  match raw_number n, raw_isAdmin n, raw_messages n with
  | VStr s, VBool b, Some msgs =>
      option_map (mkNumberConfig s b) (as_messages msgs)
  | _, _, _ => None
  end.

Fixpoint as_numbers (l : list RawNumber) : option (list NumberConfig) :=
  match l with
  | [] => Some []
  | n :: l' =>
      match as_number n, as_numbers l' with
      | Some n', Some r => Some (n' :: r)
      | _, _ => None
      end
  end.

(** The [Config] that [yaml.load(...) as Config] stands for, when the
    loaded values have the declared types. *)
Definition as_config (c : RawConfig) : option Config :=
  match raw_fritz c, raw_numbers c, raw_cron_schedule c with
  | Some (VStr url, VStr device_name), Some numbers, VStr schedule =>
      option_map (fun l => mkConfig url device_name l schedule)
                 (as_numbers numbers)
  | _, _, _ => None
  end.

End TypedConfig.

(** ** The outcomes of a fetch of the usage data *)

Module FetchSpec.

Import Fritz.

(** The [try] block of [getParentalControlData]. *)
Definition attempt (w : World) (fc : FritzClient) (deviceName : string)
    : M TimeRemaining :=
  s0 <- get_state ;;
  (if no_session (sessionId s0)
   then getSessionId w fc ;;; ret tt
   else ret tt) ;;;
  s1 <- get_state ;;
  data <- axios_post "/data.lua"
            ("xhr=1&sid=" +++ sid_text (sessionId s1) +++ "&page=kidLis")
            (post_data w) ;;
  lift (parseParentalControlData data deviceName).

(** The body of the request for the usage data under the session [sid]. *)
Definition data_request (sid : string) : string :=
  "xhr=1&sid=" +++ sid +++ "&page=kidLis".

(** The message of the [Error] that [getParentalControlData] makes of a
    failure that it does not take for an expired session. *)
Definition fetch_error (e : string) : string :=
  "Failed to fetch parental control data: " +++ e.

End FetchSpec.

(** ** The failures of the parser *)

Module ParseErrors.

(** The messages of the two failures of [parseParentalControlData]. *)
Definition device_not_found (deviceName : string) : string :=
  "Failed to parse parental control data: Device " +++ Str.dq +++ deviceName
  +++ Str.dq +++ " not found in parental control data".

Definition no_time_information : string :=
  "Failed to parse parental control data: "
  +++ "Could not parse time information from parental control data".

(** The beginning of the three markers. *)
Definition span_title : string := "<span title=" +++ Str.dq.

End ParseErrors.

(** ** What the loops of the alert manager send *)

Module LoopSpec.

Import DatabaseService.
Import AlertManager.
Import SelectSpec.

(** The recipient and the text of a send. *)
Definition to_body (x : string * string * bool) : string * string :=
  (fst (fst x), snd (fst x)).

(** What a number is to be sent, going by the rows [rows]: the number and
    the text of the rule selected for it, if that text is not empty. *)
Definition wanted (rows : list AlertLog) (today : string) (remaining : jsnum)
    (numberConfig : NumberConfig) : list (string * string) :=
  match select rows (number numberConfig) today remaining
               (sort_desc (MessageWhenRemainingMins numberConfig)) with
  | Some (body, _) =>
      if Str.truthy body then [(number numberConfig, body)] else []
  | None => []
  end.

(** The event that [processAlertsForNumber] logs after a send. *)
Definition outcome_event (x : string * string * bool) : string :=
  if snd x then "alert_sent" else "alert_failed".

(** An administrator who has no row of key [-1] for the day. *)
Definition to_alert (rows : list AlertLog) (today : string)
    (admin : NumberConfig) : bool :=
  negb (was_sent rows (number admin) today (-1)).

End LoopSpec.

(** ** How the alert table grows over the checks *)

Module Escalation.

Import DatabaseService.
Import AlertManager.
Import SelectSpec.

(** [grows config rows rows']: the table [rows'] is [rows] followed by
    rows that were added one at a time, each of them either a row of the
    connectivity key, or the row of the rule selected for a configured
    number in the table as it was then, for a remaining time that is not
    negative. *)
Inductive grows (config : Config) (rows : list AlertLog)
    : list AlertLog -> Prop :=
| grows_refl : grows config rows rows
| grows_admin rows' phone body at_ day :
    grows config rows rows' ->
    grows config rows (rows' ++ [mkAlertLog phone body (-1) at_ day])
| grows_rule rows' numberConfig r body m at_ day :
    grows config rows rows' ->
    In numberConfig (NumbersToSMS config) ->
    (0 <= r)%Z ->
    select rows' (number numberConfig) day (Int r)
           (sort_desc (MessageWhenRemainingMins numberConfig))
    = Some (body, m) ->
    grows config rows
          (rows' ++ [mkAlertLog (number numberConfig) body m at_ day]).

Definition grow (config : Config) (st st' : State) : Prop :=
  grows config (alert_logs st) (alert_logs st').

(** Of two rows for the same number and day, neither of the connectivity
    key, the later one has the lower threshold. *)
Definition later_is_lower (a b : AlertLog) : Prop :=
  phoneNumber a = phoneNumber b -> date a = date b ->
  (0 <= alert_minutes a)%Z -> (0 <= alert_minutes b)%Z ->
  (alert_minutes b < alert_minutes a)%Z.

(** What the checks keep true of the table: for every configured number
    and every day, the rules recorded are the rules from some threshold
    up; every row of a threshold comes from a rule of the entry of its
    number; and the thresholds go down. *)
Definition escalated (config : Config) (rows : list AlertLog) : Prop :=
  (forall numberConfig rule rule' day,
      In numberConfig (NumbersToSMS config) ->
      In rule (MessageWhenRemainingMins numberConfig) ->
      In rule' (MessageWhenRemainingMins numberConfig) ->
      (0 <= minutes rule)%Z -> (minutes rule <= minutes rule')%Z ->
      was_sent rows (number numberConfig) day (minutes rule) = true ->
      was_sent rows (number numberConfig) day (minutes rule') = true)
  /\ (forall a,
        In a rows -> (0 <= alert_minutes a)%Z ->
        exists numberConfig rule,
          In numberConfig (NumbersToSMS config)
          /\ In rule (MessageWhenRemainingMins numberConfig)
          /\ number numberConfig = phoneNumber a
          /\ minutes rule = alert_minutes a)
  /\ ForallOrdPairs later_is_lower rows.

End Escalation.

(** ** Two checks on one day *)

Module Afternoon.

Import AlertManager.
Import Scenario.

(** The usage page shows 12 minutes left. *)
Definition later : World :=
  world (fun _ _ => inl (page "Leos-11" "01:48 of 02:00 hours")) true.

(** A check with 18 minutes left, then one with 12 minutes left. *)
Definition after_first_check : State :=
  Eval vm_compute in
    state_of (checkAndAlert 1 steady client (config "Leos-11")
                            initial_state).

Definition after_second_check : State :=
  Eval vm_compute in
    state_of (checkAndAlert 1 later client (config "Leos-11")
                            after_first_check).

End Afternoon.

(** * Properties *)

(** ** Strings *)

Module StrFacts.

Import Str.

Lemma app_assoc (a b c : string) : (a +++ b) +++ c = a +++ (b +++ c).
Proof. induction a as [|x a IH]; simpl; [reflexivity | now rewrite IH]. Qed.

Lemma app_nil_r (a : string) : a +++ EmptyString = a.
Proof. induction a as [|x a IH]; simpl; [reflexivity | now rewrite IH]. Qed.

Lemma length_app (a b : string) :
  String.length (a +++ b) = String.length a + String.length b.
Proof. induction a as [|x a IH]; simpl; [reflexivity | now rewrite IH]. Qed.

Lemma drop_0 (s : string) : drop 0 s = s.
Proof. now destruct s. Qed.

Lemma take_0 (s : string) : take 0 s = EmptyString.
Proof. now destruct s. Qed.

Lemma drop_app (a b : string) : drop (String.length a) (a +++ b) = b.
Proof. induction a as [|x a IH]; simpl; [reflexivity | exact IH]. Qed.

Lemma take_app (a b : string) : take (String.length a) (a +++ b) = a.
Proof. induction a as [|x a IH]; simpl; [reflexivity | now rewrite IH]. Qed.

Lemma take_drop (n : nat) (s : string) : take n s +++ drop n s = s.
Proof.
  revert s; induction n as [|n IH]; intros [|c s]; simpl; try reflexivity.
  now rewrite IH.
Qed.

Lemma length_take (n : nat) (s : string) :
  n <= String.length s -> String.length (take n s) = n.
Proof.
  revert s; induction n as [|n IH]; intros [|c s]; simpl; intros H;
    try reflexivity; try lia.
  rewrite IH; lia.
Qed.

Lemma length_drop (n : nat) (s : string) :
  String.length (drop n s) = String.length s - n.
Proof.
  revert s; induction n as [|n IH]; intros [|c s]; simpl; try reflexivity.
  apply IH.
Qed.

Lemma drop_drop (n m : nat) (s : string) : drop n (drop m s) = drop (m + n) s.
Proof.
  revert s; induction m as [|m IH]; intros s; simpl.
  - reflexivity.
  - destruct s as [|c s]; simpl; [now destruct n | apply IH].
Qed.

Lemma drop_add_app (n : nat) (a b : string) :
  drop (String.length a + n) (a +++ b) = drop n b.
Proof. now rewrite <- drop_drop, drop_app. Qed.

Lemma drop_le_app (n : nat) (a b : string) :
  n <= String.length a -> drop n (a +++ b) = drop n a +++ b.
Proof.
  revert a; induction n as [|n IH]; intros a H.
  - reflexivity.
  - destruct a as [|c a]; simpl in *; [lia | apply IH; lia].
Qed.

Lemma take_take_drop (n m : nat) (s : string) :
  take n s +++ take m (drop n s) = take (n + m) s.
Proof.
  revert s; induction n as [|n IH]; intros s; simpl.
  - reflexivity.
  - destruct s as [|c s]; simpl; [now destruct m | now rewrite IH].
Qed.

Lemma all_app (p : ascii -> bool) (a b : string) :
  all p (a +++ b) = all p a && all p b.
Proof.
  induction a as [|x a IH]; simpl; [reflexivity |].
  now rewrite IH, andb_assoc.
Qed.

Lemma starts_with_app (p s : string) : starts_with p (p +++ s) = true.
Proof.
  induction p as [|x p IH]; simpl; [now destruct s |].
  now rewrite Ascii.eqb_refl, IH.
Qed.

Lemma starts_with_inv (p s : string) :
  starts_with p s = true -> exists r, s = p +++ r.
Proof.
  revert s; induction p as [|x p IH]; intros s H.
  - now exists s.
  - destruct s as [|y s]; simpl in H; [discriminate |].
    apply andb_true_iff in H as [Hxy Hp].
    apply Ascii.eqb_eq in Hxy; subst y.
    destruct (IH _ Hp) as [r ->]. now exists r.
Qed.

(** [find] returns an offset at which the needle occurs. *)
Lemma find_sound (needle hay : string) (i : nat) :
  find needle hay = Some i ->
  exists pre post,
    hay = pre +++ needle +++ post /\ String.length pre = i.
Proof.
  revert i; induction hay as [|c hay IH]; intros i; simpl.
  - destruct (starts_with needle EmptyString) eqn:E; [|discriminate].
    intros [= <-]. destruct (starts_with_inv _ _ E) as [r Hr].
    exists EmptyString, r. now split.
  - destruct (starts_with needle (String c hay)) eqn:E.
    + intros [= <-]. destruct (starts_with_inv _ _ E) as [r Hr].
      exists EmptyString, r. now split.
    + destruct (find needle hay) as [j|] eqn:F; [|discriminate].
      intros [= <-]. destruct (IH j eq_refl) as (pre & post & -> & <-).
      exists (String c pre), post. now split.
Qed.

(** [find] returns the least such offset, and finds every needle. *)
Lemma find_complete (needle pre post : string) :
  exists i,
    find needle (pre +++ needle +++ post) = Some i /\ i <= String.length pre.
Proof.
  induction pre as [|c pre IH]; simpl.
  - exists 0. split; [|lia].
    destruct (needle +++ post) eqn:E.
    + simpl. destruct needle; [reflexivity | discriminate].
    + simpl. rewrite <- E, starts_with_app. reflexivity.
  - destruct (starts_with needle (String c (pre +++ needle +++ post))).
    + exists 0. split; [reflexivity | lia].
    + destruct IH as (i & -> & Hi). exists (S i). split; [reflexivity | lia].
Qed.

Lemma includes_app (needle pre post : string) :
  includes (pre +++ needle +++ post) needle = true.
Proof.
  unfold includes.
  destruct (find_complete needle pre post) as (i & -> & _). reflexivity.
Qed.

(** A text without the character [c] includes no text that has it. *)
Lemma find_absent (c : ascii) (needle1 needle2 hay : string) :
  all (fun x => negb (Ascii.eqb x c)) hay = true ->
  find (needle1 +++ String c needle2) hay = None.
Proof.
  intros H.
  destruct (find (needle1 +++ String c needle2) hay) as [i|] eqn:F;
    [|reflexivity].
  apply find_sound in F as (pre & post & -> & _).
  rewrite !all_app in H. simpl in H.
  rewrite Ascii.eqb_refl in H. simpl in H.
  rewrite !andb_false_r in H. discriminate.
Qed.

End StrFacts.

(** ** The matcher against the language *)

Module RegexFacts.

Import Regex.
Import StrFacts.
Import RegexSpec.

Section Rep.
Variable R : Type.


Lemma rep_eq p lo hi g s pos k :
  rep R p lo hi g s pos k =
  match lo with
  | S _ => more_of p lo hi g s pos k
  | O =>
      if g
      then match more_of p lo hi g s pos k with
           | Some r => Some r
           | None => k pos s
           end
      else match k pos s with
           | Some r => Some r
           | None => more_of p lo hi g s pos k
           end
  end.
Proof. destruct s; reflexivity. Qed.

(** Either the repetition stops here, or it takes one more character. *)
Lemma rep_cases p lo hi g s pos k r :
  rep R p lo hi g s pos k = Some r ->
  (lo = 0 /\ k pos s = Some r) \/ more_of p lo hi g s pos k = Some r.
Proof.
  rewrite rep_eq. destruct lo; [|now right].
  destruct g.
  - destruct (more_of p 0 hi true s pos k); [now right | now left].
  - destruct (k pos s); [now left | now right].
Qed.

Lemma rep_some p lo hi g s pos k :
  (lo = 0 /\ k pos s <> None) \/ more_of p lo hi g s pos k <> None ->
  rep R p lo hi g s pos k <> None.
Proof.
  rewrite rep_eq. intros [[-> K] | M].
  - destruct g.
    + destruct (more_of p 0 hi true s pos k); congruence.
    + destruct (k pos s); congruence.
  - destruct lo; [|exact M].
    destruct g.
    + destruct (more_of p 0 hi true s pos k); congruence.
    + destruct (k pos s); congruence.
Qed.

Lemma rep_sound (p : charset) (g : bool) :
  forall s lo hi pos (k : nat -> string -> option R) r,
    rep R p lo hi g s pos k = Some r ->
    exists n,
      lo <= n /\ within hi n /\ n <= String.length s
      /\ Str.all p (Str.take n s) = true
      /\ k (pos + n) (Str.drop n s) = Some r.
Proof.
  induction s as [|c s IH]; intros lo hi pos k r H;
    apply rep_cases in H as [[-> K] | M].
  - exists 0. rewrite Nat.add_0_r. repeat split; auto.
    destruct hi; simpl; lia.
  - discriminate.
  - exists 0. rewrite Nat.add_0_r. simpl. repeat split; auto; try lia.
    destruct hi; simpl; lia.
  - unfold more_of in M. destruct (p c) eqn:Pc; [|discriminate].
    destruct (exhausted hi) eqn:Eh; [discriminate|]. simpl in M.
    destruct (IH _ _ _ _ _ M) as (n & Hlo & Hhi & Hn & Hall & Hk).
    exists (S n). simpl. rewrite Pc, Hall.
    replace (pos + S n) with (S pos + n) by lia.
    repeat split; auto; try lia.
    destruct hi as [[|h]|]; simpl in *; try discriminate; lia.
Qed.

Lemma rep_complete (p : charset) (g : bool) :
  forall s lo hi pos (k : nat -> string -> option R) n,
    lo <= n -> within hi n -> n <= String.length s ->
    Str.all p (Str.take n s) = true ->
    k (pos + n) (Str.drop n s) <> None ->
    rep R p lo hi g s pos k <> None.
Proof.
  induction s as [|c s IH]; intros lo hi pos k n Hlo Hhi Hn Hall Hk;
    apply rep_some.
  - simpl in Hn. assert (n = 0) by lia; subst n.
    rewrite Nat.add_0_r in Hk. left. split; [lia | exact Hk].
  - destruct n as [|n].
    + rewrite Nat.add_0_r in Hk. left. split; [lia | exact Hk].
    + right. simpl in Hall, Hk, Hn.
      apply andb_true_iff in Hall as [Pc Hall].
      assert (Eh : exhausted hi = false)
        by (destruct hi as [[|h]|]; simpl in *; auto; lia).
      unfold more_of. rewrite Pc, Eh. simpl.
      apply (IH _ _ _ _ n); auto; try lia.
      * destruct hi as [[|h]|]; simpl in *; auto; lia.
      * now replace (S pos + n) with (pos + S n) by lia.
Qed.

Lemma atoms_sound :
  forall l s pos (k : nat -> string -> option R) r,
    atoms R l s pos k = Some r ->
    exists n,
      n <= String.length s /\ in_atoms l (Str.take n s)
      /\ k (pos + n) (Str.drop n s) = Some r.
Proof.
  induction l as [|a l IH]; intros s pos k r H; simpl in H.
  - exists 0. rewrite Nat.add_0_r. simpl. rewrite ?take_0.
    repeat split; auto; lia.
  - apply rep_sound in H as (n & Hlo & Hhi & Hn & Hall & H).
    apply IH in H as (m & Hm & Hin & H).
    rewrite length_drop in Hm. rewrite drop_drop in H.
    exists (n + m). repeat split; try lia.
    + simpl. exists (Str.take n s), (Str.take m (Str.drop n s)).
      split; [now rewrite take_take_drop|]. split; [|exact Hin].
      unfold in_atom. now rewrite length_take.
    + now rewrite Nat.add_assoc.
Qed.

Lemma atoms_complete :
  forall l x rest pos (k : nat -> string -> option R),
    in_atoms l x ->
    k (pos + String.length x) rest <> None ->
    atoms R l (x +++ rest) pos k <> None.
Proof.
  induction l as [|a l IH]; intros x rest pos k Hin Hk; simpl in *.
  - subst x. simpl in *. now rewrite Nat.add_0_r in Hk.
  - destruct Hin as (x1 & x2 & -> & (Hlo & Hhi & Hall) & Hin).
    rewrite app_assoc.
    apply (rep_complete _ _ _ _ _ _ _ (String.length x1)); auto.
    + rewrite length_app. lia.
    + now rewrite take_app.
    + rewrite drop_app. apply IH; auto.
      now rewrite length_app, Nat.add_assoc in Hk.
Qed.

Lemma in_atoms_single a x : in_atoms [a] x <-> in_atom a x.
Proof.
  simpl. split.
  - intros (x1 & x2 & -> & H & ->). now rewrite app_nil_r.
  - intros H. exists x, EmptyString. now rewrite app_nil_r.
Qed.

Lemma slice_split (a b c : nat) (s : string) :
  a <= b -> b <= c ->
  Str.slice a c s = Str.slice a b s +++ Str.slice b c s.
Proof.
  intros Hab Hbc. unfold Str.slice.
  replace (Str.drop b s) with (Str.drop (b - a) (Str.drop a s))
    by (rewrite drop_drop; f_equal; lia).
  rewrite take_take_drop. f_equal. lia.
Qed.

Lemma items_sound (s0 : string) :
  forall l pos caps (k : nat -> list (nat * nat) -> option R) r,
    pos <= String.length s0 ->
    items R l (Str.drop pos s0) pos caps k = Some r ->
    exists pos' caps',
      pos <= pos' /\ pos' <= String.length s0
      /\ k pos' (caps ++ caps') = Some r
      /\ in_items l (Str.slice pos pos' s0) (map (span s0) caps').
Proof.
  induction l as [|[a|body] l IH]; intros pos caps k r Hpos H; simpl in H.
  - exists pos, []. unfold Str.slice.
    rewrite Nat.sub_diag, List.app_nil_r. simpl. rewrite ?take_0.
    repeat split; auto.
  - apply (atoms_sound [a]) in H as (n & Hn & Hin & H).
    rewrite length_drop in Hn. rewrite drop_drop in H.
    apply IH in H as (pos' & caps' & H1 & H2 & Hk & Hin'); [|lia].
    exists pos', caps'. repeat split; auto; try lia.
    simpl. exists (Str.slice pos (pos + n) s0), (Str.slice (pos + n) pos' s0).
    split; [apply slice_split; lia|]. split; [|exact Hin'].
    apply in_atoms_single. unfold Str.slice.
    now replace (pos + n - pos) with n by lia.
  - apply atoms_sound in H as (n & Hn & Hin & H).
    rewrite length_drop in Hn. rewrite drop_drop in H.
    apply IH in H as (pos' & caps' & H1 & H2 & Hk & Hin'); [|lia].
    exists pos', ((pos, pos + n) :: caps'). repeat split; auto; try lia.
    + now rewrite <- List.app_assoc in Hk.
    + simpl. exists (Str.slice pos (pos + n) s0),
               (Str.slice (pos + n) pos' s0), (map (span s0) caps').
      split; [apply slice_split; lia|].
      split; [|split; [reflexivity | exact Hin']].
      unfold Str.slice. now replace (pos + n - pos) with n by lia.
Qed.

Lemma items_complete :
  forall l x caps rest pos caps0
         (k : nat -> list (nat * nat) -> option R),
    in_items l x caps ->
    (forall c, k (pos + String.length x) c <> None) ->
    items R l (x +++ rest) pos caps0 k <> None.
Proof.
  induction l as [|[a|body] l IH]; intros x caps rest pos caps0 k Hin Hk;
    simpl in *.
  - destruct Hin as [-> _]. simpl in Hk. rewrite Nat.add_0_r in Hk.
    apply Hk.
  - destruct Hin as (x1 & x2 & -> & Ha & Hin). rewrite app_assoc.
    apply (atoms_complete [a]); [now apply in_atoms_single|].
    apply (IH _ caps); auto. intros c.
    rewrite <- Nat.add_assoc, <- length_app. apply Hk.
  - destruct Hin as (x1 & x2 & caps' & -> & Ha & -> & Hin).
    rewrite app_assoc.
    apply atoms_complete; [exact Ha|].
    apply (IH _ caps'); auto. intros c.
    rewrite <- Nat.add_assoc, <- length_app. apply Hk.
Qed.
End Rep.

Lemma match_here_sound r s len caps :
  match_here r s = Some (len, caps) ->
  len <= String.length s /\ in_items r (Str.take len s) (map (span s) caps).
Proof.
  unfold match_here. intros H.
  apply (items_sound _ s r 0) in H as (pos' & caps' & _ & Hle & [= <- <-] & Hin);
    [|lia].
  split; [exact Hle|]. unfold Str.slice in Hin.
  now rewrite Nat.sub_0_r in Hin.
Qed.

Lemma match_here_complete r x caps rest :
  in_items r x caps -> match_here r (x +++ rest) <> None.
Proof.
  intros H. unfold match_here.
  apply (items_complete _ r x caps); [exact H | discriminate].
Qed.

Lemma exec_from_eq r s i :
  exec_from r s i =
  match match_here r s with
  | Some (len, caps) =>
      Some (MatchResult i (Str.take len s) (map (span s) caps))
  | None =>
      match s with
      | EmptyString => None
      | String _ s' => exec_from r s' (S i)
      end
  end.
Proof. destruct s; reflexivity. Qed.

(** A match is an occurrence of a text of the language. *)
Lemma exec_from_sound r :
  forall s i m,
    exec_from r s i = Some m ->
    exists pre post,
      s = pre +++ whole m +++ post /\ index m = i + String.length pre
      /\ in_items r (whole m) (groups m).
Proof.
  induction s as [|c s IH]; intros i m H; rewrite exec_from_eq in H.
  - destruct (match_here r EmptyString) as [[len caps]|] eqn:E;
      [|discriminate].
    injection H as <-. apply match_here_sound in E as [Hle Hin].
    exists EmptyString, (Str.drop len EmptyString). simpl.
    split; [now rewrite take_drop|]. split; [lia | exact Hin].
  - destruct (match_here r (String c s)) as [[len caps]|] eqn:E.
    + injection H as <-. apply match_here_sound in E as [Hle Hin].
      exists EmptyString, (Str.drop len (String c s)).
      cbn [whole index groups String.length String.append].
      split; [now rewrite take_drop|]. split; [lia | exact Hin].
    + apply IH in H as (pre & post & -> & Hi & Hin).
      exists (String c pre), post. simpl. split; [reflexivity|].
      split; [lia | exact Hin].
Qed.

(** The search finds a match at or before any occurrence of a text of the
    language. *)
Lemma exec_from_complete r x caps post :
  in_items r x caps ->
  forall pre i,
  exists m,
    exec_from r (pre +++ x +++ post) i = Some m
    /\ i <= index m /\ index m <= i + String.length pre.
Proof.
  intros Hin. induction pre as [|c pre IH]; intros i; rewrite exec_from_eq.
  - simpl. destruct (match_here r (x +++ post)) as [[len caps']|] eqn:E.
    + eexists. split; [reflexivity|]. simpl. lia.
    + now apply (match_here_complete _ _ _ post) in Hin.
  - destruct (match_here r (String c pre +++ x +++ post)) as [[len caps']|].
    + eexists. split; [reflexivity|]. simpl. lia.
    + simpl. destruct (IH (S i)) as (m & -> & H1 & H2).
      exists m. split; [reflexivity|]. simpl. lia.
Qed.

Lemma exec_sound r s m :
  exec r s = Some m ->
  exists pre post,
    s = pre +++ whole m +++ post /\ index m = String.length pre
    /\ in_items r (whole m) (groups m).
Proof. intros H. now apply exec_from_sound in H. Qed.

Lemma exec_complete r x caps pre post :
  in_items r x caps ->
  exists m,
    exec r (pre +++ x +++ post) = Some m /\ index m <= String.length pre.
Proof.
  intros H. destruct (exec_from_complete r x caps post H pre 0)
    as (m & E & _ & Hi).
  now exists m.
Qed.

(** *** The language of a literal *)

Lemma in_atom_chr c x : in_atom (chr c) x <-> x = String c EmptyString.
Proof.
  unfold in_atom, chr; simpl. split.
  - intros (H1 & H2 & H3).
    destruct x as [|y [|z x]]; simpl in *; try lia.
    rewrite andb_true_r in H3. apply Ascii.eqb_eq in H3. now subst.
  - intros ->. simpl. rewrite Ascii.eqb_refl. repeat split; lia.
Qed.

Lemma in_items_lit_app s r x caps :
  in_items (lit s ++ r) x caps <->
  exists x2, x = s +++ x2 /\ in_items r x2 caps.
Proof.
  revert x. induction s as [|c s IH]; intros x.
  - simpl. split; [intros H; now exists x | now intros (x2 & -> & H)].
  - change (lit (String c s) ++ r) with (Plain (chr c) :: (lit s ++ r)).
    cbn [in_items]. split.
    + intros (x1 & x2 & -> & Hc & Hin).
      apply in_atom_chr in Hc as ->. apply IH in Hin as (x3 & -> & Hin).
      now exists x3.
    + intros (x2 & -> & Hin).
      exists (String c EmptyString), (s +++ x2). split; [reflexivity|].
      split; [now apply in_atom_chr|]. apply IH. now exists x2.
Qed.

Lemma in_items_lit s x caps :
  in_items (lit s) x caps <-> x = s /\ caps = [].
Proof.
  rewrite <- (List.app_nil_r (lit s)), in_items_lit_app. simpl. split.
  - intros (x2 & -> & -> & ->). now rewrite app_nil_r.
  - intros [-> ->]. exists EmptyString. now rewrite app_nil_r.
Qed.

End RegexFacts.

(** ** Time labels *)

Module ParseFacts.

Import Regex.
Import StrFacts.
Import RegexSpec.
Import RegexFacts.
Import Fritz.
Import ParseSpec.

Lemma all_impl (p q : ascii -> bool) (s : string) :
  (forall c, p c = true -> q c = true) -> Str.all p s = true -> Str.all q s = true.
Proof.
  intros H. induction s as [|c s IH]; simpl; [reflexivity|].
  intros E. apply andb_true_iff in E as [E1 E2].
  now rewrite (H _ E1), IH.
Qed.

Lemma digit_not (c x : ascii) :
  Num.is_digit x = false -> Num.is_digit c = true ->
  negb (Ascii.eqb c x) = true.
Proof.
  intros Hx Hc. destruct (Ascii.eqb_spec c x) as [->|]; [congruence |
  reflexivity].
Qed.

Lemma decimal_from_nonneg s :
  forall acc, (0 <= acc)%Z -> Str.all Num.is_digit s = true ->
              (0 <= decimal_from acc s)%Z.
Proof.
  induction s as [|c s IH]; intros acc Hacc H; cbn [decimal_from all] in *;
    [exact Hacc|].
  apply andb_true_iff in H as [Hc H]. apply IH; [|exact H].
  unfold Num.is_digit in Hc. apply andb_true_iff in Hc as [H1 H2].
  apply Nat.leb_le in H1. lia.
Qed.

Lemma digits_value_decimal s :
  forall acc, Str.all Num.is_digit s = true ->
              Num.digits_value acc s = Some (decimal_from acc s).
Proof.
  induction s as [|c s IH]; intros acc H;
    cbn [decimal_from Str.all Num.digits_value] in *; [reflexivity|].
  apply andb_true_iff in H as [Hc H]. rewrite Hc. now apply IH.
Qed.

Lemma Number_digits s :
  Str.all Num.is_digit s = true -> Num.Number s = Int (decimal s).
Proof.
  intros H. unfold Num.Number, decimal. now rewrite digits_value_decimal.
Qed.

Lemma split_no_sep c s :
  Str.all (fun x => negb (Ascii.eqb x c)) s = true -> Str.split c s = [s].
Proof.
  induction s as [|x s IH]; simpl; [reflexivity|].
  intros H. apply andb_true_iff in H as [Hx H].
  apply negb_true_iff in Hx. rewrite Hx, (IH H). reflexivity.
Qed.

Lemma split_app c h rest :
  Str.all (fun x => negb (Ascii.eqb x c)) h = true ->
  Str.split c (h +++ String c rest) = h :: Str.split c rest.
Proof.
  induction h as [|x h IH]; simpl.
  - now rewrite Ascii.eqb_refl.
  - intros H. apply andb_true_iff in H as [Hx H].
    apply negb_true_iff in Hx. rewrite Hx, (IH H). reflexivity.
Qed.

Lemma find_sep c h rest :
  Str.all (fun x => negb (Ascii.eqb x c)) h = true ->
  Str.find (String c EmptyString) (h +++ String c rest)
  = Some (String.length h).
Proof.
  induction h as [|x h IH]; simpl.
  - rewrite Ascii.eqb_refl. now destruct rest.
  - intros H. apply andb_true_iff in H as [Hx H].
    apply negb_true_iff in Hx. rewrite Ascii.eqb_sym, Hx. simpl.
    now rewrite (IH H).
Qed.


Lemma hhmm_label n x :
  in_atoms [exactly n digit; chr ":"%char; exactly 2 digit] x -> is_label n x.
Proof.
  simpl. intros (h & r1 & -> & (H1 & H2 & H3) & c & r2 & -> & Hc
                 & m & r3 & -> & (H4 & H5 & H6) & ->).
  apply in_atom_chr in Hc as ->. simpl in *.
  exists h, m. rewrite app_nil_r. repeat split; auto; lia.
Qed.

Lemma parseTime_label n x :
  is_label n x -> parseTime x = Int (hhmm_minutes x) /\ (0 <= hhmm_minutes x)%Z.
Proof.
  intros (h & m & -> & _ & _ & Hh & Hm).
  assert (Nh : Str.all (fun x => negb (Ascii.eqb x ":"%char)) h = true)
    by (eapply all_impl; [|exact Hh]; intros c Hc; now apply digit_not).
  assert (Nm : Str.all (fun x => negb (Ascii.eqb x ":"%char)) m = true)
    by (eapply all_impl; [|exact Hm]; intros c Hc; now apply digit_not).
  unfold parseTime, hhmm_minutes.
  change (h +++ ":" +++ m) with (h +++ String ":"%char m).
  rewrite split_app, split_no_sep, find_sep by assumption.
  rewrite take_app.
  replace (Str.drop (S (String.length h)) (h +++ String ":"%char m)) with m
    by (change (S (String.length h)) with (1 + String.length h);
        rewrite Nat.add_comm, drop_add_app; reflexivity).
  simpl. rewrite !Number_digits by assumption. simpl.
  split; [reflexivity|].
  pose proof (decimal_from_nonneg h 0 ltac:(lia) Hh).
  pose proof (decimal_from_nonneg m 0 ltac:(lia) Hm).
  unfold decimal. lia.
Qed.

Lemma label_no_x n x :
  is_label n x -> Str.all (fun c => negb (Ascii.eqb c "x"%char)) x = true.
Proof.
  intros (h & m & -> & _ & _ & Hh & Hm).
  rewrite !all_app.
  rewrite (all_impl _ _ h (fun c => digit_not c "x"%char eq_refl) Hh).
  rewrite (all_impl _ _ m (fun c => digit_not c "x"%char eq_refl) Hm).
  reflexivity.
Qed.

(** What a match of one of the two time patterns looks like. *)
Lemma time_match n s m :
  exec (lit ("<span title=" +++ Str.dq) ++ [hhmm 2] ++ lit " of "
        ++ [hhmm n] ++ lit (" hours" +++ Str.dq +++ ">")) s = Some m ->
  exists u t,
    groups m = [u; t] /\ is_label 2 u /\ is_label n t
    /\ Str.includes (whole m) "exhausted" = false.
Proof.
  intros H. apply exec_sound in H as (_ & _ & _ & _ & H).
  apply in_items_lit_app in H as (x1 & Hw & H).
  cbn [List.app in_items hhmm] in H.
  destruct H as (u & x2 & caps1 & -> & Hu & Hcaps & H).
  apply in_items_lit_app in H as (x3 & -> & H).
  cbn [List.app in_items hhmm] in H.
  destruct H as (t & x4 & caps2 & -> & Ht & -> & H).
  apply in_items_lit in H as [-> ->].
  apply hhmm_label in Hu, Ht.
  exists u, t. repeat split; auto.
  unfold Str.includes.
  change "exhausted" with ("e" +++ String "x"%char "hausted").
  rewrite (find_absent "x"%char); [reflexivity|].
  rewrite Hw, !all_app, (label_no_x _ _ Hu), (label_no_x _ _ Ht).
  reflexivity.
Qed.

End ParseFacts.

(** ** The parser (C7, C8) *)

Module Parsing.

Import Regex.
Import StrFacts.
Import RegexSpec.
Import RegexFacts.
Import Fritz.
Import ParseSpec.
Import ParseFacts.
Import Scenario.

Lemma is_quantifier_meta q : is_quantifier q = true -> is_meta q = true.
Proof.
  unfold is_quantifier. intros H.
  apply orb_true_iff in H as [H|H]; [apply orb_true_iff in H as [H|H]|];
    apply Ascii.eqb_eq in H; subst q; reflexivity.
Qed.

Lemma compile_plain s :
  plain_text s = true ->
  compile (list_ascii_of_string s) = Some (lit_atoms s).
Proof.
  unfold plain_text, lit_atoms.
  induction (list_ascii_of_string s) as [|c l IH]; [reflexivity|].
  intros H. cbn [forallb] in H. apply andb_true_iff in H as [Hc Hl].
  apply negb_true_iff in Hc. specialize (IH Hl).
  cbn [compile]. rewrite Hc. cbn [andb].
  assert (Ec : Ascii.eqb c "."%char = false).
  { destruct (Ascii.eqb_spec c "."%char) as [->|]; [discriminate Hc | reflexivity]. }
  rewrite Ec.
  destruct l as [|q l']; [reflexivity|].
  assert (Hq : is_quantifier q = false).
  { destruct (is_quantifier q) eqn:E; [|reflexivity].
    apply is_quantifier_meta in E. cbn [forallb] in Hl.
    apply andb_true_iff in Hl as [Hl _]. now rewrite E in Hl. }
  rewrite Hq, IH. reflexivity.
Qed.

Lemma deviceRegex_plain s :
  plain_text s = true ->
  deviceRegex s = Some (lit "<" ++ [Plain (star not_gt)] ++ lit ">" ++ lit s
                        ++ lit "<" ++ [Plain (star not_gt)] ++ lit ">").
Proof. intros H. unfold deviceRegex. now rewrite compile_plain. Qed.

Lemma in_atom_star p x : Str.all p x = true -> in_atom (star p) x.
Proof. intros H. repeat split; simpl; auto; lia. Qed.

(** The element [<a>name<b>] is in the language of the device pattern. *)
Lemma device_element name a b :
  Str.all not_gt a = true -> Str.all not_gt b = true ->
  in_items (lit "<" ++ [Plain (star not_gt)] ++ lit ">" ++ lit name
            ++ lit "<" ++ [Plain (star not_gt)] ++ lit ">")
           ("<" +++ a +++ ">" +++ name +++ "<" +++ b +++ ">") [].
Proof.
  intros Ha Hb.
  apply in_items_lit_app. eexists; split; [reflexivity|].
  cbn [List.app in_items]. exists a. eexists. split; [reflexivity|].
  split; [now apply in_atom_star|].
  apply in_items_lit_app. eexists; split; [reflexivity|].
  apply in_items_lit_app. eexists; split; [reflexivity|].
  apply in_items_lit_app. eexists; split; [reflexivity|].
  cbn [List.app in_items]. exists b. eexists. split; [reflexivity|].
  split; [now apply in_atom_star|].
  now apply in_items_lit.
Qed.

(** When the device is located at or before an exhausted marker, the
    result is the exhausted one, whatever else the page holds. *)
Lemma exhausted_after_device deviceName deviceRe deviceMatch x y :
  deviceRegex deviceName = Some deviceRe ->
  exec deviceRe (x +++ exhausted_marker +++ y) = Some deviceMatch ->
  index deviceMatch <= String.length x ->
  parseParentalControlData (x +++ exhausted_marker +++ y) deviceName
  = Return exhausted_result.
Proof.
  intros Hre Hexec Hidx. unfold parseParentalControlData.
  rewrite Hre, Hexec.
  destruct (exec_sound _ _ _ Hexec) as (pre' & post' & Hs & Hi & _).
  destruct (find_complete (whole deviceMatch) pre' post') as (j & Hj & Hle).
  assert (Hfind : Str.find (whole deviceMatch) (x +++ exhausted_marker +++ y)
                  = Some j) by (rewrite Hs; exact Hj).
  unfold Str.indexOf. rewrite Hfind.
  unfold Str.substring_from. rewrite Nat2Z.id.
  rewrite drop_le_app by lia.
  destruct (exec_complete re_exhausted exhausted_marker [] (Str.drop j x) y)
    as (m & Hm & _); [now apply in_items_lit|].
  rewrite Hm. cbn [scanSpanMatches].
  apply exec_sound in Hm as (_ & _ & _ & _ & Hm).
  apply in_items_lit in Hm as [-> _].
  reflexivity.
Qed.

(** For a device name without pattern characters: a page that holds the
    name as the text of an element, and the exhausted marker anywhere
    after it, gives the exhausted result, whatever [mid] and [post] hold
    (numeric markers included). *)
Lemma exhausted_marker_wins deviceName pre a b mid post :
  plain_text deviceName = true ->
  Str.all not_gt a = true -> Str.all not_gt b = true ->
  parseParentalControlData
    (pre +++ ("<" +++ a +++ ">" +++ deviceName +++ "<" +++ b +++ ">")
     +++ mid +++ exhausted_marker +++ post) deviceName
  = Return exhausted_result.
Proof.
  intros Hname Ha Hb.
  pose proof (deviceRegex_plain _ Hname) as Hre.
  destruct (exec_complete _ _ _ pre (mid +++ exhausted_marker +++ post)
                          (device_element deviceName a b Ha Hb))
    as (dm & Hdm & Hidx).
  set (el := "<" +++ a +++ ">" +++ deviceName +++ "<" +++ b +++ ">") in *.
  assert (E : pre +++ el +++ mid +++ exhausted_marker +++ post
              = (pre +++ el +++ mid) +++ exhausted_marker +++ post)
    by now rewrite !app_assoc.
  rewrite E in Hdm |- *.
  eapply exhausted_after_device; [exact Hre | exact Hdm |].
  rewrite !length_app. lia.
Qed.

(** C8.  When the device is located, no exhausted marker follows it, and
    one of the two time patterns matches (the two-digit total first), the
    result holds the two labels as matched; each label counts for its
    hours times sixty plus its minutes; the remaining minutes are the
    total less the used, and zero when that is negative; and the flag
    [isExhausted] says whether the remaining minutes are at most zero,
    that is, whether the total does not exceed the used. *)
Theorem two_part_marker :
  forall htmlData deviceName deviceRe deviceMatch m,
    deviceRegex deviceName = Some deviceRe ->
    exec deviceRe htmlData = Some deviceMatch ->
    let afterDevice :=
      Str.substring_from htmlData
        (Str.indexOf htmlData (whole deviceMatch)) in
    exec re_exhausted afterDevice = None ->
    (exec re_time2 afterDevice = Some m
     \/ (exec re_time2 afterDevice = None
         /\ exec re_time1 afterDevice = Some m)) ->
    exists used total,
      groups m = [used; total]
      /\ let r := Z.max 0 (hhmm_minutes total - hhmm_minutes used) in
         parseParentalControlData htmlData deviceName
         = Return (mkTimeRemaining used total (Int r) (r <=? 0)%Z)
         /\ (0 <= r)%Z
         /\ ((r <=? 0)%Z = true
             <-> (hhmm_minutes total <= hhmm_minutes used)%Z).
Proof.
  intros htmlData deviceName deviceRe deviceMatch m Hre Hdev afterDevice
         Hex Htime.
  assert (Hm : exists n u t,
             groups m = [u; t] /\ is_label 2 u /\ is_label n t
             /\ Str.includes (whole m) "exhausted" = false).
  { destruct Htime as [H | [_ H]];
      [exists 2 | exists 1]; now apply time_match in H. }
  destruct Hm as (n & u & t & Hg & Hu & Ht & Hinc).
  exists u, t. split; [exact Hg|]. intros r.
  destruct (parseTime_label _ _ Hu) as [Pu Nu].
  destruct (parseTime_label _ _ Ht) as [Pt Nt].
  split; [|split].
  - unfold parseParentalControlData. rewrite Hre, Hdev.
    fold afterDevice. rewrite Hex.
    assert (Hscan :
      scanSpanMatches [exec re_time2 afterDevice; exec re_time1 afterDevice]
      = Return (mkTimeRemaining u t (Int r) (r <=? 0)%Z)).
    { assert (Hone : scanSpanMatches [Some m; exec re_time1 afterDevice]
                     = Return (mkTimeRemaining u t (Int r) (r <=? 0)%Z)
                     /\ scanSpanMatches [None; Some m]
                        = Return (mkTimeRemaining u t (Int r) (r <=? 0)%Z)).
      { cbn [scanSpanMatches]. rewrite Hinc. unfold group. rewrite Hg.
        cbn [nth_error pred]. unfold calculateRemainingMinutes.
        rewrite Pu, Pt. split; reflexivity. }
      destruct Htime as [-> | [-> ->]]; apply Hone. }
    cbn [scanSpanMatches] in Hscan |- *. now rewrite Hscan.
  - subst r. lia.
  - subst r. rewrite Z.leb_le. lia.
Qed.

(** C8, the example of the specification: a page whose marker reads
    [00:04 of 02:10 hours] gives 126 minutes, not exhausted. *)
Lemma two_part_marker_sample :
  parseParentalControlData sample_page "Leos-11"
  = Return (mkTimeRemaining "00:04" "02:10" (Int 126) false).
Proof.
  destruct (two_part_marker sample_page "Leos-11" _ _ _
              eq_refl eq_refl eq_refl (or_introl eq_refl))
    as (u & t & Hg & Hp & _).
  injection Hg as <- <-. exact Hp.
Defined.


(** C7.  The device name goes into the pattern as it is written.  With
    the name [Leo+Max] the page below holds the name as the text of an
    element, followed by the exhausted marker, and yet the device is not
    found: in the pattern, [o+] stands for a run of the letter. *)
Theorem device_name_is_a_pattern :
  Fritz.parseParentalControlData
    ("<td>Leo+Max</td>" +++ Fritz.exhausted_marker) "Leo+Max"
  = Fritz.Raise
      ("Failed to parse parental control data: Device " +++ Str.dq
       +++ "Leo+Max" +++ Str.dq +++ " not found in parental control data").
Proof. vm_compute. reflexivity. Qed.

End Parsing.

(** ** Rules for [triple] *)

Module LogicFacts.

Import DatabaseService.
Import Protocol.

Section Triple.
Variable R : State -> State -> Prop.

Lemma triple_ret {A} (a : A) (Q : A -> Prop) :
  (forall s, R s s) -> Q a -> triple R (ret a) Q.
Proof. intros Hr H st. simpl. auto. Qed.

Lemma triple_throw {A} e (Q : A -> Prop) :
  (forall s, R s s) -> triple R (throw e) Q.
Proof. intros Hr st. simpl. auto. Qed.

Lemma triple_diverge {A} (Q : A -> Prop) : triple R diverge Q.
Proof. intros st. exact I. Qed.

Lemma triple_unmodelled {A} (Q : A -> Prop) : triple R unmodelled Q.
Proof. intros st. exact I. Qed.

Lemma triple_bind {A B} (m : M A) (k : A -> M B) Q Q' :
  (forall a b c, R a b -> R b c -> R a c) ->
  triple R m Q -> (forall a, Q a -> triple R (k a) Q') ->
  triple R (bind m k) Q'.
Proof.
  intros Ht Hm Hk st. unfold bind. specialize (Hm st).
  destruct (m st) as [a s1|e s1| |]; auto.
  destruct Hm as [H1 H2]. specialize (Hk a H2 s1).
  destruct (k a s1) as [b s2|e s2| |]; auto.
  - destruct Hk. split; eauto.
  - eauto.
Qed.

Lemma triple_try_catch {A} (m : M A) h Q :
  (forall a b c, R a b -> R b c -> R a c) ->
  triple R m Q -> (forall e, triple R (h e) Q) -> triple R (try_catch m h) Q.
Proof.
  intros Ht Hm Hh st. unfold try_catch. specialize (Hm st).
  destruct (m st) as [a s1|e s1| |]; auto.
  specialize (Hh e s1).
  destruct (h e s1) as [b s2|e' s2| |]; auto.
  - destruct Hh. split; eauto.
  - eauto.
Qed.

Lemma triple_weaken {A} (m : M A) (Q Q' : A -> Prop) :
  triple R m Q -> (forall a, Q a -> Q' a) -> triple R m Q'.
Proof.
  intros Hm HQ st. specialize (Hm st).
  destruct (m st); auto. destruct Hm. auto.
Qed.

Lemma triple_mono {A} (R' : State -> State -> Prop) (m : M A) Q :
  (forall a b, R a b -> R' a b) -> triple R m Q -> triple R' m Q.
Proof.
  intros HR Hm st. specialize (Hm st).
  destruct (m st); auto. destruct Hm. auto.
Qed.

Lemma triple_for_each {A} (l : list A) (f : A -> M unit) :
  (forall s, R s s) -> (forall a b c, R a b -> R b c -> R a c) ->
  (forall x, In x l -> triple R (f x) (fun _ => True)) ->
  triple R (for_each l f) (fun _ => True).
Proof.
  intros Hr Ht. induction l as [|x l IH]; intros H; simpl.
  - now apply triple_ret.
  - eapply triple_bind; [exact Ht | apply H; now left |].
    intros _ _. apply IH. intros y Hy. apply H. now right.
Qed.
End Triple.

End LogicFacts.

(** ** Consequences of the order of events *)

Module BlockFacts.

Import DatabaseService.
Import Protocol.
Import LogicFacts.

Section Blocks.
Variable A : string -> Z -> string -> Prop.

Lemma blocks_app rows0 a rows1 b rows2 :
  blocks A rows0 a rows1 -> blocks A rows1 b rows2 ->
  blocks A rows0 (b ++ a) rows2.
Proof.
  intros Ha Hb. induction Hb; simpl; try (constructor; assumption).
  exact Ha.
Qed.

Lemma steps_refl st : steps A st st.
Proof. exists []. split; [reflexivity | constructor]. Qed.

Lemma steps_trans a b c : steps A a b -> steps A b c -> steps A a c.
Proof.
  intros (t1 & E1 & B1) (t2 & E2 & B2). exists (t2 ++ t1). split.
  - now rewrite E2, E1, List.app_assoc.
  - eapply blocks_app; eassumption.
Qed.

Lemma blocks_gated rows0 added rows :
  blocks A rows0 added rows -> gated added.
Proof.
  induction 1; simpl; auto. split; [|exact IHblocks]. now eexists.
Qed.

Lemma blocks_sends_gated rows0 added rows :
  blocks A rows0 added rows -> sends_gated added.
Proof.
  induction 1; simpl; auto.
  - split; [|exact IHblocks]. now do 3 eexists.
  - split; [|exact IHblocks]. now do 3 eexists.
Qed.

Lemma blocks_key_sends rows0 added rows mins :
  blocks A rows0 added rows ->
  Forall (fun s => let '(to, body, _, _) := s in A to mins body)
         (key_sends mins added).
Proof.
  induction 1; simpl; auto.
  - rewrite String.eqb_refl, andb_true_r.
    destruct (Z.eqb_spec mins0 mins) as [->|]; [constructor|]; auto.
  - rewrite String.eqb_refl, andb_true_r.
    destruct (Z.eqb_spec mins0 mins) as [->|]; [constructor|]; auto.
Qed.

Lemma count_rows_app rows row phone day mins :
  count_rows (rows ++ [row]) phone day mins
  = count_rows rows phone day mins
    + (if row_matches phone day mins row then 1 else 0).
Proof.
  unfold count_rows. rewrite filter_app, length_app. simpl.
  now destruct (row_matches phone day mins row).
Qed.

(** The rows counted under a key are the rows there were, plus one for
    each successful send under that key. *)
Lemma blocks_count rows0 added rows phone day mins :
  blocks A rows0 added rows ->
  count_rows rows phone day mins
  = count_rows rows0 phone day mins + sends_on phone day mins added.
Proof.
  unfold sends_on. induction 1; simpl; auto.
  - rewrite String.eqb_refl, andb_true_r.
    destruct (mins0 =? mins)%Z; simpl; [|exact IHblocks].
    rewrite andb_false_r. simpl. exact IHblocks.
  - rewrite count_rows_app, IHblocks. unfold row_matches. simpl.
    rewrite String.eqb_refl, andb_true_r.
    destruct (mins0 =? mins)%Z; simpl.
    + rewrite !andb_true_r.
      destruct (phone0 =? phone), (day0 =? day); simpl; lia.
    + rewrite andb_false_r. lia.
Qed.

Lemma blocks_unique rows0 added rows :
  blocks A rows0 added rows ->
  (forall phone day mins, count_rows rows0 phone day mins <= 1) ->
  forall phone day mins, count_rows rows phone day mins <= 1.
Proof.
  intros H H0. induction H; auto.
  intros p d m. rewrite count_rows_app. unfold row_matches. simpl.
  destruct (String.eqb_spec phone p) as [->|]; simpl;
    [|rewrite Nat.add_0_r; apply IHblocks].
  destruct (String.eqb_spec day d) as [->|]; simpl;
    [|rewrite Nat.add_0_r; apply IHblocks].
  destruct (Z.eqb_spec mins m) as [->|]; simpl;
    [|rewrite Nat.add_0_r; apply IHblocks].
  unfold was_sent in H1. apply Nat.ltb_ge in H1. lia.
Qed.

Lemma blocks_inserted rows0 added rows :
  blocks A rows0 added rows -> rows = rows0 ++ inserted added.
Proof.
  induction 1; simpl; auto; [now rewrite List.app_nil_r|].
  now rewrite IHblocks, List.app_assoc.
Qed.

Lemma sends_on_sent phone day mins to body d m row t :
  sends_on phone day mins
           (Insert row :: Sms to body true :: Query to d m false :: t)
  = (if (m =? mins)%Z && (to =? phone) && (d =? day) then 1 else 0)
    + sends_on phone day mins t.
Proof.
  unfold sends_on. simpl. rewrite String.eqb_refl, andb_true_r.
  destruct (m =? mins)%Z; simpl; [|reflexivity].
  rewrite andb_true_r. now destruct (to =? phone), (d =? day).
Qed.

Lemma sends_on_failed phone day mins to body d m t :
  sends_on phone day mins (Sms to body false :: Query to d m false :: t)
  = sends_on phone day mins t.
Proof.
  unfold sends_on. simpl. rewrite String.eqb_refl, andb_true_r.
  destruct (m =? mins)%Z; simpl; [|reflexivity].
  now rewrite andb_false_r.
Qed.

(** Under one key and on one day a number is sent to at most once, and
    not at all when the table already had a row for that key. *)
Lemma blocks_sends_once rows0 added rows phone day mins :
  blocks A rows0 added rows ->
  sends_on phone day mins added <= 1
  /\ (was_sent rows0 phone day mins = true ->
      sends_on phone day mins added = 0).
Proof.
  induction 1 as [|? ? ? ? IH|? ? ? ? ? IH|? ? ? ? ? ? IH
                  |t rows p d m b H IH W Al|t rows p d m b at_ H IH W Al];
    try exact IH.
  - split; [unfold sends_on; simpl; lia | reflexivity].
  - now rewrite sends_on_failed.
  - rewrite sends_on_sent.
    destruct ((m =? mins)%Z && (p =? phone) && (d =? day)) eqn:K;
      [|exact IH].
    apply andb_true_iff in K as [K Kd]. apply andb_true_iff in K as [Km Kp].
    apply Z.eqb_eq in Km. apply String.eqb_eq in Kp, Kd. subst m p d.
    pose proof (blocks_count _ _ _ phone day mins H) as C.
    unfold was_sent in *. apply Nat.ltb_ge in W.
    split; [lia|]. intros W0. apply Nat.ltb_lt in W0. lia.
Qed.
End Blocks.

Lemma sms_of_connectivity config rows0 added rows :
  blocks (connectivity_only config) rows0 added rows ->
  sms_of added = rev (map fst (key_sends (-1) added))
  /\ forall to body ok,
      In (to, body, ok) (sms_of added) ->
      is_admin config to /\ body = AlertManager.connection_error_message.
Proof.
  induction 1 as [|? ? ? ? IH|? ? ? ? ? IH|? ? ? ? ? ? IH
                    |t rows p d m b H IH W Al|t rows p d m b at_ H IH W Al];
    simpl; try exact IH.
  - split; [reflexivity | contradiction].
  - destruct Al as (-> & Had & ->). destruct IH as [IH1 IH2].
    rewrite String.eqb_refl. simpl. split; [now rewrite IH1|].
    intros to body ok Hin. apply in_app_or in Hin as [Hin|[[= <- <- <-]|[]]];
      [now apply (IH2 _ _ ok) | now split].
  - destruct Al as (-> & Had & ->). destruct IH as [IH1 IH2].
    rewrite String.eqb_refl. simpl. split; [now rewrite IH1|].
    intros to body ok Hin. apply in_app_or in Hin as [Hin|[[= <- <- <-]|[]]];
      [now apply (IH2 _ _ ok) | now split].
Qed.

Lemma blocks_mono (A B : string -> Z -> string -> Prop) rows0 added rows :
  (forall p m b, A p m b -> B p m b) ->
  blocks A rows0 added rows -> blocks B rows0 added rows.
Proof. intros H. induction 1; constructor; auto. Qed.

End BlockFacts.

(** ** The loop over the thresholds *)

Module SelectFacts.

Import DatabaseService.
Import AlertManager.
Import Protocol.
Import LogicFacts.
Import BlockFacts.
Import SelectSpec.

Lemma In_insert_desc x y l : In x (insert_desc y l) <-> x = y \/ In x l.
Proof.
  induction l as [|z l IH]; simpl.
  - intuition.
  - destruct (minutes z <=? minutes y)%Z; simpl; [intuition|].
    rewrite IH. intuition.
Qed.

Lemma In_sort_desc x l : In x (sort_desc l) <-> In x l.
Proof.
  induction l as [|y l IH]; simpl; [reflexivity|].
  rewrite In_insert_desc, IH. intuition.
Qed.

Lemma insert_desc_sorted y l :
  StronglySorted descending l -> StronglySorted descending (insert_desc y l).
Proof.
  induction 1 as [|z l Hl IH Hz]; simpl.
  - repeat constructor.
  - destruct (Z.leb_spec (minutes z) (minutes y)).
    + constructor; [constructor; assumption|].
      constructor; [assumption|].
      eapply Forall_impl; [|exact Hz]. unfold descending. intros; lia.
    + constructor; [exact IH|].
      apply Forall_forall. intros x Hx. apply In_insert_desc in Hx as [->|Hx].
      * unfold descending; lia.
      * rewrite Forall_forall in Hz. auto.
Qed.

Lemma sort_desc_sorted l : StronglySorted descending (sort_desc l).
Proof.
  induction l; simpl; [constructor | now apply insert_desc_sorted].
Qed.

(** In a descending list the first rule that satisfies a test has the
    greatest threshold among those that satisfy it. *)
Lemma find_greatest (p : MessageConfig -> bool) l x :
  StronglySorted descending l -> find p l = Some x ->
  forall y, In y l -> p y = true -> (minutes y <= minutes x)%Z.
Proof.
  induction 1 as [|z l Hl IH Hz]; simpl; [discriminate|].
  destruct (p z) eqn:Pz.
  - intros [= <-] y [<-|Hy] _; [lia|].
    rewrite Forall_forall in Hz. now apply Hz.
  - intros Hf y [<-|Hy] Py; [congruence|]. now apply IH.
Qed.

(** The loop of [processAlertsForNumber] computes [select], asks the table
    once for each threshold that it tries, and changes nothing else. *)
Lemma scan_spec A phone today remaining :
  forall l st,
  exists qs,
    scanThresholds phone today remaining l st
    = Ret (select (alert_logs st) phone today remaining l)
          (with_trace st (qs ++ trace st))
    /\ blocks A (alert_logs st) qs (alert_logs st)
    /\ sms_of qs = []
    /\ forall body m,
        select (alert_logs st) phone today remaining l = Some (body, m) ->
        exists qs',
          qs = Query phone today m false :: qs'
          /\ blocks A (alert_logs st) qs' (alert_logs st)
          /\ was_sent (alert_logs st) phone today m = false.
Proof.
  induction l as [|rule l IH]; intros st.
  - exists []. unfold select. simpl. destruct st. repeat split; try constructor.
    discriminate.
  - unfold select. cbn [scanThresholds find]. unfold eligible at 1 3.
    destruct (Num.leb remaining (Int (minutes rule))) eqn:Hle.
    + unfold bind, wasAlertSentForMinutes, get_state, emit, ret.
      cbn [alert_logs sessionId system_logs clock_reads trace andb].
      destruct (was_sent (alert_logs st) phone today (minutes rule)) eqn:Hs;
        cbn [negb].
      * destruct (IH (mkState (sessionId st) (alert_logs st) (system_logs st)
                        (clock_reads st)
                        (Query phone today (minutes rule) true :: trace st)))
          as (qs & E & B & S & Hsel).
        cbn [alert_logs sessionId system_logs clock_reads trace] in *.
        exists (qs ++ [Query phone today (minutes rule) true]).
        rewrite <- List.app_assoc. simpl. rewrite Hs. cbn [negb].
        split; [exact E|].
        split.
        { eapply blocks_app; [|exact B]. rewrite <- Hs. repeat constructor. }
        split.
        { clear - S. induction qs as [|[] qs IHq]; simpl in *; auto.
          destruct (sms_of qs); discriminate. }
        intros body m Hbm. destruct (Hsel body m Hbm) as (qs' & -> & B' & W).
        exists (qs' ++ [Query phone today (minutes rule) true]).
        repeat split; auto.
        eapply blocks_app; [|exact B']. rewrite <- Hs. repeat constructor.
      * exists [Query phone today (minutes rule) false]. simpl.
        rewrite Hs. cbn [negb].
        split; [reflexivity|]. split.
        { rewrite <- Hs. repeat constructor. }
        split; [reflexivity|].
        intros body m [= <- <-]. exists []. repeat split; auto. constructor.
    + cbn [andb]. apply IH.
Qed.

End SelectFacts.

(** ** The router client and the alert manager, step by step *)

Module RunFacts.

Import DatabaseService.
Import SmsService.
Import AlertManager.
Import Protocol.
Import LogicFacts.
Import BlockFacts.
Import SelectSpec.
Import SelectFacts.
Import RunSpec.

Lemma process_run A w numberConfig timeRemaining today st :
  exists qs,
    processAlertsForNumber w numberConfig timeRemaining today st
    = Ret tt
        (process_result w numberConfig today st qs
           (select (alert_logs st) (number numberConfig) today
                   (remainingMinutes timeRemaining)
                   (sort_desc (MessageWhenRemainingMins numberConfig))))
    /\ scanThresholds (number numberConfig) today
         (remainingMinutes timeRemaining)
         (sort_desc (MessageWhenRemainingMins numberConfig)) st
       = Ret (select (alert_logs st) (number numberConfig) today
                     (remainingMinutes timeRemaining)
                     (sort_desc (MessageWhenRemainingMins numberConfig)))
             (with_trace st (qs ++ trace st))
    /\ blocks A (alert_logs st) qs (alert_logs st)
    /\ sms_of qs = []
    /\ forall body m,
        select (alert_logs st) (number numberConfig) today
               (remainingMinutes timeRemaining)
               (sort_desc (MessageWhenRemainingMins numberConfig))
        = Some (body, m) ->
        exists qs',
          qs = Query (number numberConfig) today m false :: qs'
          /\ blocks A (alert_logs st) qs' (alert_logs st)
          /\ was_sent (alert_logs st) (number numberConfig) today m = false.
Proof.
  destruct (scan_spec A (number numberConfig) today
              (remainingMinutes timeRemaining)
              (sort_desc (MessageWhenRemainingMins numberConfig)) st)
    as (qs & E & B & S & Hsel).
  exists qs. split; [|now repeat split].
  unfold processAlertsForNumber, bind. rewrite E.
  unfold process_result.
  destruct (select _ _ _ _ _) as [[body m]|]; [|reflexivity].
  destruct (Str.truthy body); [|reflexivity].
  unfold sendSms, bind, get_state, emit, ret, newDateISO, logAlert, logSystem.
  cbn [trace with_trace alert_logs sessionId system_logs clock_reads].
  destruct (twilio_create w _ _ _); reflexivity.
Qed.

Lemma alertAdmin_run w today admin st :
  alertAdmin w today admin st = Ret tt (alertAdmin_result w today admin st).
Proof.
  unfold alertAdmin, alertAdmin_result, wasAlertSentForMinutes, sendSms, bind,
    get_state, emit, ret, newDateISO, logAlert.
  cbn [trace with_trace alert_logs sessionId system_logs clock_reads].
  destruct (was_sent (alert_logs st) (number admin) today (-1)); cbn [negb];
    [reflexivity|].
  cbn [trace with_trace alert_logs sessionId system_logs clock_reads].
  destruct (twilio_create w _ _ _); reflexivity.
Qed.

Lemma fetches_refl st : fetches st st.
Proof. exists []. repeat split; constructor. Qed.

Lemma fetches_trans a b c : fetches a b -> fetches b c -> fetches a c.
Proof.
  intros (t1 & E1 & F1 & A1 & S1 & C1) (t2 & E2 & F2 & A2 & S2 & C2).
  exists (t2 ++ t1). repeat split; try congruence.
  - now rewrite E2, E1, List.app_assoc.
  - apply Forall_app. now split.
Qed.

Lemma fetches_steps A st st' : fetches st st' -> steps A st st'.
Proof.
  intros (added & E & F & Ha & _ & _). exists added. split; [exact E|].
  rewrite Ha. clear E. induction added as [|e added IH]; [constructor|].
  inversion F as [|? ? He F']; subst.
  destruct e; try contradiction; constructor; auto.
Qed.

Section Fetches.
Lemma fetch_bind {X Y} (m : M X) (k : X -> M Y) Q Q' :
  triple fetches m Q -> (forall a, Q a -> triple fetches (k a) Q') ->
  triple fetches (bind m k) Q'.
Proof. apply triple_bind. exact fetches_trans. Qed.

Lemma fetch_try_catch {X} (m : M X) h Q :
  triple fetches m Q -> (forall e, triple fetches (h e) Q) ->
  triple fetches (try_catch m h) Q.
Proof. apply triple_try_catch. exact fetches_trans. Qed.

Lemma fetch_ret {X} (a : X) (Q : X -> Prop) :
  Q a -> triple fetches (ret a) Q.
Proof. apply triple_ret. exact fetches_refl. Qed.

Lemma fetch_throw {X} e (Q : X -> Prop) : triple fetches (throw e) Q.
Proof. apply triple_throw. exact fetches_refl. Qed.

Lemma fetch_same st st' :
  trace st' = trace st -> alert_logs st' = alert_logs st ->
  system_logs st' = system_logs st -> clock_reads st' = clock_reads st ->
  fetches st st'.
Proof. intros. exists []. repeat split; auto. Qed.

Lemma fetch_get_state : triple fetches get_state (fun _ => True).
Proof. intros st. simpl. split; [now apply fetch_same | exact I]. Qed.

Lemma fetch_set_sessionId sid :
  triple fetches (set_sessionId sid) (fun _ => True).
Proof. intros st. simpl. split; [now apply fetch_same | exact I]. Qed.

Lemma fetch_axios_get path answer :
  triple fetches (Fritz.axios_get path answer) (fun _ => True).
Proof.
  intros st. unfold Fritz.axios_get, bind, get_state, emit. simpl.
  destruct (answer _); simpl; [split; [|exact I]|];
    exists [HttpGet path]; repeat split; repeat constructor.
Qed.

Lemma fetch_axios_post path body answer :
  triple fetches (Fritz.axios_post path body answer) (fun _ => True).
Proof.
  intros st. unfold Fritz.axios_post, bind, get_state, emit. simpl.
  destruct (answer _ _); simpl; [split; [|exact I]|];
    exists [HttpPost path body]; repeat split; repeat constructor.
Qed.

Lemma fetch_testConnection w :
  triple fetches (Fritz.testConnection w) (fun _ => True).
Proof.
  intros st. unfold Fritz.testConnection, bind, get_state, emit. simpl.
  split; [|exact I].
  exists [HttpGet "/"]. repeat split; repeat constructor.
Qed.

Lemma fetch_getSessionId w fc :
  triple fetches (Fritz.getSessionId w fc) (fun _ => True).
Proof.
  unfold Fritz.getSessionId.
  apply fetch_try_catch; [|intros e; apply fetch_throw].
  eapply fetch_bind; [apply fetch_axios_get | intros body _].
  destruct (Regex.exec _ _); [|apply fetch_throw].
  destruct (Regex.group _ _); [|apply triple_unmodelled].
  eapply fetch_bind; [apply fetch_axios_post | intros data _].
  destruct (Regex.exec _ _); [|apply fetch_throw].
  destruct (Regex.group _ _); [|apply triple_unmodelled].
  destruct (_ =? _); [apply fetch_throw|].
  eapply fetch_bind; [apply fetch_set_sessionId | intros _ _].
  now apply fetch_ret.
Qed.

Lemma scan_nonneg l tr :
  Fritz.scanSpanMatches l = Fritz.Return tr -> nonneg (remainingMinutes tr).
Proof.
  induction l as [|[m|] l IH]; simpl; try discriminate; [|exact IH].
  destruct (Str.includes _ _); [intros [= <-]; simpl; lia|].
  destruct (Regex.group 1 m); [|discriminate].
  destruct (Regex.group 2 m); [|discriminate].
  intros [= <-]. simpl. unfold Fritz.calculateRemainingMinutes.
  destruct (Num.sub _ _); simpl; [lia | exact I].
Qed.

(** A parsed remaining time is never negative. *)
Lemma parse_nonneg html name tr :
  Fritz.parseParentalControlData html name = Fritz.Return tr ->
  nonneg (remainingMinutes tr).
Proof.
  unfold Fritz.parseParentalControlData.
  destruct (Fritz.deviceRegex name); [|discriminate].
  destruct (Regex.exec _ html); [|discriminate].
  destruct (Fritz.scanSpanMatches _) eqn:E; try discriminate.
  intros [= <-]. now apply scan_nonneg in E.
Qed.

Lemma fetch_getParentalControlData w fc name :
  forall fuel,
    triple fetches (Fritz.getParentalControlData fuel w fc name)
           (fun tr => nonneg (remainingMinutes tr)).
Proof.
  induction fuel as [|fuel IH]; [apply triple_diverge|].
  cbn [Fritz.getParentalControlData].
  apply fetch_try_catch.
  - eapply fetch_bind; [apply fetch_get_state | intros s0 _].
    eapply (fetch_bind _ _ (fun _ => True)).
    { destruct (Fritz.no_session _); [|now apply fetch_ret].
      eapply fetch_bind; [apply fetch_getSessionId | intros sid _].
      now apply fetch_ret. }
    intros _ _.
    eapply fetch_bind; [apply fetch_get_state | intros s1 _].
    eapply fetch_bind; [apply fetch_axios_post | intros data _].
    destruct (Fritz.parseParentalControlData data name) eqn:E; simpl.
    + apply fetch_ret. now apply parse_nonneg in E.
    + apply fetch_throw.
    + apply triple_unmodelled.
  - intros e. destruct (Str.includes e "session"); [|apply fetch_throw].
    eapply fetch_bind; [apply fetch_set_sessionId | intros _ _].
    eapply fetch_bind; [apply fetch_getSessionId | intros _ _].
    exact IH.
Qed.
End Fetches.

Section Steps.
Variable A : string -> Z -> string -> Prop.

Lemma steps_same st st' :
  trace st' = trace st -> alert_logs st' = alert_logs st -> steps A st st'.
Proof.
  intros Ht Hr. exists []. split; [exact Ht|]. rewrite Hr. constructor.
Qed.

Lemma steps_added st st' added :
  trace st' = added ++ trace st ->
  blocks A (alert_logs st) added (alert_logs st') -> steps A st st'.
Proof. intros. now exists added. Qed.

Lemma steps_bind {X Y} (m : M X) (k : X -> M Y) Q Q' :
  triple (steps A) m Q -> (forall a, Q a -> triple (steps A) (k a) Q') ->
  triple (steps A) (bind m k) Q'.
Proof. apply triple_bind. exact (steps_trans A). Qed.

Lemma steps_try_catch {X} (m : M X) h Q :
  triple (steps A) m Q -> (forall e, triple (steps A) (h e) Q) ->
  triple (steps A) (try_catch m h) Q.
Proof. apply triple_try_catch. exact (steps_trans A). Qed.

Lemma steps_ret {X} (a : X) (Q : X -> Prop) :
  Q a -> triple (steps A) (ret a) Q.
Proof. apply triple_ret. exact (steps_refl A). Qed.

Lemma steps_throw {X} e (Q : X -> Prop) : triple (steps A) (throw e) Q.
Proof. apply triple_throw. exact (steps_refl A). Qed.

Lemma steps_for_each {X} (l : list X) (f : X -> M unit) :
  (forall x, In x l -> triple (steps A) (f x) (fun _ => True)) ->
  triple (steps A) (for_each l f) (fun _ => True).
Proof.
  apply triple_for_each; [exact (steps_refl A) | exact (steps_trans A)].
Qed.

Lemma triple_logSystem l : triple (steps A) (logSystem l) (fun _ => True).
Proof. intros st. simpl. split; [now apply steps_same | exact I]. Qed.

Lemma triple_newDateISO w : triple (steps A) (newDateISO w) (fun _ => True).
Proof. intros st. simpl. split; [now apply steps_same | exact I]. Qed.

Lemma triple_testConnection w :
  triple (steps A) (Fritz.testConnection w) (fun _ => True).
Proof.
  eapply triple_mono; [|apply fetch_testConnection]. apply fetches_steps.
Qed.

Lemma triple_getParentalControlData w fc name fuel :
  triple (steps A) (Fritz.getParentalControlData fuel w fc name)
         (fun tr => nonneg (remainingMinutes tr)).
Proof.
  eapply triple_mono; [|apply fetch_getParentalControlData].
  apply fetches_steps.
Qed.
End Steps.

End RunFacts.

(** ** A whole check *)

Module ManagerFacts.

Import DatabaseService.
Import SmsService.
Import AlertManager.
Import Protocol.
Import LogicFacts.
Import BlockFacts.
Import SelectSpec.
Import SelectFacts.
Import RunSpec.
Import RunFacts.

Lemma select_some rows phone today remaining l body m :
  select rows phone today remaining l = Some (body, m) ->
  exists rule,
    In rule l /\ message rule = body /\ minutes rule = m
    /\ Num.leb remaining (Int m) = true
    /\ was_sent rows phone today m = false.
Proof.
  unfold select.
  destruct (find _ l) as [rule|] eqn:F; [|discriminate].
  intros [= <- <-]. apply find_some in F as [Hin He].
  unfold eligible in He. apply andb_true_iff in He as [H1 H2].
  apply negb_true_iff in H2. now exists rule.
Qed.

Lemma select_none rows phone today remaining l :
  select rows phone today remaining l = None ->
  forall rule, In rule l -> Num.leb remaining (Int (minutes rule)) = true ->
               was_sent rows phone today (minutes rule) = true.
Proof.
  unfold select.
  destruct (find _ l) as [rule|] eqn:F; [discriminate|].
  intros _ rule Hin Hle. apply (find_none _ _ F) in Hin.
  unfold eligible in Hin. rewrite Hle in Hin. simpl in Hin.
  now apply negb_false_iff in Hin.
Qed.

Section Manager.
Variable config : Config.

Lemma triple_process w numberConfig timeRemaining today :
  nonneg (remainingMinutes timeRemaining) ->
  triple (steps (allowed config))
         (processAlertsForNumber w numberConfig timeRemaining today)
         (fun _ => True).
Proof.
  intros Hn st.
  destruct (process_run (allowed config) w numberConfig timeRemaining today
                        st) as (qs & E & _ & B & _ & Hsel).
  rewrite E. split; [|exact I]. unfold process_result.
  destruct (select _ _ _ _ _) as [[body m]|] eqn:Sel;
    [|now apply (steps_added _ _ _ qs)].
  destruct (Hsel body m eq_refl) as (qs' & -> & B' & W).
  assert (Al : allowed config (number numberConfig) m body).
  { intros ->. apply select_some in Sel as (_ & _ & _ & _ & Hle & _).
    destruct (remainingMinutes timeRemaining); simpl in *;
      [apply Z.leb_le in Hle; lia | discriminate]. }
  destruct (Str.truthy body);
    [|now apply (steps_added _ _ _
                   (Query (number numberConfig) today m false :: qs'))].
  destruct (twilio_create w _ _ _).
  - apply (steps_added _ _ _
             (Insert (mkAlertLog (number numberConfig) body m
                                 (clock w (clock_reads st)) today)
              :: Sms (number numberConfig) body true
              :: Query (number numberConfig) today m false :: qs'));
      [reflexivity|].
    now apply blocks_sent.
  - apply (steps_added _ _ _
             (Sms (number numberConfig) body false
              :: Query (number numberConfig) today m false :: qs'));
      [reflexivity|].
    now apply blocks_failed.
Qed.

Lemma alertAdmin_steps w today admin st :
  In admin (NumbersToSMS config) -> isAdmin admin = true ->
  steps (connectivity_only config) st (alertAdmin_result w today admin st).
Proof.
  intros Hin Had.
  assert (Al : connectivity_only config (number admin) (-1)
                                 connection_error_message).
  { split; [reflexivity|]. split; [now exists admin | reflexivity]. }
  unfold alertAdmin_result.
  destruct (was_sent (alert_logs st) (number admin) today (-1)) eqn:W.
  - apply (steps_added _ _ _ [Query (number admin) today (-1) true]);
      [reflexivity|].
    rewrite <- W. repeat constructor.
  - destruct (twilio_create w _ _ _).
    + apply (steps_added _ _ _
               [Insert (mkAlertLog (number admin) connection_error_message
                                   (-1) (clock w (clock_reads st)) today);
                Sms (number admin) connection_error_message true;
                Query (number admin) today (-1) false]); [reflexivity|].
      apply blocks_sent; auto. constructor.
    + apply (steps_added _ _ _
               [Sms (number admin) connection_error_message false;
                Query (number admin) today (-1) false]); [reflexivity|].
      apply blocks_failed; auto. constructor.
Qed.

Lemma admins_run w today :
  forall l st,
    (forall a, In a l -> In a (NumbersToSMS config) /\ isAdmin a = true) ->
    exists st',
      for_each l (alertAdmin w today) st = Ret tt st'
      /\ steps (connectivity_only config) st st'.
Proof.
  induction l as [|a l IH]; intros st H.
  - exists st. split; [reflexivity | apply steps_refl].
  - cbn [for_each]. unfold bind. rewrite alertAdmin_run.
    destruct (IH (alertAdmin_result w today a st)) as (st' & E & S);
      [intros b Hb; apply H; now right|].
    exists st'. split; [exact E|].
    eapply steps_trans; [|exact S].
    destruct (H a (or_introl eq_refl)). now apply alertAdmin_steps.
Qed.

(** [handleFritzConnectionError] always completes, and all that it sends
    it sends under the key [-1]. *)
Lemma handle_run w st :
  exists st',
    handleFritzConnectionError w config st = Ret tt st'
    /\ steps (connectivity_only config) st st'.
Proof.
  unfold handleFritzConnectionError, bind, newDateISO.
  destruct (admins_run w (day_of (clock w (clock_reads st)))
              (filter isAdmin (NumbersToSMS config))
              (mkState (sessionId st) (alert_logs st) (system_logs st)
                       (S (clock_reads st)) (trace st)))
    as (st' & E & S); [intros a Ha; now apply filter_In in Ha|].
  rewrite E. eexists. split; [reflexivity|].
  destruct S as (added & Ht & Hb). exists added. split; assumption.
Qed.

Lemma connectivity_allowed p m b :
  connectivity_only config p m b -> allowed config p m b.
Proof. intros (_ & H1 & H2) _. now split. Qed.

Lemma triple_handle w :
  triple (steps (allowed config)) (handleFritzConnectionError w config)
         (fun _ => True).
Proof.
  intros st. destruct (handle_run w st) as (st' & -> & added & Ht & Hb).
  split; [|exact I]. exists added. split; [exact Ht|].
  eapply blocks_mono; [|exact Hb]. apply connectivity_allowed.
Qed.

Lemma triple_checkAndAlert fuel w fc :
  triple (steps (allowed config)) (checkAndAlert fuel w fc config)
         (fun _ => True).
Proof.
  unfold checkAndAlert.
  eapply steps_bind; [apply triple_newDateISO | intros now_ _].
  apply steps_try_catch.
  - eapply steps_bind; [apply triple_logSystem | intros _ _].
    eapply steps_bind; [apply triple_testConnection | intros ok _].
    destruct ok; simpl; [|apply triple_handle].
    eapply steps_bind;
      [apply triple_getParentalControlData | intros tr Htr].
    eapply steps_bind; [apply triple_logSystem | intros _ _].
    apply steps_for_each. intros nc _. now apply triple_process.
  - intros e.
    eapply steps_bind; [apply triple_logSystem | intros _ _].
    apply triple_handle.
Qed.

Lemma history_steps fc st0 st :
  history fc config st0 st -> steps (allowed config) st0 st.
Proof.
  induction 1 as [|fuel w st st' H IH E]; [apply steps_refl|].
  pose proof (triple_checkAndAlert fuel w fc st) as T. rewrite E in T.
  destruct T as [T _]. eapply steps_trans; eassumption.
Qed.
End Manager.


Lemma try_catch_no_throw {A} (m : M A) h st e st' :
  (forall e0 s, exists a s', h e0 s = Ret a s') ->
  try_catch m h st <> Throw e st'.
Proof.
  intros H. unfold try_catch.
  destruct (m st) as [a s|e0 s| |]; try discriminate.
  destruct (H e0 s) as (a & s' & ->). discriminate.
Qed.

(** [checkAndAlert] never lets an exception out. *)
Lemma checkAndAlert_never_throws fuel w fc config st e st' :
  checkAndAlert fuel w fc config st <> Throw e st'.
Proof.
  unfold checkAndAlert, bind at 1, newDateISO at 1.
  apply try_catch_no_throw. intros e0 s.
  unfold bind, logSystem.
  match goal with
  | |- context [handleFritzConnectionError w config ?s1] =>
      destruct (handle_run config w s1) as (s2 & -> & _)
  end.
  now exists tt, s2.
Qed.

Lemma admins_keep_logs w today :
  forall l st st',
    for_each l (alertAdmin w today) st = Ret tt st' ->
    system_logs st' = system_logs st.
Proof.
  induction l as [|a l IH]; intros st st'; cbn [for_each].
  - now intros [= <-].
  - unfold bind. rewrite alertAdmin_run. intros H. apply IH in H.
    rewrite H. unfold alertAdmin_result.
    destruct (was_sent _ _ _ _); [reflexivity|].
    destruct (twilio_create _ _ _ _); reflexivity.
Qed.

(** When the fetch of the usage data ends in an exception, the check logs
    it and runs the connectivity path, and nothing else. *)
Lemma failure_routes_to_connectivity fuel w fc config st e s2 :
  let now_ := clock w (clock_reads st) in
  let s1 :=
    mkState (sessionId st) (alert_logs st)
            (system_logs st
             ++ [mkSystemLog "check_start" "Starting network time check"
                             now_ "info"])
            (S (clock_reads st)) (HttpGet "/" :: trace st) in
  get_root w (List.length (trace st)) = Some 200 ->
  Fritz.getParentalControlData fuel w fc (fritz_device_name config) s1
  = Throw e s2 ->
  exists st',
    checkAndAlert fuel w fc config st = Ret tt st'
    /\ steps (connectivity_only config) st st'
    /\ map event (system_logs st')
       = map event (system_logs st)
         ++ ["check_start"; "check_error"; "fritz_connection_error"].
Proof.
  intros now_ s1 Hroot Hthrow.
  pose proof (fetch_getParentalControlData w fc (fritz_device_name config)
                                           fuel s1) as F.
  rewrite Hthrow in F.
  set (s3 := mkState (sessionId s2) (alert_logs s2)
               (system_logs s2
                ++ [mkSystemLog "check_error" ("Error during check: " +++ e)
                                now_ "error"])
               (clock_reads s2) (trace s2)).
  destruct (handle_run config w s3) as (st' & E & Hst).
  exists st'. split; [|split].
  - unfold checkAndAlert, bind at 1, newDateISO at 1, try_catch.
    unfold bind at 1, logSystem at 1.
    unfold bind at 1, Fritz.testConnection at 1.
    unfold bind at 1 2 3, get_state, emit, ret.
    cbn [trace sessionId alert_logs system_logs clock_reads].
    rewrite Hroot. cbn [Nat.eqb negb].
    unfold bind at 1. fold now_. fold s1. rewrite Hthrow.
    unfold bind, logSystem. fold s3. exact E.
  - apply (steps_trans _ st s1);
      [apply (steps_added _ _ _ [HttpGet "/"]); [reflexivity | repeat constructor]|].
    apply (steps_trans _ s1 s2); [now apply fetches_steps|].
    apply (steps_trans _ s2 s3); [now apply steps_same | exact Hst].
  - destruct F as (_ & _ & _ & _ & Hs2 & _).
    revert E. unfold handleFritzConnectionError, bind, newDateISO.
    destruct (admins_run config w (day_of (clock w (clock_reads s3)))
                (filter isAdmin (NumbersToSMS config))
                (mkState (sessionId s3) (alert_logs s3) (system_logs s3)
                         (S (clock_reads s3)) (trace s3)))
      as (s4 & E4 & _); [intros a Ha; now apply filter_In in Ha|].
    assert (L4 : system_logs s4 = system_logs s3)
      by (now apply admins_keep_logs in E4).
    rewrite E4. unfold logSystem. intros [= <-].
    cbn [system_logs]. rewrite L4. unfold s3. cbn [system_logs].
    rewrite Hs2. unfold s1. cbn [system_logs].
    rewrite !map_app. cbn [map event]. now rewrite <- !List.app_assoc.
Qed.

End ManagerFacts.

(** ** The threshold decision (C1, C6) *)

Module Decisions.

Import DatabaseService.
Import SmsService.
Import AlertManager.
Import Protocol.
Import LogicFacts.
Import BlockFacts.
Import SelectSpec.
Import SelectFacts.
Import RunSpec.
Import RunFacts.
Import ManagerFacts.
Import Scenario.

(** C1.  For every remaining time [r] and every list of rules of a
    number, the loop over the rules sorted by decreasing threshold leaves
    the table as it is and selects
    - a rule of the list whose threshold is at least [r] and for which the
      dedup query answers [false], and no such rule has a greater
      threshold;
    - or nothing, and then the dedup query answers [true] for every rule
      whose threshold is at least [r].
    [processAlertsForNumber] completes and sends at most one text, which
    goes to the number and is the text of the selected rule. *)
Theorem threshold_selection :
  forall w numberConfig used_ total_ r exhausted_ today st,
    let phone := number numberConfig in
    let rules := MessageWhenRemainingMins numberConfig in
    let timeRemaining := mkTimeRemaining used_ total_ (Int r) exhausted_ in
    exists found st1 st2,
      scanThresholds phone today (Int r) (sort_desc rules) st = Ret found st1
      /\ alert_logs st1 = alert_logs st
      /\ match found with
         | Some (body, m) =>
             (exists rule,
                In rule rules /\ message rule = body /\ minutes rule = m)
             /\ (r <= m)%Z
             /\ was_sent (alert_logs st) phone today m = false
             /\ forall rule',
                 In rule' rules -> (r <= minutes rule')%Z ->
                 was_sent (alert_logs st) phone today (minutes rule') = false ->
                 (minutes rule' <= m)%Z
         | None =>
             forall rule',
               In rule' rules -> (r <= minutes rule')%Z ->
               was_sent (alert_logs st) phone today (minutes rule') = true
         end
      /\ processAlertsForNumber w numberConfig timeRemaining today st
         = Ret tt st2
      /\ exists added,
          trace st2 = added ++ trace st
          /\ List.length (sms_of added) <= 1
          /\ forall to body ok,
              In (to, body, ok) (sms_of added) ->
              to = phone /\ exists m, found = Some (body, m).
Proof.
  intros w nc u t r e today st phone rules tr.
  destruct (process_run (fun _ _ _ => True) w nc tr today st)
    as (qs & E & Sc & _ & Sq & _).
  cbn [remainingMinutes tr] in *. fold phone rules in E, Sc.
  set (found := select (alert_logs st) phone today (Int r) (sort_desc rules))
    in *.
  exists found, (with_trace st (qs ++ trace st)),
    (process_result w nc today st qs found).
  split; [exact Sc|]. split; [reflexivity|]. split; [|split; [exact E|]].
  - destruct found as [[body m]|] eqn:F; subst found.
    + pose proof F as F'.
      apply select_some in F' as (rule & Hin & Hb & Hm & Hle & Hw).
      apply (proj1 (In_sort_desc _ _)) in Hin. apply Z.leb_le in Hle.
      split; [exists rule; repeat split; assumption|].
      split; [exact Hle|]. split; [exact Hw|].
      intros rule' Hin' Hle' Hw'.
      unfold select in F.
      destruct (find _ _) as [x|] eqn:Fx; [|discriminate].
      injection F as <- <-.
      apply (find_greatest _ _ _ (sort_desc_sorted rules) Fx).
      * now apply (proj2 (In_sort_desc _ _)).
      * unfold eligible. simpl. rewrite Hw'.
        apply Z.leb_le in Hle'. now rewrite Hle'.
    + intros rule' Hin' Hle'.
      apply (select_none _ _ _ _ _ F);
        [now apply (proj2 (In_sort_desc _ _))|].
      simpl. now apply Z.leb_le.
  - unfold process_result.
    destruct found as [[body m]|];
      [|exists qs; rewrite Sq; simpl; repeat split; auto; contradiction].
    destruct (Str.truthy body);
      [|exists qs; rewrite Sq; simpl; repeat split; auto; contradiction].
    destruct (twilio_create w _ _ _).
    + eexists (_ :: _ :: qs). split; [reflexivity|]. simpl. rewrite Sq.
      simpl. split; [lia|]. intros to b ok [[= <- <- <-]|[]].
      split; [reflexivity | now exists m].
    + eexists (_ :: qs). split; [reflexivity|]. simpl. rewrite Sq.
      simpl. split; [lia|]. intros to b ok [[= <- <- <-]|[]].
      split; [reflexivity | now exists m].
Qed.

(** The threshold path.  When the loop has selected a rule,
    [processAlertsForNumber] calls the gateway once if the text is not
    empty, and not at all otherwise; it inserts the row of the rule exactly
    when that call succeeded; when no row is inserted the dedup query for
    the rule still answers [false]; and the event logged is [alert_sent] at
    level [info] after a success, [alert_failed] at level [error] after a
    failure. *)
Lemma record_iff_send_succeeded :
  forall w numberConfig timeRemaining today st body m st1,
    scanThresholds (number numberConfig) today
      (remainingMinutes timeRemaining)
      (sort_desc (MessageWhenRemainingMins numberConfig)) st
    = Ret (Some (body, m)) st1 ->
    let phone := number numberConfig in
    let ok := twilio_create w (List.length (trace st1)) phone body in
    let row := mkAlertLog phone body m (clock w (clock_reads st)) today in
    exists st2 added,
      processAlertsForNumber w numberConfig timeRemaining today st
      = Ret tt st2
      /\ trace st2 = added ++ trace st1
      /\ alert_logs st2
         = alert_logs st ++ (if Str.truthy body && ok then [row] else [])
      /\ sms_of added = (if Str.truthy body then [(phone, body, ok)] else [])
      /\ (Str.truthy body && ok = false ->
          was_sent (alert_logs st2) phone today m = false)
      /\ (Str.truthy body = true ->
          exists text ts,
            system_logs st2
            = system_logs st
              ++ [mkSystemLog (if ok then "alert_sent" else "alert_failed")
                              text ts (if ok then "info" else "error")]).
Proof.
  intros w nc tr today st body m st1 Hscan phone ok row.
  destruct (process_run (fun _ _ _ => True) w nc tr today st)
    as (qs & E & Sc & _ & _ & Hsel).
  rewrite Hscan in Sc. injection Sc as Hfound ->.
  rewrite <- Hfound in E, Hsel.
  destruct (Hsel body m eq_refl) as (_ & _ & _ & W).
  subst ok. cbn [trace with_trace] in *. fold phone in E |- *.
  unfold process_result in E. fold phone in E.
  destruct (Str.truthy body).
  - destruct (twilio_create w _ phone body).
    + eexists _, [_; _]. split; [exact E|]. cbn.
      repeat split; auto; try discriminate. intros _. now do 2 eexists.
    + eexists _, [_]. split; [exact E|]. cbn. rewrite List.app_nil_r.
      repeat split; auto. intros _. now do 2 eexists.
  - eexists _, []. split; [exact E|]. cbn. rewrite List.app_nil_r.
    repeat split; auto. discriminate.
Qed.

(** The threshold path at a concrete input: 18 minutes left, nothing sent
    yet today; the rule of 30 minutes is selected, the gateway accepts the
    text, and the row of that rule is the one row of the table
    afterwards. *)
Lemma record_iff_send_succeeded_sample :
  scanThresholds "+441" "2024-05-01" (Int 18)
    (sort_desc (MessageWhenRemainingMins parent)) initial_state
  = Ret (Some ("30 left", 30%Z))
        (with_trace initial_state
           [Query "+441" "2024-05-01" 30 false])
  /\ exists st2 added,
      processAlertsForNumber steady parent
        (mkTimeRemaining "01:42" "02:00" (Int 18) false) "2024-05-01"
        initial_state
      = Ret tt st2
      /\ trace st2 = added ++ [Query "+441" "2024-05-01" 30 false]
      /\ alert_logs st2
         = [mkAlertLog "+441" "30 left" 30 "2024-05-01T10:00:00.000Z"
                       "2024-05-01"]
      /\ sms_of added = [("+441", "30 left", true)].
Proof.
  split; [reflexivity|].
  destruct (record_iff_send_succeeded steady parent
              (mkTimeRemaining "01:42" "02:00" (Int 18) false) "2024-05-01"
              initial_state "30 left" 30%Z _ eq_refl)
    as (st2 & added & E & T & L & Sm & _).
  exists st2, added. repeat split; assumption.
Defined.

(** The connectivity path.  The loop body of [handleFritzConnectionError]
    inserts the row of key [-1] exactly when it asked the gateway and the
    gateway accepted the text, and it never touches the system log. *)
Lemma alertAdmin_records_iff_sent w today admin st :
  let phone := number admin in
  let asked := Query phone today (-1) false :: trace st in
  let ok := twilio_create w (List.length asked) phone
                          connection_error_message in
  let row := mkAlertLog phone connection_error_message (-1)
                        (clock w (clock_reads st)) today in
  exists st',
    alertAdmin w today admin st = Ret tt st'
    /\ alert_logs st'
       = alert_logs st
         ++ (if negb (was_sent (alert_logs st) phone today (-1)) && ok
             then [row] else [])
    /\ system_logs st' = system_logs st.
Proof.
  intros phone asked ok row. rewrite alertAdmin_run.
  eexists. split; [reflexivity|].
  unfold alertAdmin_result. fold phone.
  destruct (was_sent (alert_logs st) phone today (-1)); cbn [negb andb].
  - cbn. now rewrite List.app_nil_r.
  - fold asked. fold ok. destruct ok; cbn; [auto|].
    now rewrite List.app_nil_r.
Qed.

(** C6.  On the connectivity path a text that the gateway refuses leaves no
    event.  Whatever the gateway answers, [handleFritzConnectionError] adds
    one row to the system log, [fritz_connection_error], and nothing else.
    With the router down, one administrator, an empty table and a gateway
    that refuses every text, the check tries the text, writes no row of the
    alert table, and leaves the system log that the same check leaves when
    the gateway accepts the text.  On the threshold path the refusing
    gateway leaves the event [alert_failed]. *)
Theorem refused_admin_alert_leaves_no_event :
  (forall w config st,
      exists st' ts,
        handleFritzConnectionError w config st = Ret tt st'
        /\ system_logs st'
           = system_logs st
             ++ [mkSystemLog "fritz_connection_error"
                             "Cannot connect to Fritz router" ts "error"])
  /\ (exists st,
        checkAndAlert 1 unreachable_refusing client (config "Leos-11")
                      initial_state
        = Ret tt st
        /\ sms_of (trace st) = [("+441", connection_error_message, false)]
        /\ alert_logs st = []
        /\ map event (system_logs st)
           = ["check_start"; "fritz_connection_error"]
        /\ sms_of (trace after_one_failure)
           = [("+441", connection_error_message, true)]
        /\ system_logs st = system_logs after_one_failure)
  /\ (exists st,
        checkAndAlert 1 steady_refusing client (config "Leos-11")
                      initial_state
        = Ret tt st
        /\ sms_of (trace st) = [("+441", "30 left", false)]
        /\ alert_logs st = []
        /\ map event (system_logs st)
           = ["check_start"; "time_check"; "alert_failed"]).
Proof.
  split; [|split].
  - intros w config st.
    unfold handleFritzConnectionError, bind, newDateISO.
    destruct (admins_run config w (day_of (clock w (clock_reads st)))
                (filter isAdmin (NumbersToSMS config))
                (mkState (sessionId st) (alert_logs st) (system_logs st)
                         (S (clock_reads st)) (trace st)))
      as (s & E & _); [intros a Ha; now apply filter_In in Ha|].
    rewrite E. apply admins_keep_logs in E. cbn [system_logs] in E.
    unfold logSystem. do 2 eexists. split; [reflexivity|].
    cbn [system_logs]. now rewrite E.
  - eexists. split; [vm_compute; reflexivity|].
    repeat split; vm_compute; reflexivity.
  - eexists. split; [vm_compute; reflexivity|].
    repeat split; vm_compute; reflexivity.
Qed.

End Decisions.

(** ** Deduplication (C3, C4, C10) *)

Module Dedup.

Import DatabaseService.
Import SmsService.
Import AlertManager.
Import Protocol.
Import LogicFacts.
Import BlockFacts.
Import SelectSpec.
Import SelectFacts.
Import RunSpec.
Import RunFacts.
Import ManagerFacts.
Import Scenario.
Import ConfigService.

(** C3.  Over any sequence of checks, from any state of the store: under
    the key [-1] a number receives at most one successful send for a given
    day, and none when the store already had a row of key [-1] for that
    number and day; every send under the key [-1] goes to a number flagged
    [isAdmin] and carries the connection text; every insertion comes right
    after a successful send, itself right after a dedup query of the same
    key answered [false].  [handleFritzConnectionError] always completes,
    and each of its sends is a send under the key [-1]. *)
Theorem connectivity_alert_once :
  forall fc config st0 st,
    history fc config st0 st ->
    exists added,
      trace st = added ++ trace st0
      /\ (forall phone day,
            sends_on phone day (-1) added <= 1
            /\ (was_sent (alert_logs st0) phone day (-1) = true ->
                sends_on phone day (-1) added = 0))
      /\ Forall (fun s => is_admin config (fst (fst (fst s)))
                          /\ snd (fst (fst s)) = connection_error_message)
                (key_sends (-1) added)
      /\ gated added
      /\ forall w,
          exists st' added',
            handleFritzConnectionError w config st = Ret tt st'
            /\ trace st' = added' ++ trace st
            /\ sms_of added' = rev (map fst (key_sends (-1) added'))
            /\ gated added'.
Proof.
  intros fc config st0 st H.
  destruct (history_steps config fc st0 st H) as (added & Ht & Hb).
  exists added. split; [exact Ht|]. split; [|split; [|split]].
  - intros phone day. eapply blocks_sends_once; exact Hb.
  - pose proof (blocks_key_sends _ _ _ _ (-1)%Z Hb) as F.
    eapply Forall_impl; [|exact F].
    intros [[[to body] ok] day] Al. simpl. now apply Al.
  - eapply blocks_gated; exact Hb.
  - intros w. destruct (handle_run config w st) as (st' & E & added' & Ht' & Hb').
    exists st', added'. split; [exact E|]. split; [exact Ht'|].
    split; [now apply (sms_of_connectivity config _ _ _ Hb')|].
    eapply blocks_gated; exact Hb'.
Qed.

(** C4.  Over any sequence of checks from a store in which no key
    (number, day, minutes) has two rows, no key has two rows afterwards.
    The rows added are those that the trace inserts, and each insertion
    comes right after a successful send, itself right after a dedup query
    of the row's own key answered [false]. *)
Theorem dedup_invariant :
  forall fc config st0 st,
    history fc config st0 st ->
    (forall phone day mins,
        count_rows (alert_logs st0) phone day mins <= 1) ->
    (forall phone day mins, count_rows (alert_logs st) phone day mins <= 1)
    /\ exists added,
        trace st = added ++ trace st0
        /\ alert_logs st = alert_logs st0 ++ inserted added
        /\ gated added.
Proof.
  intros fc config st0 st H U.
  destruct (history_steps config fc st0 st H) as (added & Ht & Hb).
  split; [eapply blocks_unique; eassumption|].
  exists added. split; [exact Ht|].
  split; [eapply blocks_inserted; exact Hb | eapply blocks_gated; exact Hb].
Qed.


Lemma two_failures_history :
  history client (config "Leos-11") initial_state after_two_failures.
Proof.
  apply (history_check _ _ _ 1 unreachable after_one_failure).
  - apply (history_check _ _ _ 1 unreachable initial_state).
    + apply history_start.
    + vm_compute. reflexivity.
  - vm_compute. reflexivity.
Defined.

(** C4 at a concrete history: two checks on one day while the router is
    down, starting with an empty table. *)
Lemma dedup_invariant_witness :
  history client (config "Leos-11") initial_state after_two_failures
  /\ (forall phone day mins,
         count_rows (alert_logs initial_state) phone day mins <= 1)
  /\ (forall phone day mins,
         count_rows (alert_logs after_two_failures) phone day mins <= 1)
  /\ exists added,
      trace after_two_failures = added ++ trace initial_state
      /\ alert_logs after_two_failures
         = alert_logs initial_state ++ inserted added
      /\ gated added.
Proof.
  assert (U : forall phone day mins,
             count_rows (alert_logs initial_state) phone day mins <= 1)
    by (intros; unfold count_rows; simpl; lia).
  split; [exact two_failures_history|]. split; [exact U|].
  exact (dedup_invariant client (config "Leos-11") initial_state
           after_two_failures two_failures_history U).
Defined.

(** C3 at the same history. *)
Lemma connectivity_alert_once_witness :
  exists added,
    trace after_two_failures = added ++ trace initial_state
    /\ (forall phone day,
          sends_on phone day (-1) added <= 1
          /\ (was_sent (alert_logs initial_state) phone day (-1) = true ->
              sends_on phone day (-1) added = 0))
    /\ Forall (fun s => is_admin (config "Leos-11") (fst (fst (fst s)))
                        /\ snd (fst (fst s)) = connection_error_message)
              (key_sends (-1) added)
    /\ gated added
    /\ forall w,
        exists st' added',
          handleFritzConnectionError w (config "Leos-11") after_two_failures
          = Ret tt st'
          /\ trace st' = added' ++ trace after_two_failures
          /\ sms_of added' = rev (map fst (key_sends (-1) added'))
          /\ gated added'.
Proof.
  exact (connectivity_alert_once client (config "Leos-11") initial_state
           after_two_failures two_failures_history).
Defined.

Example two_failures_one_alert :
  sms_of (trace after_two_failures)
  = [("+441", connection_error_message, true)].
Proof. vm_compute. reflexivity. Qed.


Lemma was_sent_app rows phone body mins at_ day :
  was_sent (rows ++ [mkAlertLog phone body mins at_ day]) phone day mins
  = true.
Proof.
  unfold was_sent. rewrite count_rows_app. unfold row_matches. simpl.
  rewrite !String.eqb_refl, Z.eqb_refl. simpl. apply Nat.ltb_lt. lia.
Qed.

(** C10.  Validation asks of [minutes] only that it be a number: a rule
    with any integer and a non-empty text adds no error, and a file with
    the threshold [-1] is accepted.  The row that the connectivity alert
    inserts makes the dedup query answer [true] for a rule of threshold
    [-1] of the same number on the same day; and the row inserted for
    such a rule makes the connectivity path skip that number. *)
Theorem negative_threshold_shares_key :
  (forall index msgIndex z text rest,
      Str.truthy text = true ->
      message_errors index msgIndex
                     (mkRawMessage (VNum (Int z)) (VStr text) :: rest)
      = message_errors index (S msgIndex) rest)
  /\ validateConfig raw_config_minus_one = None
  /\ (forall w today admin st rule,
        minutes rule = (-1)%Z ->
        was_sent (alert_logs st) (number admin) today (-1) = false ->
        twilio_create w (S (List.length (trace st))) (number admin)
                      connection_error_message = true ->
        exists st1 st2,
          alertAdmin w today admin st = Ret tt st1
          /\ wasAlertSentForMinutes (number admin) today (minutes rule) st1
             = Ret true st2)
  /\ (forall w numberConfig timeRemaining today st body st1,
        scanThresholds (number numberConfig) today
          (remainingMinutes timeRemaining)
          (sort_desc (MessageWhenRemainingMins numberConfig)) st
        = Ret (Some (body, (-1)%Z)) st1 ->
        Str.truthy body = true ->
        twilio_create w (List.length (trace st1)) (number numberConfig) body
        = true ->
        exists st2,
          processAlertsForNumber w numberConfig timeRemaining today st
          = Ret tt st2
          /\ forall w',
              alertAdmin w' today numberConfig st2
              = Ret tt (with_trace st2
                          (Query (number numberConfig) today (-1) true
                           :: trace st2))).
Proof.
  split; [|split; [|split]].
  - intros index msgIndex z text rest Ht. cbn [message_errors raw_minutes
      raw_message is_number negb truthy]. now rewrite Ht.
  - vm_compute. reflexivity.
  - intros w today admin st rule Hm W Tw.
    rewrite alertAdmin_run. unfold alertAdmin_result. rewrite W.
    cbn [List.length]. rewrite Tw. do 2 eexists. split; [reflexivity|].
    unfold wasAlertSentForMinutes, bind, get_state, emit, ret.
    cbn [alert_logs]. rewrite Hm.
    now rewrite was_sent_app.
  - intros w nc tr today st body st1 Hscan Hb Tw.
    destruct (process_run (fun _ _ _ => True) w nc tr today st)
      as (qs & E & Sc & _ & _ & _).
    rewrite Hscan in Sc. injection Sc as Hfound ->.
    rewrite <- Hfound in E. unfold process_result in E.
    cbn [trace with_trace] in Tw. rewrite Hb, Tw in E.
    eexists. split; [exact E|].
    intros w'. rewrite alertAdmin_run. unfold alertAdmin_result.
    cbn [alert_logs].
    now rewrite was_sent_app.
Qed.

End Dedup.

(** ** Sessions and failures (C2, C5, C9) *)

Module Session.

Import Regex.
Import StrFacts.
Import RegexSpec.
Import RegexFacts.
Import Fritz.
Import AuthSpec.
Import DatabaseService.
Import SmsService.
Import AlertManager.
Import Protocol.
Import Scenario.

Lemma world_grants data sms st :
  Fritz.getSessionId (world data sms) client st
  = Ret granted_sid (authenticated st).
Proof. vm_compute. reflexivity. Qed.

Lemma always_expired_diverges :
  forall fuel st,
    Fritz.getParentalControlData fuel always_expired client "Leos-11" st
    = Diverge.
Proof.
  induction fuel as [|fuel IH]; intros st; [reflexivity|].
  cbn [Fritz.getParentalControlData]. unfold try_catch.
  unfold bind at 1. unfold get_state at 1.
  unfold bind at 1.
  assert (Auth : forall s,
    (if Fritz.no_session (sessionId s)
     then bind (Fritz.getSessionId always_expired client) (fun _ => ret tt)
     else ret tt) s
    = Ret tt (if Fritz.no_session (sessionId s) then authenticated s else s)).
  { intros s. destruct (Fritz.no_session (sessionId s)); [|reflexivity].
    unfold bind. unfold always_expired. now rewrite world_grants. }
  rewrite Auth.
  unfold bind at 1. unfold get_state at 1.
  unfold bind at 1. unfold Fritz.axios_post at 1.
  unfold bind, get_state, emit, throw. cbn [post_data always_expired world].
  replace (Str.includes "Invalid session" "session") with true
    by reflexivity.
  unfold set_sessionId. unfold always_expired at 1. rewrite world_grants.
  apply IH.
Qed.

(** With a device name that contains the word, the message of the parse
    failure is itself taken for a session error. *)
Lemma unknown_session_device_diverges :
  forall fuel st,
    Fritz.getParentalControlData fuel steady client "session-pc" st
    = Diverge.
Proof.
  induction fuel as [|fuel IH]; intros st; [reflexivity|].
  cbn [Fritz.getParentalControlData]. unfold try_catch.
  unfold bind at 1. unfold get_state at 1.
  unfold bind at 1.
  assert (Auth : forall s,
    (if Fritz.no_session (sessionId s)
     then bind (Fritz.getSessionId steady client) (fun _ => ret tt)
     else ret tt) s
    = Ret tt (if Fritz.no_session (sessionId s) then authenticated s else s)).
  { intros s. destruct (Fritz.no_session (sessionId s)); [|reflexivity].
    unfold bind. unfold steady. now rewrite world_grants. }
  rewrite Auth.
  unfold bind at 1. unfold get_state at 1.
  unfold bind at 1. unfold Fritz.axios_post at 1.
  unfold bind, get_state, emit, ret. cbn [post_data steady world].
  match goal with
  | |- context [Fritz.parseParentalControlData ?p ?n] =>
      let r := eval vm_compute in (Fritz.parseParentalControlData p n) in
      replace (Fritz.parseParentalControlData p n) with r
        by (vm_compute; reflexivity)
  end.
  cbn [Fritz.lift]. unfold throw.
  match goal with
  | |- context [Str.includes ?e "session"] =>
      replace (Str.includes e "session") with true by (vm_compute; reflexivity)
  end.
  unfold set_sessionId. unfold steady at 1. rewrite world_grants.
  apply IH.
Qed.

(** C2.  The retry after a session error is not limited to one.  When the
    data endpoint answers every usage request with a session error,
    [getParentalControlData] has no result, whatever the depth allowed.
    When it answers the first two requests with a session error and the
    third with the page, the check makes three usage requests and ends
    with the threshold alert, not on the connectivity path. *)
Theorem retry_is_unbounded :
  (forall fuel st,
      Fritz.getParentalControlData fuel always_expired client "Leos-11" st
      = Diverge)
  /\ exists st,
      checkAndAlert 3 expired_twice client (config "Leos-11") initial_state
      = Ret tt st
      /\ data_posts (trace st) = 3
      /\ map event (system_logs st)
         = ["check_start"; "time_check"; "alert_sent"]
      /\ sms_of (trace st) = [("+441", "30 left", true)].
Proof.
  split; [exact always_expired_diverges|].
  eexists. split; [vm_compute; reflexivity|].
  repeat split; vm_compute; reflexivity.
Qed.

(** C5.  With the device name [session-pc], which the page does not hold,
    the parse failure is taken for a session error each time: the check
    has no result, whatever the depth allowed, from any state. *)
Theorem parse_failure_can_loop :
  forall fuel st,
    checkAndAlert fuel steady client (config "session-pc") st = Diverge.
Proof.
  intros fuel st. unfold checkAndAlert.
  unfold bind at 1. unfold newDateISO at 1. unfold try_catch.
  unfold bind at 1. unfold logSystem at 1.
  unfold bind at 1. unfold Fritz.testConnection at 1.
  unfold bind, get_state, emit, ret.
  cbn [get_root steady world Nat.eqb negb fritz_device_name config].
  now rewrite unknown_session_device_diverges.
Qed.



(** A match of [<tag>(.*?)</tag>] has exactly one capture. *)
Lemma tag_match a b s m :
  exec (lit a ++ [Group [lazy_star dot]] ++ lit b) s = Some m ->
  exists x, group 1 m = Some x.
Proof.
  intros H. apply exec_sound in H as (_ & _ & _ & _ & H).
  apply in_items_lit_app in H as (x1 & _ & H).
  cbn [List.app in_items] in H.
  destruct H as (x & x2 & caps & _ & _ & Hc & H).
  apply in_items_lit in H as [_ ->].
  exists x. unfold group. now rewrite Hc.
Qed.



(** The outcome of [getSessionId], case by case. *)
Lemma getSessionId_cases w fc st :
  let i := List.length (trace st) in
  (exists cause st',
      getSessionId w fc st = Throw (auth_error cause) st'
      /\ rejected w fc i cause /\ sessionId st' = sessionId st)
  \/ (exists sid st',
        getSessionId w fc st = Ret sid st'
        /\ granted w fc i sid /\ sessionId st' = Some sid).
Proof.
  intros i. unfold getSessionId, try_catch, bind at 1.
  unfold axios_get, bind, get_state, emit, ret, throw.
  cbn [trace]. fold i.
  destruct (get_login w i) as [body|e] eqn:G.
  2:{ left. exists e. eexists. split; [reflexivity|].
      split; [now constructor | reflexivity]. }
  destruct (exec re_challenge body) as [cm|] eqn:C.
  2:{ left. eexists. eexists. split; [reflexivity|].
      split; [now apply (challenge_missing _ _ _ body) | reflexivity]. }
  destruct (tag_match _ _ _ _ C) as (challenge & Gc). rewrite Gc.
  unfold axios_post, bind, get_state, emit, ret, throw, set_sessionId.
  cbn [trace List.length sessionId alert_logs system_logs clock_reads].
  fold i. fold (login_request w fc challenge).
  destruct (post_login w (S i) (login_request w fc challenge))
    as [data|e] eqn:P.
  2:{ left. exists e. eexists. split; [reflexivity|].
      split; [now apply (login_transport _ _ _ body cm challenge) |
              reflexivity]. }
  destruct (exec re_sid data) as [sm|] eqn:S.
  2:{ left. eexists. eexists. split; [reflexivity|].
      split; [now apply (sid_missing _ _ _ body cm challenge data) |
              reflexivity]. }
  destruct (tag_match _ _ _ _ S) as (sid & Gs). rewrite Gs.
  destruct (String.eqb_spec sid all_zero_sid) as [->|Hz].
  - left. eexists. eexists. split; [reflexivity|].
    split; [now apply (sid_zero _ _ _ body cm challenge data sm) |
            reflexivity].
  - right. exists sid. eexists. split; [reflexivity|].
    split; [now apply (granted_session _ _ _ body cm challenge data sm) |
            reflexivity].
Qed.

Lemma rejected_not_granted w fc i cause sid :
  rejected w fc i cause -> granted w fc i sid -> False.
Proof.
  intros R G. destruct G as [body cm ch data sm sid G1 G2 G3 G4 G5 G6 G7].
  destruct R; congruence.
Qed.

(** C9, as amended.  [getSessionId] always completes or throws.  It throws
    exactly when the authentication is rejected: a transport error on the
    challenge request, an answer without challenge, a transport error on
    the login request, or a login answer whose session identifier is
    missing or is sixteen zeros; the message names the cause and the
    stored session is left as it was.  Otherwise it returns the session
    identifier of the login answer, and stores it. *)
Theorem authentication_outcome :
  forall w fc st,
    let i := List.length (trace st) in
    ((exists e st', getSessionId w fc st = Throw e st')
     <-> exists cause, rejected w fc i cause)
    /\ (forall e st',
          getSessionId w fc st = Throw e st' ->
          exists cause,
            rejected w fc i cause /\ e = auth_error cause
            /\ sessionId st' = sessionId st)
    /\ (forall sid,
          (exists st', getSessionId w fc st = Ret sid st')
          <-> granted w fc i sid)
    /\ (forall sid st',
          getSessionId w fc st = Ret sid st' -> sessionId st' = Some sid)
    /\ getSessionId w fc st <> Diverge
    /\ getSessionId w fc st <> Unmodelled.
Proof.
  intros w fc st i.
  destruct (getSessionId_cases w fc st)
    as [(cause & s1 & E & R & Hs) | (sid & s1 & E & G & Hs)].
  - fold i in R. rewrite E.
    split; [split; [now exists cause | now exists (auth_error cause), s1]|].
    split; [intros e st' [= <- <-]; now exists cause|].
    split; [|split; [discriminate | split; discriminate]].
    intros sid. split; [intros (st' & H); discriminate|].
    intros G. destruct (rejected_not_granted _ _ _ _ _ R G).
  - fold i in G. rewrite E.
    split; [split; [intros (e & st' & H); discriminate|]|].
    { intros (cause & R). destruct (rejected_not_granted _ _ _ _ _ R G). }
    split; [discriminate|].
    split; [|split; [|split; discriminate]].
    + intros sid'. split.
      * intros (st' & [= <- <-]). exact G.
      * intros G'. exists s1. f_equal.
        destruct G as [b1 c1 ch1 d1 m1 x1 A1 A2 A3 A4 A5 A6 A7].
        destruct G' as [b2 c2 ch2 d2 m2 x2 B1 B2 B3 B4 B5 B6 B7].
        congruence.
    + intros sid' st' [= <- <-]. exact Hs.
Qed.

(** C9, as stated, fails: authentication is refused although no request
    meets a transport error and every login answer carries a session
    identifier that is not all zero (the challenge answer holds no
    challenge). *)
Lemma authentication_fails_without_named_cause :
  (exists e st',
      getSessionId no_challenge client initial_state = Throw e st')
  /\ ~ named_cause no_challenge (List.length (trace initial_state)).
Proof.
  split.
  - do 2 eexists. vm_compute. reflexivity.
  - intros [(e & H) | [(r & e & H) | (r & data & H & [H1 | (sm & H1 & H2)])]];
      try discriminate H; injection H as <-.
    + vm_compute in H1. discriminate.
    + vm_compute in H1. injection H1 as <-. vm_compute in H2. discriminate.
Qed.

End Session.

(** ** More on the parser *)

Module ParseMore.

Import Regex.
Import StrFacts.
Import RegexSpec.
Import RegexFacts.
Import Fritz.
Import ParseSpec.
Import ParseFacts.
Import Parsing.
Import ParseErrors.
Import Scenario.

(** *** Occurrences across a character that the needle does not have *)

Lemma starts_with_before (c : ascii) (needle : string) :
  Str.all (fun x => negb (Ascii.eqb x c)) needle = true ->
  forall a b,
    Str.starts_with needle (a +++ String c b) = Str.starts_with needle a.
Proof.
  induction needle as [|x needle IH]; intros Hn a b; [now destruct a|].
  cbn [Str.all] in Hn. apply andb_true_iff in Hn as [Hx Hn].
  destruct a as [|y a]; cbn [String.append Str.starts_with].
  - apply negb_true_iff in Hx. now rewrite Hx.
  - now rewrite IH.
Qed.

Lemma includes_across (c : ascii) (needle : string) :
  Str.all (fun x => negb (Ascii.eqb x c)) needle = true ->
  Str.truthy needle = true ->
  forall a b,
    Str.includes (a +++ String c b) needle
    = Str.includes a needle || Str.includes b needle.
Proof.
  intros Hn Ht. unfold Str.includes.
  induction a as [|y a IH]; intros b.
  - cbn [String.append]. destruct needle as [|x needle]; [discriminate|].
    cbn [Str.all] in Hn. apply andb_true_iff in Hn as [Hx _].
    apply negb_true_iff in Hx.
    cbn [Str.find Str.starts_with]. rewrite Hx. cbn [andb orb].
    now destruct (Str.find (String x needle) b).
  - change (String y a +++ String c b) with (String y (a +++ String c b)).
    cbn [Str.find].
    pose proof (starts_with_before c needle Hn (String y a) b) as S.
    change (String y a +++ String c b) with (String y (a +++ String c b))
      in S.
    rewrite S.
    destruct (Str.starts_with needle (String y a)); [reflexivity|].
    specialize (IH b).
    destruct (Str.find needle (a +++ String c b)),
             (Str.find needle a), (Str.find needle b);
      cbn in IH |- *; congruence.
Qed.

Lemma includes_drop (n : nat) (s needle : string) :
  Str.includes (Str.drop n s) needle = true -> Str.includes s needle = true.
Proof.
  unfold Str.includes at 1.
  destruct (Str.find needle (Str.drop n s)) as [i|] eqn:F; [|discriminate].
  intros _. apply find_sound in F as (pre & post & E & _).
  rewrite <- (take_drop n s), E, <- app_assoc. apply includes_app.
Qed.

(** *** The two failures *)

Lemma messages_differ deviceName :
  device_not_found deviceName <> no_time_information.
Proof. unfold device_not_found, no_time_information. cbn. congruence. Qed.

(** A marker begins with [span_title]. *)
Lemma marker_has_span r s m :
  exec (lit span_title ++ r) s = Some m ->
  Str.includes s span_title = true.
Proof.
  intros H. apply exec_sound in H as (pre & post & -> & _ & H).
  apply in_items_lit_app in H as (x2 & -> & _).
  rewrite app_assoc. apply includes_app.
Qed.

Lemma scan_outcomes afterDevice :
  match scanSpanMatches [exec re_exhausted afterDevice;
                         exec re_time2 afterDevice;
                         exec re_time1 afterDevice] with
  | Return tr =>
      tr = exhausted_result
      \/ exists n,
          (n = 1 \/ n = 2)
          /\ is_label 2 (used tr) /\ is_label n (total tr)
          /\ remainingMinutes tr
             = Int (Z.max 0 (hhmm_minutes (total tr)
                             - hhmm_minutes (used tr)))
          /\ isExhausted tr
             = (Z.max 0 (hhmm_minutes (total tr) - hhmm_minutes (used tr))
                <=? 0)%Z
  | Raise e =>
      e = "Could not parse time information from parental control data"
      /\ exec re_exhausted afterDevice = None
      /\ exec re_time2 afterDevice = None
      /\ exec re_time1 afterDevice = None
  | NotCovered => False
  end.
Proof.
  assert (T : forall n m,
             (n = 1 \/ n = 2) ->
             exec (lit ("<span title=" +++ Str.dq) ++ [hhmm 2] ++ lit " of "
                   ++ [hhmm n] ++ lit (" hours" +++ Str.dq +++ ">"))
                  afterDevice = Some m ->
             forall rest,
             exists tr,
               scanSpanMatches (Some m :: rest) = Return tr
               /\ exists n,
                   (n = 1 \/ n = 2)
                   /\ is_label 2 (used tr) /\ is_label n (total tr)
                   /\ remainingMinutes tr
                      = Int (Z.max 0 (hhmm_minutes (total tr)
                                      - hhmm_minutes (used tr)))
                   /\ isExhausted tr
                      = (Z.max 0 (hhmm_minutes (total tr)
                                  - hhmm_minutes (used tr)) <=? 0)%Z).
  { intros n m Hn H rest.
    apply time_match in H as (u & t & Hg & Hu & Ht & Hinc).
    cbn [scanSpanMatches]. rewrite Hinc. unfold group. rewrite Hg.
    cbn [nth_error pred]. eexists. split; [reflexivity|]. exists n.
    destruct (parseTime_label _ _ Hu) as [Pu _].
    destruct (parseTime_label _ _ Ht) as [Pt _].
    cbn [used total remainingMinutes isExhausted].
    unfold calculateRemainingMinutes. rewrite Pu, Pt.
    repeat split; auto. }
  destruct (exec re_exhausted afterDevice) as [m0|] eqn:E0.
  - cbn [scanSpanMatches].
    apply exec_sound in E0 as (_ & _ & _ & _ & H).
    apply in_items_lit in H as [-> _]. cbn. now left.
  - cbn [scanSpanMatches].
    destruct (exec re_time2 afterDevice) as [m2|] eqn:E2.
    + destruct (T 2 m2 (or_intror eq_refl) E2 [exec re_time1 afterDevice])
        as (tr & E & H).
      cbn [scanSpanMatches] in E |- *. rewrite E. now right.
    + cbn [scanSpanMatches].
      destruct (exec re_time1 afterDevice) as [m1|] eqn:E1.
      * destruct (T 1 m1 (or_introl eq_refl) E1 []) as (tr & E & H).
        cbn [scanSpanMatches] in E |- *. rewrite E. now right.
      * cbn [scanSpanMatches]. now repeat split.
Qed.

Lemma parse_raises htmlData deviceName e :
  parseParentalControlData htmlData deviceName = Raise e ->
  e = device_not_found deviceName \/ e = no_time_information.
Proof.
  unfold parseParentalControlData.
  destruct (deviceRegex deviceName) as [deviceRe|]; [|discriminate].
  destruct (exec deviceRe htmlData) as [dm|].
  - pose proof (scan_outcomes
                  (Str.substring_from htmlData
                     (Str.indexOf htmlData (whole dm)))) as S.
    destruct (scanSpanMatches _) as [tr|e0|]; [discriminate| |destruct S].
    destruct S as (-> & _). intros [= <-]. now right.
  - intros [= <-]. now left.
Qed.

(** X1.  What [parseParentalControlData] can give for a device name that
    is pattern text of the covered kind: ordinary characters and [.], each
    followed by at most one of [*], [+] and [?] (for any other name
    [deviceRegex] is [None], and nothing is said).  The answer is then
    inside the embedding.  A value it returns is the exhausted record, or
    holds two labels of digits ([dd:dd], and [dd:dd] or [d:dd]) with the
    remaining minutes computed from them: a whole number that is never
    negative, and [isExhausted] says whether it is zero.  A failure has one
    of two messages. *)
Theorem parse_outcomes :
  forall htmlData deviceName,
    deviceRegex deviceName <> None ->
    parseParentalControlData htmlData deviceName <> NotCovered
    /\ (forall tr,
          parseParentalControlData htmlData deviceName = Return tr ->
          (tr = exhausted_result
           \/ exists n,
               (n = 1 \/ n = 2)
               /\ is_label 2 (used tr) /\ is_label n (total tr)
               /\ remainingMinutes tr
                  = Int (Z.max 0 (hhmm_minutes (total tr)
                                  - hhmm_minutes (used tr))))
          /\ (exists r, remainingMinutes tr = Int r /\ (0 <= r)%Z
                        /\ (isExhausted tr = true <-> r = 0%Z)))
    /\ (forall e,
          parseParentalControlData htmlData deviceName = Raise e ->
          e = device_not_found deviceName \/ e = no_time_information).
Proof.
  intros htmlData deviceName Hre. unfold parseParentalControlData.
  destruct (deviceRegex deviceName) as [deviceRe|]; [|now destruct Hre].
  destruct (exec deviceRe htmlData) as [dm|].
  - pose proof (scan_outcomes
                  (Str.substring_from htmlData
                     (Str.indexOf htmlData (whole dm)))) as S.
    destruct (scanSpanMatches _) as [tr|e|]; [| |destruct S].
    + split; [discriminate|]. split; [|intros ? ?; discriminate].
      intros tr' [= <-].
      destruct S as [-> | (n & Hn & Hu & Ht & Hr & He)].
      * split; [now left|]. exists 0%Z. cbn. repeat split; auto; lia.
      * split; [right; now exists n|].
        eexists. split; [exact Hr|]. split; [lia|]. rewrite He.
        rewrite Z.leb_le. lia.
    + destruct S as (-> & _).
      split; [discriminate|]. split; [intros ? ?; discriminate|].
      intros e [= <-]. now right.
  - split; [discriminate|]. split; [intros ? ?; discriminate|].
    intros e [= <-]. now left.
Qed.

(** The page shows [00:04 of 02:10 hours] for the device [Leos-11]: 126
    minutes are left. *)
Lemma parse_outcomes_witness :
  parseParentalControlData sample_page "Leos-11"
  = Return (mkTimeRemaining "00:04" "02:10" (Int 126) false)
  /\ exists r,
      remainingMinutes (mkTimeRemaining "00:04" "02:10" (Int 126) false)
      = Int r
      /\ (0 <= r)%Z
      /\ (isExhausted (mkTimeRemaining "00:04" "02:10" (Int 126) false) = true
          <-> r = 0%Z).
Proof.
  assert (H : parseParentalControlData sample_page "Leos-11"
              = Return (mkTimeRemaining "00:04" "02:10" (Int 126) false))
    by (vm_compute; reflexivity).
  split; [exact H|].
  assert (Hre : deviceRegex "Leos-11" <> None) by discriminate.
  exact (proj2 (proj1 (proj2 (parse_outcomes sample_page "Leos-11" Hre))
                  _ H)).
Defined.

Lemma device_not_found_session deviceName :
  Str.includes (device_not_found deviceName) "session"
  = Str.includes deviceName "session".
Proof.
  change (device_not_found deviceName)
    with ("Failed to parse parental control data: Device "
          +++ String "034" (deviceName
                            +++ String "034"
                                  " not found in parental control data")).
  rewrite (includes_across "034" "session" eq_refl eq_refl).
  rewrite (includes_across "034" "session" eq_refl eq_refl).
  change (Str.includes "Failed to parse parental control data: Device "
                       "session") with false.
  change (Str.includes " not found in parental control data" "session")
    with false.
  now rewrite orb_false_r.
Qed.

Lemma parse_not_covered htmlData deviceName :
  parseParentalControlData htmlData deviceName = NotCovered ->
  deviceRegex deviceName = None.
Proof.
  unfold parseParentalControlData.
  destruct (deviceRegex deviceName) as [deviceRe|]; [|reflexivity].
  destruct (exec deviceRe htmlData) as [dm|]; [|discriminate].
  pose proof (scan_outcomes
                (Str.substring_from htmlData
                   (Str.indexOf htmlData (whole dm)))) as S.
  destruct (scanSpanMatches _) as [tr|e|]; [discriminate.. | destruct S].
Qed.

(** X2.  For a device name that is pattern text of the covered kind
    (ordinary characters and [.], each followed by at most one of [*], [+]
    and [?]), the message of a failure of the parser contains [session]
    exactly when the device is not found and its name contains
    [session]. *)
Theorem parse_failure_names_session :
  forall htmlData deviceName e,
    deviceRegex deviceName <> None ->
    parseParentalControlData htmlData deviceName = Raise e ->
    (Str.includes e "session" = true
     <-> e = device_not_found deviceName
         /\ Str.includes deviceName "session" = true).
Proof.
  intros htmlData deviceName e _ H.
  destruct (parse_raises htmlData deviceName e H) as [-> | ->].
  - rewrite device_not_found_session. split; [now split | now intros [_ ?]].
  - split; [intros X; vm_compute in X; discriminate|].
    intros [X _]. symmetry in X. now apply messages_differ in X.
Qed.

(** The page lists another device, and the name asked for is
    [session-pc]. *)
Lemma parse_failure_names_session_witness :
  parseParentalControlData (page "Leos-11" "01:42 of 02:00 hours")
                           "session-pc"
  = Raise (device_not_found "session-pc")
  /\ Str.includes (device_not_found "session-pc") "session" = true.
Proof.
  assert (H : parseParentalControlData
                (page "Leos-11" "01:42 of 02:00 hours") "session-pc"
              = Raise (device_not_found "session-pc"))
    by (vm_compute; reflexivity).
  assert (Hre : deviceRegex "session-pc" <> None) by discriminate.
  split; [exact H|].
  apply (proj2 (parse_failure_names_session _ _ _ Hre H)).
  split; reflexivity.
Defined.


(** *** Where the device is looked for *)

Lemma lit_app a b : lit (a +++ b) = lit a ++ lit b.
Proof.
  unfold lit, lit_atoms. induction a as [|c a IH]; [reflexivity|].
  cbn [String.append list_ascii_of_string map List.app]. now rewrite IH.
Qed.

(** The texts of the language of the device pattern, for a name without
    pattern characters. *)
Lemma device_element_inv name x caps :
  in_items (lit "<" ++ [Plain (star not_gt)] ++ lit ">" ++ lit name
            ++ lit "<" ++ [Plain (star not_gt)] ++ lit ">") x caps ->
  exists a b,
    x = "<" +++ a +++ ">" +++ name +++ "<" +++ b +++ ">"
    /\ Str.all not_gt a = true /\ Str.all not_gt b = true.
Proof.
  intros H.
  apply in_items_lit_app in H as (x1 & -> & H).
  cbn [List.app in_items] in H.
  destruct H as (a & x2 & -> & (_ & _ & Ha) & H).
  apply in_items_lit_app in H as (x3 & -> & H).
  apply in_items_lit_app in H as (x4 & -> & H).
  apply in_items_lit_app in H as (x5 & -> & H).
  cbn [List.app in_items] in H.
  destruct H as (b & x6 & -> & (_ & _ & Hb) & H).
  apply in_items_lit in H as [-> _].
  exists a, b. now repeat split.
Qed.

(** The device is found exactly on the pages that hold an element whose
    text is the name. *)
Lemma device_found_iff htmlData deviceName deviceRe :
  plain_text deviceName = true ->
  deviceRegex deviceName = Some deviceRe ->
  (exec deviceRe htmlData = None
   <-> ~ exists pre a b post,
         htmlData = pre +++ ("<" +++ a +++ ">" +++ deviceName +++ "<"
                             +++ b +++ ">") +++ post
         /\ Str.all not_gt a = true /\ Str.all not_gt b = true).
Proof.
  intros Hname Hre.
  assert (Hd : deviceRe
               = lit "<" ++ [Plain (star not_gt)] ++ lit ">" ++ lit deviceName
                 ++ lit "<" ++ [Plain (star not_gt)] ++ lit ">")
    by (rewrite (deviceRegex_plain _ Hname) in Hre; congruence).
  rewrite Hd. clear Hd Hre. split.
  - intros Hnone (pre & a & b & post & -> & Ha & Hb).
    destruct (exec_complete _ _ _ pre post
                (device_element deviceName a b Ha Hb)) as (m & E & _).
    congruence.
  - intros Hno.
    destruct (exec _ htmlData) as [m|] eqn:E; [|reflexivity].
    exfalso. apply Hno.
    apply exec_sound in E as (pre & post & -> & _ & H).
    apply device_element_inv in H as (a & b & -> & Ha & Hb).
    now exists pre, a, b, post.
Qed.

(** X3.  For a device name without pattern characters, the parser reports
    that the device is not found exactly when the page holds no element
    whose text is the name, that is, no text of the form [<a>name<b>] with
    [a] and [b] free of [>]. *)
Theorem device_not_found_iff :
  forall htmlData deviceName,
    plain_text deviceName = true ->
    (parseParentalControlData htmlData deviceName
     = Raise (device_not_found deviceName)
     <-> ~ exists pre a b post,
           htmlData = pre +++ ("<" +++ a +++ ">" +++ deviceName +++ "<"
                               +++ b +++ ">") +++ post
           /\ Str.all not_gt a = true /\ Str.all not_gt b = true).
Proof.
  intros htmlData deviceName Hname.
  pose proof (deviceRegex_plain _ Hname) as Hre.
  rewrite <- (device_found_iff htmlData deviceName _ Hname Hre).
  unfold parseParentalControlData. rewrite Hre.
  destruct (exec _ htmlData) as [dm|].
  - pose proof (scan_outcomes
                  (Str.substring_from htmlData
                     (Str.indexOf htmlData (whole dm)))) as S.
    split; [|discriminate].
    destruct (scanSpanMatches _) as [tr|e|]; [discriminate| |destruct S].
    destruct S as (-> & _). intros [= X].
  - split; reflexivity.
Qed.

(** The page that lists [Leos-11] has no element whose text is
    [Other]. *)
Lemma device_not_found_iff_witness :
  plain_text "Other" = true
  /\ ~ exists pre a b post,
        page "Leos-11" "01:42 of 02:00 hours"
        = pre +++ ("<" +++ a +++ ">" +++ "Other" +++ "<" +++ b +++ ">")
          +++ post
        /\ Str.all not_gt a = true /\ Str.all not_gt b = true.
Proof.
  split; [reflexivity|].
  apply (proj1 (device_not_found_iff (page "Leos-11" "01:42 of 02:00 hours")
                                     "Other" eq_refl)).
  vm_compute. reflexivity.
Defined.


(** X4.  When the page holds the element of the device but nowhere the text
    [span_title], with which the three markers begin, the parser fails for
    want of time information. *)
Theorem no_marker_no_time :
  forall pre a b post deviceName,
    plain_text deviceName = true ->
    Str.all not_gt a = true -> Str.all not_gt b = true ->
    Str.includes
      (pre +++ ("<" +++ a +++ ">" +++ deviceName +++ "<" +++ b +++ ">")
       +++ post) span_title = false ->
    parseParentalControlData
      (pre +++ ("<" +++ a +++ ">" +++ deviceName +++ "<" +++ b +++ ">")
       +++ post) deviceName
    = Raise no_time_information.
Proof.
  intros pre a b post deviceName Hname Ha Hb Hspan.
  pose proof (deviceRegex_plain _ Hname) as Hre.
  destruct (exec_complete _ _ _ pre post
              (device_element deviceName a b Ha Hb)) as (dm & Hdm & _).
  unfold parseParentalControlData. rewrite Hre, Hdm.
  set (html := pre +++ _ +++ post) in *.
  set (afterDevice := Str.substring_from html (Str.indexOf html (whole dm))).
  assert (Hno : forall r, exec (lit span_title ++ r) afterDevice = None).
  { intros r. destruct (exec _ afterDevice) as [m|] eqn:E; [|reflexivity].
    apply marker_has_span in E. unfold afterDevice, Str.substring_from in E.
    apply includes_drop in E. congruence. }
  assert (H0 : exec re_exhausted afterDevice = None).
  { unfold re_exhausted.
    change exhausted_marker
      with (span_title +++ "Online time exhausted" +++ Str.dq +++ ">").
    rewrite lit_app. apply Hno. }
  assert (H2 : exec re_time2 afterDevice = None) by apply Hno.
  assert (H1 : exec re_time1 afterDevice = None) by apply Hno.
  rewrite H0, H2, H1. reflexivity.
Qed.

Lemma no_marker_no_time_witness :
  parseParentalControlData "<td>Leos-11</td><td>no limit</td>" "Leos-11"
  = Raise no_time_information.
Proof.
  apply (no_marker_no_time "" "td" "/td" "<td>no limit</td>" "Leos-11");
    reflexivity.
Defined.


End ParseMore.

(** ** The fetch of the usage data *)

Module FetchFacts.

Import Regex.
Import Fritz.
Import AuthSpec.
Import FetchSpec.
Import ParseErrors.
Import ParseMore.

Lemma getParentalControlData_S fuel w fc deviceName :
  getParentalControlData (S fuel) w fc deviceName
  = try_catch (attempt w fc deviceName)
      (fun error =>
         if Str.includes error "session"
         then
           set_sessionId None ;;;
           getSessionId w fc ;;;
           getParentalControlData fuel w fc deviceName
         else throw (fetch_error error)).
Proof. reflexivity. Qed.

(** When the [try] block completes, a session is stored and the value
    is what the parser made of the answer to the last request, which
    carried that session. *)
Lemma attempt_returns w fc deviceName st tr st' :
  attempt w fc deviceName st = Ret tr st' ->
  exists sid data rest,
    sessionId st' = Some sid
    /\ trace st' = HttpPost "/data.lua" (data_request sid) :: rest
    /\ post_data w (List.length rest) (data_request sid) = inl data
    /\ parseParentalControlData data deviceName = Return tr.
Proof.
  unfold attempt. unfold bind at 1, get_state at 1. unfold bind at 1.
  assert (Auth :
    match (if no_session (sessionId st)
           then getSessionId w fc ;;; ret tt else ret tt) st with
    | Ret _ s => exists sid, sessionId s = Some sid
    | _ => True
    end).
  { destruct (sessionId st) as [sid|] eqn:Hsid; cbn [no_session].
    - destruct (Str.truthy sid); cbn [negb].
      + unfold ret. now exists sid.
      + unfold bind.
        destruct (Session.getSessionId_cases w fc st)
          as [(c & s & -> & _) | (sid' & s & -> & _ & Hs)]; [exact I|].
        unfold ret. now exists sid'.
    - unfold bind.
      destruct (Session.getSessionId_cases w fc st)
        as [(c & s & -> & _) | (sid' & s & -> & _ & Hs)]; [exact I|].
      unfold ret. now exists sid'. }
  destruct ((if no_session (sessionId st)
             then getSessionId w fc ;;; ret tt else ret tt) st)
    as [[] s|e s| |]; try discriminate.
  destruct Auth as [sid Hsid].
  unfold bind at 1, get_state at 1. unfold bind at 1, axios_post.
  unfold bind, get_state, emit. cbn [trace sessionId].
  rewrite Hsid. cbn [sid_text]. fold (data_request sid).
  destruct (post_data w (List.length (trace s)) (data_request sid))
    as [data|e] eqn:P; [|discriminate].
  unfold ret at 1.
  destruct (parseParentalControlData data deviceName) as [t|e|] eqn:Pa;
    cbn [lift]; try discriminate.
  unfold ret. intros [= <- <-]. exists sid, data, (trace s).
  cbn [sessionId trace]. now repeat split.
Qed.

(** X5.  The outcomes of [getParentalControlData].  When it returns, a
    session is stored, the last request was the usage request under that
    session, and the value is what the parser made of its answer.  When it
    throws, the message is either [Failed to fetch parental control data:]
    followed by a message that does not contain [session], or the message of
    a re-authentication that the router rejected, as [getSessionId] made it,
    and then no session is stored any more. *)
Theorem getParentalControlData_outcomes :
  forall fuel w fc deviceName st,
    (forall tr st',
        getParentalControlData fuel w fc deviceName st = Ret tr st' ->
        exists sid data rest,
          sessionId st' = Some sid
          /\ trace st' = HttpPost "/data.lua" (data_request sid) :: rest
          /\ post_data w (List.length rest) (data_request sid) = inl data
          /\ parseParentalControlData data deviceName = Return tr)
    /\ (forall e st',
          getParentalControlData fuel w fc deviceName st = Throw e st' ->
          (exists e0,
              e = fetch_error e0 /\ Str.includes e0 "session" = false)
          \/ (exists cause i,
                e = auth_error cause /\ rejected w fc i cause
                /\ sessionId st' = None)).
Proof.
  induction fuel as [|fuel IH]; intros w fc deviceName st.
  - split; intros ? ?; discriminate.
  - rewrite getParentalControlData_S. unfold try_catch.
    destruct (attempt w fc deviceName st) as [tr s|e s| |] eqn:A.
    + split; [|intros ? ?; discriminate].
      intros tr' st' [= <- <-]. now apply (attempt_returns w fc deviceName st).
    + destruct (Str.includes e "session") eqn:Hinc.
      * unfold bind, set_sessionId.
        match goal with
        | |- context [getSessionId w fc ?s0] =>
            destruct (Session.getSessionId_cases w fc s0)
              as [(c & s1 & E & R & Hs) | (sid & s1 & E & _)]; rewrite E
        end.
        -- split; [intros ? ?; discriminate|].
           intros e' st' [= <- <-]. right.
           eexists c, _. split; [reflexivity|]. split; [exact R|].
           rewrite Hs. reflexivity.
        -- apply IH.
      * split; [intros ? ?; discriminate|].
        intros e' st' [= <- <-]. left. now exists e.
    + split; intros ? ?; discriminate.
    + split; intros ? ?; discriminate.
Qed.

(** *** When nothing mentions a session *)

(** Where the message of a failure of the [try] block comes from. *)
Lemma attempt_throws w fc deviceName st e st' :
  attempt w fc deviceName st = Throw e st' ->
  (exists cause i, e = auth_error cause /\ rejected w fc i cause)
  \/ (exists n body, post_data w n body = inr e)
  \/ (exists data, parseParentalControlData data deviceName = Raise e).
Proof.
  unfold attempt. unfold bind at 1, get_state at 1. unfold bind at 1.
  assert (Auth :
    match (if no_session (sessionId st)
           then getSessionId w fc ;;; ret tt else ret tt) st with
    | Throw e0 _ => exists cause i, e0 = auth_error cause
                                    /\ rejected w fc i cause
    | Ret _ _ => True
    | _ => False
    end).
  { destruct (no_session (sessionId st)); [|exact I].
    unfold bind.
    destruct (Session.getSessionId_cases w fc st)
      as [(c & s & -> & R & _) | (sid' & s & -> & _)]; [|exact I].
    now exists c, (List.length (trace st)). }
  destruct ((if no_session (sessionId st)
             then getSessionId w fc ;;; ret tt else ret tt) st)
    as [[] s|e0 s| |]; try contradiction.
  - unfold bind at 1, get_state at 1. unfold bind at 1, axios_post.
    unfold bind, get_state, emit. cbn [trace sessionId].
    destruct (post_data w (List.length (trace s)) _) as [data|e1] eqn:P.
    + unfold ret at 1.
      destruct (parseParentalControlData data deviceName) as [t|e2|] eqn:Pa;
        cbn [lift]; try discriminate.
      intros [= <- <-]. right. right. now exists data.
    + intros [= <- <-]. right. left. eauto.
  - intros [= <- <-]. now left.
Qed.

(** The [try] block always completes or throws, for a device name
    whose pattern is covered. *)
Lemma attempt_total w fc deviceName st :
  deviceRegex deviceName <> None ->
  (exists tr st', attempt w fc deviceName st = Ret tr st')
  \/ (exists e st', attempt w fc deviceName st = Throw e st').
Proof.
  intros Hre.
  assert (H : match attempt w fc deviceName st with
              | Ret _ _ | Throw _ _ => True
              | _ => False
              end).
  { unfold attempt. unfold bind at 1, get_state at 1. unfold bind at 1.
    assert (Auth :
      match (if no_session (sessionId st)
             then getSessionId w fc ;;; ret tt else ret tt) st with
      | Ret _ _ | Throw _ _ => True
      | _ => False
      end).
    { destruct (no_session (sessionId st)); [|exact I].
      unfold bind.
      now destruct (Session.getSessionId_cases w fc st)
        as [(c & s & -> & _) | (sid' & s & -> & _)]. }
    destruct ((if no_session (sessionId st)
               then getSessionId w fc ;;; ret tt else ret tt) st)
      as [[] s|e0 s| |]; try contradiction; [|exact I].
    unfold bind at 1, get_state at 1. unfold bind at 1, axios_post.
    unfold bind, get_state, emit. cbn [trace sessionId].
    destruct (post_data w (List.length (trace s)) _) as [data|e1];
      [|exact I].
    unfold ret at 1.
    destruct (parseParentalControlData data deviceName) as [t|e2|] eqn:Pa;
      cbn [lift]; [exact I | exact I |].
    apply parse_not_covered in Pa. contradiction. }
  destruct (attempt w fc deviceName st) as [tr s|e s| |];
    [left | right | |]; eauto; contradiction.
Qed.

Lemma auth_error_session cause :
  Str.includes (auth_error cause) "session" = Str.includes cause "session".
Proof.
  change (auth_error cause)
    with ("Failed to authenticate with Fritz router:" +++ String " " cause).
  now rewrite (includes_across " " "session" eq_refl eq_refl).
Qed.

Section Quiet.

Variable w : World.
Hypothesis quiet_challenge :
  forall n e, get_login w n = inr e -> Str.includes e "session" = false.
Hypothesis quiet_login :
  forall n body e,
    post_login w n body = inr e -> Str.includes e "session" = false.
Hypothesis quiet_data :
  forall n body e,
    post_data w n body = inr e -> Str.includes e "session" = false.

Lemma rejected_quiet fc i cause :
  rejected w fc i cause -> Str.includes cause "session" = false.
Proof.
  intros R. destruct R as [e H|body H1 H2|body cm ch e H1 H2 H3 H4
                           |body cm ch data H1 H2 H3 H4 H5
                           |body cm ch data sm H1 H2 H3 H4 H5 H6];
    try reflexivity; eauto.
Qed.

(** In a world whose transport failures do not mention a session, and for
    a device name that does not either, [getParentalControlData] makes one
    attempt and no more: it completes or throws whatever the budget. *)
Lemma fetch_is_total fc deviceName fuel st :
  Str.includes deviceName "session" = false ->
  deviceRegex deviceName <> None ->
  (exists tr st',
      getParentalControlData (S fuel) w fc deviceName st = Ret tr st')
  \/ (exists e st',
        getParentalControlData (S fuel) w fc deviceName st = Throw e st').
Proof.
  intros Hname Hre. rewrite getParentalControlData_S. unfold try_catch.
  destruct (attempt_total w fc deviceName st Hre)
    as [(tr & s & E) | (e & s & E)]; rewrite E; [left; eauto|].
  right.
  assert (Hq : Str.includes e "session" = false).
  { apply attempt_throws in E
      as [(cause & i & -> & R) | [(n & body & P) | (data & Pa)]].
    - rewrite auth_error_session. now apply (rejected_quiet fc i).
    - now apply (quiet_data n body).
    - destruct (parse_raises _ _ _ Pa) as [-> | ->]; [|reflexivity].
      now rewrite device_not_found_session. }
  rewrite Hq. unfold throw. eauto.
Qed.

End Quiet.

End FetchFacts.

(** ** The loops of the alert manager *)

Module LoopFacts.

Import DatabaseService.
Import SmsService.
Import AlertManager.
Import Protocol.
Import BlockFacts.
Import SelectSpec.
Import SelectFacts.
Import RunSpec.
Import RunFacts.
Import ManagerFacts.
Import LoopSpec.
Import Scenario.

Lemma sms_of_app a b : sms_of (a ++ b) = sms_of b ++ sms_of a.
Proof.
  induction a as [|e a IH]; cbn [List.app sms_of];
    [now rewrite List.app_nil_r|].
  destruct e; rewrite ?IH, ?List.app_assoc; reflexivity.
Qed.

(** Rows for other numbers do not change the answers of the dedup query
    for a number. *)
Lemma was_sent_frame rows more phone day mins :
  Forall (fun row => phoneNumber row <> phone) more ->
  was_sent (rows ++ more) phone day mins = was_sent rows phone day mins.
Proof.
  intros H. unfold was_sent, count_rows. rewrite filter_app, length_app.
  replace (filter (row_matches phone day mins) more) with (@nil AlertLog);
    [cbn; now rewrite Nat.add_0_r|].
  induction H as [|row more Hrow _ IH]; [reflexivity|].
  cbn [filter]. unfold row_matches at 1.
  destruct (String.eqb_spec (phoneNumber row) phone); [contradiction|].
  exact IH.
Qed.


Lemma select_ext rows1 rows2 phone today remaining l :
  (forall mins, was_sent rows1 phone today mins
                = was_sent rows2 phone today mins) ->
  select rows1 phone today remaining l = select rows2 phone today remaining l.
Proof.
  intros H. unfold select. f_equal.
  induction l as [|x l IH]; [reflexivity|].
  cbn [find]. unfold eligible at 1 3. rewrite H.
  destruct (_ && _); [reflexivity | exact IH].
Qed.

Lemma wanted_frame rows more today remaining nc :
  Forall (fun row => phoneNumber row <> number nc) more ->
  wanted (rows ++ more) today remaining nc = wanted rows today remaining nc.
Proof.
  intros H. unfold wanted.
  rewrite (select_ext (rows ++ more) rows); [reflexivity|].
  intros mins. now apply was_sent_frame.
Qed.

(** One call of [processAlertsForNumber]. *)
Lemma process_effect w nc tr today st :
  exists st' added more,
    processAlertsForNumber w nc tr today st = Ret tt st'
    /\ trace st' = added ++ trace st
    /\ map to_body (sms_of added)
       = wanted (alert_logs st) today (remainingMinutes tr) nc
    /\ alert_logs st' = alert_logs st ++ more
    /\ Forall (fun row =>
                 phoneNumber row = number nc /\ date row = today
                 /\ Num.leb (remainingMinutes tr) (Int (alert_minutes row))
                    = true) more
    /\ map event (system_logs st')
       = map event (system_logs st) ++ map outcome_event (sms_of added)
    /\ sessionId st' = sessionId st.
Proof.
  destruct (process_run (fun _ _ _ => True) w nc tr today st)
    as (qs & E & _ & _ & Sq & _).
  unfold wanted.
  destruct (select _ _ _ _ _) as [[body m]|] eqn:F.
  - apply select_some in F as (rule & _ & _ & _ & Hle & _).
    unfold process_result in E.
    destruct (Str.truthy body).
    + destruct (twilio_create w _ _ _).
      * eexists _, (_ :: _ :: qs), [_]. split; [exact E|].
        split; [reflexivity|].
        cbn [trace alert_logs system_logs sessionId List.app sms_of].
        rewrite Sq. cbn [List.app map to_body fst snd].
        split; [reflexivity|]. split; [reflexivity|].
        split; [repeat constructor; exact Hle|].
        split; [|reflexivity]. now rewrite map_app.
      * eexists _, (_ :: qs), []. split; [exact E|].
        split; [reflexivity|].
        cbn [trace alert_logs system_logs sessionId List.app sms_of].
        rewrite Sq, List.app_nil_r. cbn [List.app map to_body fst snd].
        split; [reflexivity|]. split; [reflexivity|].
        split; [constructor|].
        split; [|reflexivity]. now rewrite map_app.
    + eexists _, qs, []. split; [exact E|].
      cbn [trace alert_logs system_logs sessionId with_trace].
      rewrite Sq, !List.app_nil_r. repeat split; auto.
  - unfold process_result in E.
    eexists _, qs, []. split; [exact E|].
    cbn [trace alert_logs system_logs sessionId with_trace].
    rewrite Sq, !List.app_nil_r. repeat split; auto.
Qed.

Lemma flat_map_ext_in {A B} (f g : A -> list B) l :
  (forall x, In x l -> f x = g x) -> flat_map f l = flat_map g l.
Proof.
  induction l as [|x l IH]; intros H; [reflexivity|].
  cbn [flat_map]. rewrite (H x (or_introl eq_refl)), IH; [reflexivity|].
  intros y Hy. apply H. now right.
Qed.

(** The loop of [checkAndAlert] over the numbers. *)
Lemma process_loop w tr today :
  forall numbers st,
  exists st' added more,
    for_each numbers
      (fun numberConfig =>
         processAlertsForNumber w numberConfig tr today) st
    = Ret tt st'
    /\ trace st' = added ++ trace st
    /\ alert_logs st' = alert_logs st ++ more
    /\ Forall (fun row =>
                 In (phoneNumber row) (map number numbers)
                 /\ date row = today
                 /\ Num.leb (remainingMinutes tr) (Int (alert_minutes row))
                    = true) more
    /\ map event (system_logs st')
       = map event (system_logs st) ++ map outcome_event (sms_of added)
    /\ sessionId st' = sessionId st
    /\ List.length (sms_of added) <= List.length numbers
    /\ (NoDup (map number numbers) ->
        map to_body (sms_of added)
        = flat_map (wanted (alert_logs st) today (remainingMinutes tr))
                   numbers).
Proof.
  induction numbers as [|nc rest IH]; intros st.
  - exists st, [], []. cbn. rewrite !List.app_nil_r. repeat split; auto.
  - cbn [for_each]. unfold bind.
    destruct (process_effect w nc tr today st)
      as (st1 & added1 & more1 & -> & T1 & W1 & L1 & F1 & S1 & I1).
    destruct (IH st1)
      as (st2 & added2 & more2 & -> & T2 & L2 & F2 & S2 & I2 & N2 & W2).
    exists st2, (added2 ++ added1), (more1 ++ more2).
    split; [reflexivity|].
    split; [rewrite T2, T1; now rewrite List.app_assoc|].
    split; [rewrite L2, L1; now rewrite List.app_assoc|].
    split.
    { apply Forall_app. split.
      - eapply Forall_impl; [|exact F1]. cbn. intros row (-> & ? & ?).
        repeat split; auto.
      - eapply Forall_impl; [|exact F2]. cbn. intros row (? & ? & ?).
        repeat split; auto. }
    split.
    { rewrite S2, S1, sms_of_app, map_app. now rewrite List.app_assoc. }
    split; [congruence|].
    split.
    { rewrite sms_of_app, length_app. cbn [List.length].
      assert (List.length (sms_of added1) <= 1).
      { rewrite <- (length_map to_body), W1. unfold wanted.
        destruct (select _ _ _ _ _) as [[b m]|]; [|cbn; lia].
        destruct (Str.truthy b); cbn; lia. }
      lia. }
    intros Hnd. cbn [map] in Hnd. inversion Hnd as [|? ? Hnotin Hnd']; subst.
    rewrite sms_of_app, map_app, W1, (W2 Hnd'). cbn [flat_map]. f_equal.
    apply flat_map_ext_in. intros nc' Hin. rewrite L1.
    apply wanted_frame.
    eapply Forall_impl; [|exact F1]. cbn. intros row (-> & _) Heq.
    apply Hnotin. rewrite Heq. now apply in_map.
Qed.

(** X6.  The loop over the numbers always completes, and what it sends to a
    number is decided by the rows of the table at the start of the loop and
    the rules of that number alone, when no two entries have the same
    number: the texts go out in the order of the configuration, one at most
    per entry, whatever the gateway answered for the entries before. *)
Theorem destinations_are_independent :
  forall w timeRemaining today numbers st,
    NoDup (map number numbers) ->
    exists st' added,
      for_each numbers
        (fun numberConfig =>
           processAlertsForNumber w numberConfig timeRemaining today) st
      = Ret tt st'
      /\ trace st' = added ++ trace st
      /\ map to_body (sms_of added)
         = flat_map (wanted (alert_logs st) today
                            (remainingMinutes timeRemaining)) numbers.
Proof.
  intros w tr today numbers st Hnd.
  destruct (process_loop w tr today numbers st)
    as (st' & added & more & E & T & _ & _ & _ & _ & _ & W).
  exists st', added. split; [exact E|]. split; [exact T|]. now apply W.
Qed.

(** Two numbers, 18 minutes left, nothing sent yet: each is sent the text
    of its own rule. *)
Lemma destinations_are_independent_witness :
  exists st' added,
    for_each [parent; mkNumberConfig "+442" false [mkMessageConfig 20 "soon"]]
      (fun numberConfig =>
         processAlertsForNumber steady numberConfig
           (mkTimeRemaining "01:42" "02:00" (Int 18) false) "2024-05-01")
      initial_state
    = Ret tt st'
    /\ trace st' = added ++ trace initial_state
    /\ map to_body (sms_of added) = [("+441", "30 left"); ("+442", "soon")].
Proof.
  apply (destinations_are_independent steady
           (mkTimeRemaining "01:42" "02:00" (Int 18) false) "2024-05-01"
           [parent; mkNumberConfig "+442" false [mkMessageConfig 20 "soon"]]
           initial_state).
  repeat constructor; cbn; intuition discriminate.
Defined.


(** A check in which the usage data are had. *)
Lemma successful_run :
  forall fuel w fc config st timeRemaining s2,
    get_root w (List.length (trace st)) = Some 200 ->
    Fritz.getParentalControlData fuel w fc (fritz_device_name config)
      (mkState (sessionId st) (alert_logs st)
         (system_logs st
          ++ [mkSystemLog "check_start" "Starting network time check"
                          (clock w (clock_reads st)) "info"])
         (S (clock_reads st)) (HttpGet "/" :: trace st))
    = Ret timeRemaining s2 ->
    exists st' added more,
      checkAndAlert fuel w fc config st = Ret tt st'
      /\ trace st' = added ++ trace s2
      /\ map event (system_logs st')
         = map event (system_logs st)
           ++ ["check_start"; "time_check"] ++ map outcome_event (sms_of added)
      /\ List.length (sms_of added) <= List.length (NumbersToSMS config)
      /\ alert_logs st' = alert_logs st ++ more
      /\ Forall (fun row => (0 <= alert_minutes row)%Z) more.
Proof.
  intros fuel w fc config st tr s2 Hroot Hfetch.
  set (now_ := clock w (clock_reads st)) in *.
  set (s1 := mkState _ _ _ _ _) in Hfetch.
  pose proof (fetch_getParentalControlData w fc (fritz_device_name config)
                                           fuel s1) as F.
  rewrite Hfetch in F. destruct F as [(_ & _ & _ & Ha & Hs & _) Hnn].
  set (s3 := mkState (sessionId s2) (alert_logs s2)
               (system_logs s2
                ++ [mkSystemLog "time_check"
                      ("Time remaining: "
                       +++ Num.to_string (remainingMinutes tr)
                       +++ " minutes (" +++ used tr +++ "/" +++ total tr
                       +++ ")") now_ "info"])
               (clock_reads s2) (trace s2)).
  destruct (process_loop w tr (day_of now_) (NumbersToSMS config) s3)
    as (st' & added & more & E & T & L & Fm & Sl & _ & N & _).
  exists st', added, more. split; [|split; [exact T|split; [|split;
    [exact N|split]]]].
  - unfold checkAndAlert, bind at 1, newDateISO at 1, try_catch.
    unfold bind at 1, logSystem at 1.
    unfold bind at 1, Fritz.testConnection at 1.
    unfold bind at 1 2 3, get_state, emit, ret.
    cbn [trace sessionId alert_logs system_logs clock_reads].
    rewrite Hroot. cbn [Nat.eqb negb].
    unfold bind at 1. fold now_. fold s1. rewrite Hfetch.
    unfold bind at 1, logSystem. fold s3. rewrite E. reflexivity.
  - rewrite Sl. unfold s3. cbn [system_logs]. rewrite Hs. unfold s1.
    cbn [system_logs]. rewrite !map_app. cbn [map event].
    now rewrite <- !List.app_assoc.
  - rewrite L. unfold s3. cbn [alert_logs]. rewrite Ha. reflexivity.
  - eapply Forall_impl; [|exact Fm]. cbn. intros row (_ & _ & Hle).
    destruct (remainingMinutes tr) as [z|]; [|discriminate].
    cbn in Hnn, Hle. apply Z.leb_le in Hle. lia.
Qed.

(** X7.  A check in which the router answers and the usage data are had
    always completes, and never enters the connectivity path: after
    [check_start] and [time_check] the system log gets one event per text
    that was tried, [alert_sent] or [alert_failed], and nothing else; no
    more texts are tried than there are configured entries; and every row
    added has a threshold that is not negative, so none has the key [-1]. *)
Theorem successful_check :
  forall fuel w fc config st timeRemaining s2,
    get_root w (List.length (trace st)) = Some 200 ->
    Fritz.getParentalControlData fuel w fc (fritz_device_name config)
      (mkState (sessionId st) (alert_logs st)
         (system_logs st
          ++ [mkSystemLog "check_start" "Starting network time check"
                          (clock w (clock_reads st)) "info"])
         (S (clock_reads st)) (HttpGet "/" :: trace st))
    = Ret timeRemaining s2 ->
    exists st' added more,
      checkAndAlert fuel w fc config st = Ret tt st'
      /\ trace st' = added ++ trace s2
      /\ map event (system_logs st')
         = map event (system_logs st)
           ++ ["check_start"; "time_check"] ++ map outcome_event (sms_of added)
      /\ List.length (sms_of added) <= List.length (NumbersToSMS config)
      /\ alert_logs st' = alert_logs st ++ more
      /\ Forall (fun row => (0 <= alert_minutes row)%Z) more.
Proof.
  intros fuel w fc config st tr s2 Hroot Hfetch.
  destruct (successful_run fuel w fc config st tr s2 Hroot Hfetch)
    as (st' & added & more & H).
  now exists st', added, more.
Qed.

Lemma successful_check_witness :
  exists st' added more,
    checkAndAlert 1 steady client (config "Leos-11") initial_state
    = Ret tt st'
    /\ map event (system_logs st')
       = ["check_start"; "time_check"] ++ map outcome_event (sms_of added)
    /\ List.length (sms_of added) <= 1
    /\ alert_logs st' = more
    /\ Forall (fun row => (0 <= alert_minutes row)%Z) more.
Proof.
  edestruct (successful_check 1 steady client (config "Leos-11")
                              initial_state)
    as (st' & added & more & E & _ & L & N & A & F);
    [reflexivity | vm_compute; reflexivity |].
  exists st', added, more. repeat split; assumption.
Defined.





(** *** The connectivity path *)

(** One turn of the loop of [handleFritzConnectionError]. *)
Lemma alertAdmin_effect w today admin st :
  exists added more,
    trace (alertAdmin_result w today admin st) = added ++ trace st
    /\ alert_logs (alertAdmin_result w today admin st)
       = alert_logs st ++ more
    /\ Forall (fun row => phoneNumber row = number admin) more
    /\ system_logs (alertAdmin_result w today admin st) = system_logs st
    /\ sessionId (alertAdmin_result w today admin st) = sessionId st
    /\ Forall (fun e => ~ is_http e) added
    /\ Forall (fun x => snd (fst x) = connection_error_message)
              (sms_of added)
    /\ map (fun x => fst (fst x)) (sms_of added)
       = (if to_alert (alert_logs st) today admin then [number admin]
          else []).
Proof.
  unfold alertAdmin_result, to_alert.
  destruct (was_sent _ _ _ _); cbn [negb].
  - eexists [_], []. split; [reflexivity|]. cbn. rewrite List.app_nil_r.
    repeat split; auto; repeat constructor; auto.
  - destruct (twilio_create _ _ _ _).
    + eexists [_; _; _], [_]. split; [reflexivity|]. cbn.
      repeat split; auto; repeat constructor; auto.
    + eexists [_; _], []. split; [reflexivity|]. cbn.
      rewrite List.app_nil_r.
      repeat split; auto; repeat constructor; auto.
Qed.

Lemma admins_loop w today :
  forall l st,
  exists st' added more,
    for_each l (alertAdmin w today) st = Ret tt st'
    /\ trace st' = added ++ trace st
    /\ alert_logs st' = alert_logs st ++ more
    /\ Forall (fun row => In (phoneNumber row) (map number l)) more
    /\ system_logs st' = system_logs st
    /\ sessionId st' = sessionId st
    /\ Forall (fun e => ~ is_http e) added
    /\ Forall (fun x => snd (fst x) = connection_error_message)
              (sms_of added)
    /\ (NoDup (map number l) ->
        map (fun x => fst (fst x)) (sms_of added)
        = map number (filter (to_alert (alert_logs st) today) l)).
Proof.
  induction l as [|a l IH]; intros st.
  - exists st, [], []. cbn. rewrite List.app_nil_r. repeat split; auto.
  - cbn [for_each]. unfold bind. rewrite alertAdmin_run.
    destruct (alertAdmin_effect w today a st)
      as (added1 & more1 & T1 & L1 & F1 & S1 & I1 & H1 & B1 & W1).
    destruct (IH (alertAdmin_result w today a st))
      as (st2 & added2 & more2 & -> & T2 & L2 & F2 & S2 & I2 & H2 & B2 & W2).
    exists st2, (added2 ++ added1), (more1 ++ more2).
    split; [reflexivity|].
    split; [rewrite T2, T1; now rewrite List.app_assoc|].
    split; [rewrite L2, L1; now rewrite List.app_assoc|].
    split.
    { apply Forall_app. split.
      - eapply Forall_impl; [|exact F1]. cbn. intros row ->. now left.
      - eapply Forall_impl; [|exact F2]. cbn. intros row ?. now right. }
    split; [congruence|]. split; [congruence|].
    split; [apply Forall_app; now split|].
    split; [rewrite sms_of_app; apply Forall_app; now split|].
    intros Hnd. cbn [map] in Hnd. inversion Hnd as [|? ? Hnotin Hnd']; subst.
    rewrite sms_of_app, map_app, W1, (W2 Hnd'). cbn [filter].
    assert (Hrest : filter (to_alert (alert_logs (alertAdmin_result w today
                                                                    a st))
                                     today) l
                    = filter (to_alert (alert_logs st) today) l).
    { apply filter_ext_in. intros a' Hin. unfold to_alert. rewrite L1.
      rewrite was_sent_frame; [reflexivity|].
      eapply Forall_impl; [|exact F1]. cbn. intros row -> Heq.
      apply Hnotin. rewrite Heq. now apply in_map. }
    rewrite Hrest. now destruct (to_alert (alert_logs st) today a).
Qed.

(** X9.  [handleFritzConnectionError] always completes.  When no two
    administrators have the same number, it tries the connection text once
    for each administrator who has no row of key [-1] for the day, in the
    order of the configuration and whatever the gateway answered for the
    ones before, and for no one else.  It makes no request to the router,
    and it adds one row to the system log, [fritz_connection_error], whether
    or not a text went out. *)
Theorem every_admin_is_tried_once :
  forall w config st,
    NoDup (map number (filter isAdmin (NumbersToSMS config))) ->
    exists st' added ts,
      handleFritzConnectionError w config st = Ret tt st'
      /\ trace st' = added ++ trace st
      /\ map (fun x => fst (fst x)) (sms_of added)
         = map number
             (filter (to_alert (alert_logs st)
                               (day_of (clock w (clock_reads st))))
                     (filter isAdmin (NumbersToSMS config)))
      /\ Forall (fun x => snd (fst x) = connection_error_message)
                (sms_of added)
      /\ Forall (fun e => ~ is_http e) added
      /\ system_logs st'
         = system_logs st
           ++ [mkSystemLog "fritz_connection_error"
                           "Cannot connect to Fritz router" ts "error"].
Proof.
  intros w config st Hnd.
  unfold handleFritzConnectionError, bind at 1, newDateISO at 1.
  set (s1 := mkState _ _ _ (S (clock_reads st)) _).
  destruct (admins_loop w (day_of (clock w (clock_reads st)))
              (filter isAdmin (NumbersToSMS config)) s1)
    as (s2 & added & more & E & T & _ & _ & S2 & _ & H2 & B2 & W2).
  unfold bind at 1. rewrite E. unfold bind, newDateISO, logSystem.
  do 3 eexists. split; [reflexivity|].
  cbn [trace system_logs].
  split; [exact T|]. split; [exact (W2 Hnd)|].
  split; [exact B2|]. split; [exact H2|]. now rewrite S2.
Qed.

Lemma every_admin_is_tried_once_witness :
  exists st' added ts,
    handleFritzConnectionError unreachable (config "Leos-11") initial_state
    = Ret tt st'
    /\ map (fun x => fst (fst x)) (sms_of added) = ["+441"]
    /\ system_logs st'
       = [mkSystemLog "fritz_connection_error"
                      "Cannot connect to Fritz router" ts "error"].
Proof.
  edestruct (every_admin_is_tried_once unreachable (config "Leos-11")
                                       initial_state)
    as (st' & added & ts & E & _ & W & _ & _ & L);
    [repeat constructor; cbn; intuition|].
  exists st', added, ts. repeat split; assumption.
Defined.


(** A check in which the router does not answer. *)
Lemma unreachable_run :
  forall fuel w fc config st,
    get_root w (List.length (trace st)) <> Some 200 ->
    exists st' added,
      checkAndAlert fuel w fc config st = Ret tt st'
      /\ trace st' = added ++ HttpGet "/" :: trace st
      /\ Forall (fun e => ~ is_http e) added
      /\ sessionId st' = sessionId st
      /\ map event (system_logs st')
         = map event (system_logs st)
           ++ ["check_start"; "fritz_connection_error"].
Proof.
  intros fuel w fc config st Hroot.
  unfold checkAndAlert, bind at 1, newDateISO at 1, try_catch.
  unfold bind at 1, logSystem at 1.
  unfold bind at 1, Fritz.testConnection at 1.
  unfold bind at 1 2 3, get_state, emit, ret.
  cbn [trace sessionId alert_logs system_logs clock_reads].
  assert (Hno : match get_root w (List.length (trace st)) with
                | Some status => (status =? 200)%nat
                | None => false
                end = false).
  { destruct (get_root w _) as [status|]; [|reflexivity].
    destruct (Nat.eqb_spec status 200) as [->|]; [now destruct Hroot|].
    reflexivity. }
  rewrite Hno. cbn [negb].
  set (s1 := mkState _ _ _ _ (HttpGet "/" :: trace st)).
  unfold handleFritzConnectionError, bind at 1, newDateISO at 1.
  set (s2 := mkState _ _ _ (S (clock_reads s1)) _).
  destruct (admins_loop w (day_of (clock w (clock_reads s1)))
              (filter isAdmin (NumbersToSMS config)) s2)
    as (s3 & added & more & E & T & _ & _ & S3 & I3 & H3 & _).
  unfold bind at 1. rewrite E. unfold bind, newDateISO, logSystem.
  do 2 eexists. split; [reflexivity|].
  cbn [trace system_logs sessionId].
  split; [exact T|]. split; [exact H3|]. split; [exact I3|].
  rewrite S3. unfold s2, s1. cbn [system_logs].
  rewrite !map_app. cbn [map event]. now rewrite <- !List.app_assoc.
Qed.

(** X10.  When the router does not answer [GET /] with status 200, the check
    makes no other request to the router (no login, no usage request),
    whatever the recursion budget; it completes on the connectivity path,
    leaves the stored session as it was, and logs [check_start] and
    [fritz_connection_error], and no [check_error]. *)
Theorem unreachable_router_check :
  forall fuel w fc config st,
    get_root w (List.length (trace st)) <> Some 200 ->
    exists st' added,
      checkAndAlert fuel w fc config st = Ret tt st'
      /\ trace st' = added ++ HttpGet "/" :: trace st
      /\ Forall (fun e => ~ is_http e) added
      /\ sessionId st' = sessionId st
      /\ map event (system_logs st')
         = map event (system_logs st)
           ++ ["check_start"; "fritz_connection_error"].
Proof.
  intros fuel w fc config st Hroot.
  destruct (unreachable_run fuel w fc config st Hroot)
    as (st' & added & H).
  now exists st', added.
Qed.

Lemma unreachable_router_check_witness :
  exists st' added,
    checkAndAlert 0 unreachable client (config "Leos-11") initial_state
    = Ret tt st'
    /\ trace st' = added ++ [HttpGet "/"]
    /\ Forall (fun e => ~ is_http e) added
    /\ map event (system_logs st')
       = ["check_start"; "fritz_connection_error"].
Proof.
  edestruct (unreachable_router_check 0 unreachable client
                                      (config "Leos-11") initial_state)
    as (st' & added & E & T & H & _ & L); [discriminate|].
  exists st', added. repeat split; assumption.
Defined.


(** *** Every check *)

(** The state in which the router is asked for the usage data. *)
Lemma check_cases fuel w fc config st :
  let s1 :=
    mkState (sessionId st) (alert_logs st)
      (system_logs st
       ++ [mkSystemLog "check_start" "Starting network time check"
                       (clock w (clock_reads st)) "info"])
      (S (clock_reads st)) (HttpGet "/" :: trace st) in
  (exists st' sends,
      checkAndAlert fuel w fc config st = Ret tt st'
      /\ ((get_root w (List.length (trace st)) <> Some 200
           /\ map event (system_logs st')
              = map event (system_logs st)
                ++ ["check_start"; "fritz_connection_error"])
          \/ (get_root w (List.length (trace st)) = Some 200
              /\ (exists e s2,
                     Fritz.getParentalControlData fuel w fc
                       (fritz_device_name config) s1 = Throw e s2)
              /\ map event (system_logs st')
                 = map event (system_logs st)
                   ++ ["check_start"; "check_error";
                       "fritz_connection_error"])
          \/ (get_root w (List.length (trace st)) = Some 200
              /\ (exists tr s2,
                     Fritz.getParentalControlData fuel w fc
                       (fritz_device_name config) s1 = Ret tr s2)
              /\ List.length sends <= List.length (NumbersToSMS config)
              /\ map event (system_logs st')
                 = map event (system_logs st)
                   ++ ["check_start"; "time_check"]
                   ++ map outcome_event sends)))
  \/ (get_root w (List.length (trace st)) = Some 200
      /\ checkAndAlert fuel w fc config st = Diverge
      /\ Fritz.getParentalControlData fuel w fc (fritz_device_name config) s1
         = Diverge)
  \/ (get_root w (List.length (trace st)) = Some 200
      /\ checkAndAlert fuel w fc config st = Unmodelled
      /\ Fritz.getParentalControlData fuel w fc (fritz_device_name config) s1
         = Unmodelled).
Proof.
  intros s1.
  assert (D : get_root w (List.length (trace st)) = Some 200
              \/ get_root w (List.length (trace st)) <> Some 200).
  { destruct (get_root w _) as [status|]; [|right; discriminate].
    destruct (Nat.eq_dec status 200) as [->|]; [now left|].
    right. congruence. }
  destruct D as [Hroot|Hroot].
  - destruct (Fritz.getParentalControlData fuel w fc
                (fritz_device_name config) s1) as [tr s2|e s2| |] eqn:F.
    + left.
      destruct (successful_run fuel w fc config st tr s2 Hroot F)
        as (st' & added & more & E & _ & L & N & _).
      exists st', (sms_of added). split; [exact E|].
      right. right. split; [exact Hroot|]. split; [eauto|]. now split.
    + left.
      destruct (failure_routes_to_connectivity fuel w fc config st e s2
                  Hroot F) as (st' & E & _ & L).
      exists st', []. split; [exact E|].
      right. left. split; [exact Hroot|]. split; [eauto | exact L].
    + right. left. split; [exact Hroot|]. split; [|reflexivity].
      unfold checkAndAlert, bind at 1, newDateISO at 1, try_catch.
      unfold bind at 1, logSystem at 1.
      unfold bind at 1, Fritz.testConnection at 1.
      unfold bind at 1 2 3, get_state, emit, ret.
      cbn [trace sessionId alert_logs system_logs clock_reads].
      rewrite Hroot. cbn [Nat.eqb negb].
      unfold bind at 1. fold s1. rewrite F. reflexivity.
    + right. right. split; [exact Hroot|]. split; [|reflexivity].
      unfold checkAndAlert, bind at 1, newDateISO at 1, try_catch.
      unfold bind at 1, logSystem at 1.
      unfold bind at 1, Fritz.testConnection at 1.
      unfold bind at 1 2 3, get_state, emit, ret.
      cbn [trace sessionId alert_logs system_logs clock_reads].
      rewrite Hroot. cbn [Nat.eqb negb].
      unfold bind at 1. fold s1. rewrite F. reflexivity.
  - left.
    destruct (unreachable_run fuel w fc config st Hroot)
      as (st' & added & E & _ & _ & _ & L).
    exists st', []. split; [exact E|]. left. now split.
Qed.

(** X11.  A check never lets an exception out, and the rows that a completed
    check adds to the system log have one of three forms: [check_start] and
    [fritz_connection_error] when the router does not answer; [check_start],
    [check_error] and [fritz_connection_error] when the usage data cannot be
    had; [check_start], [time_check] and one [alert_sent] or [alert_failed]
    per text tried, no more of them than there are configured entries,
    otherwise.  So no check both reads the usage and reports a connection
    failure. *)
Theorem check_log_shapes :
  forall fuel w fc config st,
    (forall e st', checkAndAlert fuel w fc config st <> Throw e st')
    /\ forall st',
        checkAndAlert fuel w fc config st = Ret tt st' ->
        exists tail,
          map event (system_logs st')
          = map event (system_logs st) ++ "check_start" :: tail
          /\ (tail = ["fritz_connection_error"]
              \/ tail = ["check_error"; "fritz_connection_error"]
              \/ exists sends,
                  tail = "time_check" :: map outcome_event sends
                  /\ List.length sends
                     <= List.length (NumbersToSMS config)).
Proof.
  intros fuel w fc config st.
  split; [intros e st'; apply checkAndAlert_never_throws|].
  intros st' H.
  destruct (check_cases fuel w fc config st)
    as [(st1 & sends & E & C) | [(_ & E & _) | (_ & E & _)]];
    [|congruence..].
  rewrite E in H. injection H as <-.
  destruct C as [(_ & L) | [(_ & _ & L) | (_ & _ & N & L)]].
  - exists ["fritz_connection_error"]. split; [exact L | now left].
  - exists ["check_error"; "fritz_connection_error"].
    split; [exact L | right; now left].
  - exists ("time_check" :: map outcome_event sends).
    split; [exact L|]. right. right. now exists sends.
Qed.

(** X12.  In a world whose transport failures never mention a session, and
    for a device name that does not either and that is pattern text of the
    covered kind (ordinary characters and [.], each followed by at most one
    of [*], [+] and [?]; for any other name [deviceRegex] is [None] and
    nothing is said), every check completes, whatever the budget of
    recursion above zero: the retry of [getParentalControlData] is never
    entered. *)
Theorem check_completes_without_session :
  forall fuel w fc config st,
    (forall n e, get_login w n = inr e -> Str.includes e "session" = false) ->
    (forall n body e,
        post_login w n body = inr e -> Str.includes e "session" = false) ->
    (forall n body e,
        post_data w n body = inr e -> Str.includes e "session" = false) ->
    Str.includes (fritz_device_name config) "session" = false ->
    Fritz.deviceRegex (fritz_device_name config) <> None ->
    exists st', checkAndAlert (S fuel) w fc config st = Ret tt st'.
Proof.
  intros fuel w fc config st Q1 Q2 Q3 Hname Hre.
  destruct (check_cases (S fuel) w fc config st)
    as [(st1 & sends & E & _) | [(_ & _ & F) | (_ & _ & F)]];
    [now exists st1 | exfalso..];
    destruct (FetchFacts.fetch_is_total w Q1 Q2 Q3 fc
                (fritz_device_name config) fuel
                (mkState (sessionId st) (alert_logs st)
                   (system_logs st
                    ++ [mkSystemLog "check_start"
                          "Starting network time check"
                          (clock w (clock_reads st)) "info"])
                   (S (clock_reads st)) (HttpGet "/" :: trace st))
                Hname Hre)
      as [(tr & s2 & F') | (e & s2 & F')]; congruence.
Qed.

Lemma check_completes_without_session_witness :
  exists st',
    checkAndAlert 1 steady client (config "Leos-11") initial_state
    = Ret tt st'.
Proof.
  apply (check_completes_without_session 0 steady client (config "Leos-11")
           initial_state); try discriminate; reflexivity.
Defined.

End LoopFacts.

(** ** The escalation of alerts over the checks *)

Module EscalationFacts.

Import DatabaseService.
Import SmsService.
Import AlertManager.
Import Protocol.
Import LogicFacts.
Import BlockFacts.
Import SelectSpec.
Import SelectFacts.
Import RunSpec.
Import RunFacts.
Import ManagerFacts.
Import LoopFacts.
Import Escalation.
Import Scenario.

(** *** The table grows *)

Lemma grows_trans config a b c :
  grows config a b -> grows config b c -> grows config a c.
Proof.
  intros Hab Hbc. induction Hbc; [exact Hab | |].
  - now apply grows_admin.
  - now apply (grows_rule config a _ numberConfig r).
Qed.

Section Grow.
Variable config : Config.

Lemma grow_refl st : grow config st st.
Proof. apply grows_refl. Qed.

Lemma grow_trans a b c : grow config a b -> grow config b c -> grow config a c.
Proof. apply grows_trans. Qed.

Lemma grow_same st st' : alert_logs st' = alert_logs st -> grow config st st'.
Proof. unfold grow. intros ->. apply grows_refl. Qed.

Lemma grow_fetches st st' : fetches st st' -> grow config st st'.
Proof. intros (_ & _ & _ & H & _). now apply grow_same. Qed.

Lemma grow_process w numberConfig timeRemaining today :
  In numberConfig (NumbersToSMS config) ->
  nonneg (remainingMinutes timeRemaining) ->
  triple (grow config)
         (processAlertsForNumber w numberConfig timeRemaining today)
         (fun _ => True).
Proof.
  intros Hin Hn st.
  destruct (process_run (fun _ _ _ => True) w numberConfig timeRemaining
                        today st) as (qs & E & _).
  rewrite E. split; [|exact I]. unfold process_result.
  destruct (select _ _ _ _ _) as [[body m]|] eqn:Sel;
    [|now apply grow_same].
  destruct (Str.truthy body); [|now apply grow_same].
  destruct (twilio_create w _ _ _); [|now apply grow_same].
  unfold grow. cbn [alert_logs].
  pose proof Sel as Sel'.
  apply select_some in Sel' as (_ & _ & _ & _ & Hle & _).
  destruct (remainingMinutes timeRemaining) as [r|] eqn:Hr;
    [|discriminate].
  apply (grows_rule config _ _ numberConfig r); auto. apply grows_refl.
Qed.

Lemma grow_alertAdmin w today admin st :
  grow config st (alertAdmin_result w today admin st).
Proof.
  unfold alertAdmin_result.
  destruct (was_sent _ _ _ _); [now apply grow_same|].
  destruct (twilio_create _ _ _ _); [|now apply grow_same].
  unfold grow. cbn [alert_logs]. apply grows_admin, grows_refl.
Qed.

Lemma grow_newDateISO w : triple (grow config) (newDateISO w) (fun _ => True).
Proof. intros st. cbn. split; [now apply grow_same | exact I]. Qed.

Lemma grow_logSystem l : triple (grow config) (logSystem l) (fun _ => True).
Proof. intros st. cbn. split; [now apply grow_same | exact I]. Qed.

Lemma grow_handle w :
  triple (grow config) (handleFritzConnectionError w config) (fun _ => True).
Proof.
  unfold handleFritzConnectionError.
  eapply triple_bind; [exact grow_trans | apply grow_newDateISO |].
  intros now_ _.
  eapply triple_bind with (Q := fun _ => True); [exact grow_trans | |].
  { apply triple_for_each; [exact grow_refl | exact grow_trans |].
    intros a _ st. rewrite alertAdmin_run. split; [|exact I].
    apply grow_alertAdmin. }
  intros _ _.
  eapply triple_bind; [exact grow_trans | apply grow_newDateISO |].
  intros ts _. apply grow_logSystem.
Qed.

Lemma grow_checkAndAlert fuel w fc :
  triple (grow config) (checkAndAlert fuel w fc config) (fun _ => True).
Proof.
  unfold checkAndAlert.
  eapply triple_bind; [exact grow_trans | apply grow_newDateISO |].
  intros now_ _.
  apply triple_try_catch; [exact grow_trans | |].
  - eapply triple_bind; [exact grow_trans | apply grow_logSystem |].
    intros _ _.
    eapply triple_bind with (Q := fun _ => True); [exact grow_trans | |].
    { eapply triple_mono; [|apply fetch_testConnection].
      exact grow_fetches. }
    intros ok _. destruct ok; cbn [negb]; [|apply grow_handle].
    eapply triple_bind
      with (Q := fun tr => nonneg (remainingMinutes tr));
      [exact grow_trans | |].
    { eapply triple_mono; [|apply fetch_getParentalControlData].
      exact grow_fetches. }
    intros tr Htr.
    eapply triple_bind; [exact grow_trans | apply grow_logSystem |].
    intros _ _.
    apply triple_for_each; [exact grow_refl | exact grow_trans |].
    intros nc Hin. now apply grow_process.
  - intros e.
    eapply triple_bind; [exact grow_trans | apply grow_logSystem |].
    intros _ _. apply grow_handle.
Qed.

Lemma history_grows fc st0 st :
  history fc config st0 st -> grow config st0 st.
Proof.
  induction 1 as [|fuel w st st' H IH E]; [apply grow_refl|].
  pose proof (grow_checkAndAlert fuel w fc st) as T. rewrite E in T.
  destruct T as [T _]. eapply grow_trans; eassumption.
Qed.

End Grow.

(** *** What the growth keeps *)

Lemma was_sent_snoc rows row phone day mins :
  was_sent (rows ++ [row]) phone day mins
  = row_matches phone day mins row || was_sent rows phone day mins.
Proof.
  unfold was_sent, count_rows. rewrite filter_app, length_app.
  cbn [filter]. destruct (row_matches phone day mins row);
    cbn [List.length orb].
  - apply Nat.ltb_lt. lia.
  - now rewrite Nat.add_0_r.
Qed.

Lemma was_sent_In rows a :
  In a rows ->
  was_sent rows (phoneNumber a) (date a) (alert_minutes a) = true.
Proof.
  intros H. unfold was_sent, count_rows. apply Nat.ltb_lt.
  assert (Hin : In a (filter (row_matches (phoneNumber a) (date a)
                                          (alert_minutes a)) rows)).
  { apply filter_In. split; [exact H|]. unfold row_matches.
    now rewrite !String.eqb_refl, Z.eqb_refl. }
  destruct (filter _ rows); [destruct Hin | cbn; lia].
Qed.

Lemma row_matches_iff phone day mins a :
  row_matches phone day mins a = true
  <-> phoneNumber a = phone /\ date a = day /\ alert_minutes a = mins.
Proof.
  unfold row_matches.
  rewrite !andb_true_iff, !String.eqb_eq, Z.eqb_eq. tauto.
Qed.

Lemma ForallOrdPairs_snoc {A} (R : A -> A -> Prop) l b :
  ForallOrdPairs R l -> Forall (fun a => R a b) l ->
  ForallOrdPairs R (l ++ [b]).
Proof.
  induction 1 as [|a l Ha Hl IH]; intros Hb; cbn.
  - repeat constructor.
  - inversion Hb as [|? ? Hab Hlb]; subst. constructor.
    + apply Forall_app. split; [exact Ha | now constructor].
    + now apply IH.
Qed.

Lemma NoDup_map_eq {A B} (f : A -> B) l x y :
  NoDup (map f l) -> In x l -> In y l -> f x = f y -> x = y.
Proof.
  induction l as [|a l IH]; intros Hnd Hx Hy E; [destruct Hx|].
  cbn [map] in Hnd. inversion Hnd as [|? ? Hnot Hnd']; subst.
  destruct Hx as [->|Hx], Hy as [->|Hy]; auto.
  - exfalso. apply Hnot. rewrite E. now apply in_map.
  - exfalso. apply Hnot. rewrite <- E. now apply in_map.
Qed.

Lemma escalated_nil config : escalated config [].
Proof.
  split; [|split].
  - intros nc rule rule' day _ _ _ _ _ H. discriminate H.
  - intros a [].
  - constructor.
Qed.

Lemma escalated_admin config rows phone body at_ day :
  escalated config rows ->
  escalated config (rows ++ [mkAlertLog phone body (-1) at_ day]).
Proof.
  intros (U & R & D).
  assert (Hk : forall p d k,
             (0 <= k)%Z ->
             was_sent (rows ++ [mkAlertLog phone body (-1) at_ day]) p d k
             = was_sent rows p d k).
  { intros p d k Hk. rewrite was_sent_snoc.
    destruct (row_matches p d k _) eqn:Hm; [|reflexivity].
    apply row_matches_iff in Hm as (_ & _ & Hm). cbn in Hm. lia. }
  split; [|split].
  - intros nc rule rule' d Hnc Hr Hr' H0 Hle.
    rewrite !Hk by lia. now apply U.
  - intros a Ha H0. apply in_app_or in Ha as [Ha | [<- | []]].
    + now apply R.
    + cbn in H0. lia.
  - apply ForallOrdPairs_snoc; [exact D|].
    apply Forall_forall. intros a _ _ _ _ H0. cbn in H0. lia.
Qed.

Lemma escalated_rule config rows nc r body m at_ day :
  NoDup (map number (NumbersToSMS config)) ->
  escalated config rows ->
  In nc (NumbersToSMS config) -> (0 <= r)%Z ->
  select rows (number nc) day (Int r)
         (sort_desc (MessageWhenRemainingMins nc)) = Some (body, m) ->
  escalated config (rows ++ [mkAlertLog (number nc) body m at_ day]).
Proof.
  intros Hnd (U & R & D) Hnc Hr Sel.
  pose proof Sel as Sel'.
  apply select_some in Sel' as (rule0 & Hin0 & _ & Hm0 & Hle0 & Hw0).
  apply (proj1 (In_sort_desc _ _)) in Hin0.
  cbn in Hle0. apply Z.leb_le in Hle0.
  assert (Hmax : forall rule',
             In rule' (MessageWhenRemainingMins nc) ->
             (m < minutes rule')%Z ->
             was_sent rows (number nc) day (minutes rule') = true).
  { intros rule' Hin' Hlt.
    destruct (was_sent rows (number nc) day (minutes rule')) eqn:Hw';
      [reflexivity|].
    exfalso. unfold select in Sel.
    destruct (find _ _) as [x|] eqn:Hfind; [|discriminate].
    cbn in Sel. injection Sel as _ Hx.
    assert (minutes rule' <= minutes x)%Z; [|lia].
    apply (find_greatest _ _ _ (sort_desc_sorted _) Hfind rule').
    - now apply In_sort_desc.
    - unfold eligible. rewrite Hw'. cbn.
      apply andb_true_iff. split; [apply Z.leb_le; lia | reflexivity]. }
  split; [|split].
  - intros nc1 rule rule' d Hnc1 Hrule Hrule' H0 Hle.
    rewrite !was_sent_snoc.
    destruct (row_matches (number nc1) d (minutes rule) _) eqn:Hm.
    + intros _. apply row_matches_iff in Hm as (Hp & Hd & Hk).
      cbn in Hp, Hd, Hk. subst d.
      assert (nc1 = nc)
        by (apply (NoDup_map_eq number (NumbersToSMS config)); auto).
      subst nc1. apply orb_true_iff.
      destruct (Z.eq_dec (minutes rule') m) as [E|E].
      * left. apply row_matches_iff. cbn. auto.
      * right. apply Hmax; [exact Hrule' | lia].
    + cbn [orb]. intros Hw. apply orb_true_iff. right.
      now apply (U nc1 rule rule' d).
  - intros a Ha H0. apply in_app_or in Ha as [Ha | [<- | []]].
    + now apply R.
    + exists nc, rule0. cbn. auto.
  - apply ForallOrdPairs_snoc; [exact D|].
    apply Forall_forall. intros a Ha Hp Hd H0 _.
    cbn in Hp, Hd |- *.
    destruct (R a Ha H0) as (nca & rulea & Hnca & Hrulea & Hpa & Hma).
    assert (nca = nc)
      by (apply (NoDup_map_eq number (NumbersToSMS config)); auto;
          congruence).
    subst nca.
    destruct (Z.lt_ge_cases m (alert_minutes a)) as [|Hge]; [assumption|].
    exfalso.
    pose proof (was_sent_In rows a Ha) as Hwa.
    rewrite <- Hpa, Hd, <- Hma in Hwa.
    pose proof (U nc rulea rule0 day Hnc Hrulea Hin0 ltac:(lia) ltac:(lia)
                  Hwa) as Hc.
    rewrite Hm0 in Hc. congruence.
Qed.

Lemma grows_escalated config rows rows' :
  NoDup (map number (NumbersToSMS config)) ->
  escalated config rows -> grows config rows rows' ->
  escalated config rows'.
Proof.
  intros Hnd He G. induction G.
  - exact He.
  - now apply escalated_admin.
  - now apply (escalated_rule config _ numberConfig r).
Qed.

(** X13.  Over any sequence of completed checks that starts with an empty
    alert table, and for a configuration in which no two entries have the
    same number: of two rows for one number and one day, the later has the
    lower threshold (rows of the connectivity key [-1] apart), and no
    threshold is passed over: when a rule whose threshold is not negative is
    recorded for a number and a day, so is every rule of that number with a
    greater threshold. *)
Theorem alerts_escalate :
  forall fc config st0 st,
    history fc config st0 st ->
    NoDup (map number (NumbersToSMS config)) ->
    alert_logs st0 = [] ->
    ForallOrdPairs later_is_lower (alert_logs st)
    /\ forall numberConfig rule rule' day,
        In numberConfig (NumbersToSMS config) ->
        In rule (MessageWhenRemainingMins numberConfig) ->
        In rule' (MessageWhenRemainingMins numberConfig) ->
        (0 <= minutes rule)%Z -> (minutes rule <= minutes rule')%Z ->
        was_sent (alert_logs st) (number numberConfig) day (minutes rule)
        = true ->
        was_sent (alert_logs st) (number numberConfig) day (minutes rule')
        = true.
Proof.
  intros fc config st0 st H Hnd H0.
  pose proof (history_grows config fc st0 st H) as G. unfold grow in G.
  rewrite H0 in G.
  destruct (grows_escalated config [] _ Hnd (escalated_nil config) G)
    as (U & _ & D).
  split; [exact D | exact U].
Qed.

(** Two checks on one day, with 18 and then 12 minutes left: the rows
    are those of the rules of 30 and of 15 minutes, in this order. *)
Lemma alerts_escalate_witness :
  map alert_minutes (alert_logs Afternoon.after_second_check)
  = [30%Z; 15%Z]
  /\ ForallOrdPairs later_is_lower (alert_logs Afternoon.after_second_check).
Proof.
  split; [reflexivity|].
  assert (H : history client (config "Leos-11") initial_state
                      Afternoon.after_second_check).
  { apply (history_check _ _ _ 1 Afternoon.later
                         Afternoon.after_first_check).
    - apply (history_check _ _ _ 1 steady initial_state).
      + apply history_start.
      + vm_compute. reflexivity.
    - vm_compute. reflexivity. }
  apply (alerts_escalate client (config "Leos-11") initial_state _ H).
  - repeat constructor. cbn. intuition.
  - reflexivity.
Defined.

End EscalationFacts.

(** ** Batches of texts, status and self-test *)

Module BatchFacts.

Import SmsService.
Import Protocol.
Import SmsBatch.

(** The loop makes one call to the gateway per message, in the order of
    the list, and each call adds one to one of the two counters. *)
Lemma sendLoop_run w :
  forall messages sent failed st,
  exists sent' failed' st' added,
    sendLoop w messages sent failed st = Ret (sent', failed') st'
    /\ trace st' = added ++ trace st
    /\ map (fun x => (fst (fst x), snd (fst x))) (sms_of added)
       = map (fun m => (sms_to m, sms_message m)) messages
    /\ List.length added = List.length messages
    /\ sent' = sent + List.length (filter (fun x => snd x) (sms_of added))
    /\ failed'
       = failed + List.length (filter (fun x => negb (snd x)) (sms_of added))
    /\ sessionId st' = sessionId st
    /\ alert_logs st' = alert_logs st
    /\ system_logs st' = system_logs st
    /\ clock_reads st' = clock_reads st.
Proof.
  induction messages as [|m rest IH]; intros sent failed st.
  - exists sent, failed, st, []. cbn. repeat split; lia.
  - cbn [sendLoop]. unfold bind at 1, sendSms, bind, get_state, emit, ret.
    set (ok := twilio_create w (List.length (trace st)) (sms_to m)
                             (sms_message m)).
    set (st1 := mkState (sessionId st) (alert_logs st) (system_logs st)
                        (clock_reads st)
                        (Sms (sms_to m) (sms_message m) ok :: trace st)).
    assert (Hsms : forall added,
               sms_of (added ++ [Sms (sms_to m) (sms_message m) ok])
               = (sms_to m, sms_message m, ok) :: sms_of added).
    { induction added as [|e added IHa]; [reflexivity|].
      destruct e; cbn [sms_of List.app]; rewrite IHa; reflexivity. }
    destruct ok eqn:Hok.
    + destruct (IH (S sent) failed st1)
        as (s' & f' & st' & added & E & T & Hm & Hl & Hs & Hf & K).
      exists s', f', st', (added ++ [Sms (sms_to m) (sms_message m) true]).
      split; [exact E|]. rewrite Hsms.
      split; [rewrite T; unfold st1; cbn [trace];
              now rewrite <- List.app_assoc|].
      split; [cbn [map fst snd]; now rewrite Hm|].
      split; [rewrite length_app; cbn; lia|].
      split; [cbn [filter snd List.length]; lia|].
      split; [cbn [filter snd negb]; lia|]. exact K.
    + destruct (IH sent (S failed) st1)
        as (s' & f' & st' & added & E & T & Hm & Hl & Hs & Hf & K).
      exists s', f', st', (added ++ [Sms (sms_to m) (sms_message m) false]).
      split; [exact E|]. rewrite Hsms.
      split; [rewrite T; unfold st1; cbn [trace];
              now rewrite <- List.app_assoc|].
      split; [cbn [map fst snd]; now rewrite Hm|].
      split; [rewrite length_app; cbn; lia|].
      split; [cbn [filter snd]; lia|].
      split; [cbn [filter snd negb List.length]; lia|]. exact K.
Qed.

(** X14.  [sendMultipleSms] never throws; it calls the gateway once per
    message, in the order of the list, whatever the outcome of the calls
    before; [sent] counts the calls that succeeded, [failed] the others, and
    together they count the messages.  It leaves the tables and the session
    alone. *)
Theorem sendMultipleSms_counts :
  forall w messages st,
  exists sent failed st' added,
    sendMultipleSms w messages st = Ret (sent, failed) st'
    /\ trace st' = added ++ trace st
    /\ map (fun x => (fst (fst x), snd (fst x))) (sms_of added)
       = map (fun m => (sms_to m, sms_message m)) messages
    /\ List.length added = List.length messages
    /\ sent = List.length (filter (fun x => snd x) (sms_of added))
    /\ failed = List.length (filter (fun x => negb (snd x)) (sms_of added))
    /\ sent + failed = List.length messages
    /\ sessionId st' = sessionId st
    /\ alert_logs st' = alert_logs st
    /\ system_logs st' = system_logs st.
Proof.
  intros w messages st.
  destruct (sendLoop_run w messages 0 0 st)
    as (s & f & st' & added & E & T & Hm & Hl & Hs & Hf & K1 & K2 & K3 & _).
  exists s, f, st', added. repeat split; try assumption.
  cbn in Hs, Hf. subst s f.
  rewrite <- (length_map (fun m => (sms_to m, sms_message m)) messages),
          <- Hm, length_map.
  generalize (sms_of added) as l. clear.
  induction l as [|[[a b] []] l IHl]; cbn; lia.
Qed.

End BatchFacts.

Module StatusFacts.

Import DatabaseService.
Import Protocol.
Import LogicFacts.
Import RunSpec.
Import RunFacts.
Import Status.

(** What the body of [getCurrentStatus] does: requests to the router only;
    a value it returns is of one of two shapes. *)
Lemma status_body fuel w fc config :
  triple fetches
    (isConnected <- Fritz.testConnection w ;;
     if negb isConnected
     then ret (mkCurrentStatus None false
                               (Some "Cannot connect to Fritz router"))
     else
       timeRemaining <-
         Fritz.getParentalControlData fuel w fc (fritz_device_name config) ;;
       ret (mkCurrentStatus (Some timeRemaining) true None))
    (fun r =>
       r = mkCurrentStatus None false (Some "Cannot connect to Fritz router")
       \/ exists tr, r = mkCurrentStatus (Some tr) true None).
Proof.
  eapply fetch_bind; [apply fetch_testConnection|].
  intros isConnected _. destruct isConnected; cbn [negb].
  - eapply fetch_bind; [apply fetch_getParentalControlData|].
    intros tr _. apply fetch_ret. right. now exists tr.
  - apply fetch_ret. now left.
Qed.

(** X15.  [getCurrentStatus] never throws, and it only talks to the router:
    it sends no text and leaves the tables and the clock alone.  The object
    it returns says [isConnected] exactly when it holds a time record, and
    exactly when it holds no [error].  When the router does not answer [GET
    /] with status 200 the answer is made after that one request; when the
    router answers but the usage data cannot be had, the object says
    [isConnected: false] all the same, with the message of the failure. *)
Theorem getCurrentStatus_only_reads :
  forall fuel w fc config st,
    (forall e st', getCurrentStatus fuel w fc config st <> Throw e st')
    /\ (forall r st',
          getCurrentStatus fuel w fc config st = Ret r st' ->
          fetches st st'
          /\ (status_isConnected r = true
              <-> exists tr, status_timeRemaining r = Some tr)
          /\ (status_isConnected r = true <-> status_error r = None))
    /\ (get_root w (List.length (trace st)) <> Some 200 ->
        getCurrentStatus fuel w fc config st
        = Ret (mkCurrentStatus None false
                               (Some "Cannot connect to Fritz router"))
              (mkState (sessionId st) (alert_logs st) (system_logs st)
                       (clock_reads st) (HttpGet "/" :: trace st)))
    /\ (forall e st1,
          get_root w (List.length (trace st)) = Some 200 ->
          Fritz.getParentalControlData fuel w fc (fritz_device_name config)
            (mkState (sessionId st) (alert_logs st) (system_logs st)
                     (clock_reads st) (HttpGet "/" :: trace st))
          = Throw e st1 ->
          getCurrentStatus fuel w fc config st
          = Ret (mkCurrentStatus None false (Some e)) st1).
Proof.
  intros fuel w fc config st.
  pose proof (status_body fuel w fc config st) as B.
  unfold getCurrentStatus, try_catch.
  split; [|split; [|split]].
  - intros e st'.
    destruct (bind _ _ st) as [r s|e0 s| |]; unfold ret; discriminate.
  - intros r st'.
    destruct (bind _ _ st) as [r0 s|e0 s| |]; unfold ret;
      try discriminate; intros [= <- <-].
    + destruct B as [F Hr]. split; [exact F|].
      destruct Hr as [-> | [tr ->]]; cbn.
      * split; split; try discriminate. intros [tr H]; discriminate.
      * split; split; auto. now exists tr.
    + split; [exact B|].
      cbn. split; split; try discriminate. intros [tr H]; discriminate.
  - intros Hroot. unfold bind at 1, Fritz.testConnection.
    unfold bind, get_state, emit, ret. cbn [trace].
    destruct (get_root w (List.length (trace st))) as [status|];
      [|reflexivity].
    destruct (Nat.eqb_spec status 200) as [->|]; [now destruct Hroot|].
    reflexivity.
  - intros e st1 Hroot Hthrow. unfold bind at 1, Fritz.testConnection.
    unfold bind at 1 2 3, get_state, emit, ret. cbn [trace].
    rewrite Hroot. cbn [Nat.eqb negb]. unfold bind. rewrite Hthrow.
    reflexivity.
Qed.

(** X16.  [testSystem] always completes, whether or not the store takes
    the row.  It makes one request to the router and sends no text; [sms] is
    [true] in every world; [fritz] says whether the router answered [GET /]
    with status 200; [database] says whether the row [system_test] was
    written, and the row is in the system log exactly then; [errors] holds
    the router line if [fritz] is [false], then the database line with the
    message of the store if [database] is [false], so it is empty exactly
    when [fritz] and [database] are both [true]. *)
Theorem testSystem_report :
  forall w fault st,
  exists r st',
    testSystem w fault st = Ret r st'
    /\ test_sms r = true
    /\ (test_fritz r = true
        <-> get_root w (List.length (trace st)) = Some 200)
    /\ (test_database r = true <-> fault = None)
    /\ test_errors r
       = (if test_fritz r then [] else ["Cannot connect to Fritz router"])
         ++ match fault with
            | Some error => ["Database error: " +++ error]
            | None => []
            end
    /\ (test_errors r = []
        <-> test_fritz r = true /\ test_database r = true)
    /\ trace st' = HttpGet "/" :: trace st
    /\ alert_logs st' = alert_logs st
    /\ system_logs st'
       = system_logs st
         ++ (if test_database r
             then [mkSystemLog "system_test" "System test performed"
                               (clock w (clock_reads st)) "info"]
             else []).
Proof.
  intros w fault st. unfold testSystem.
  unfold bind at 1, try_catch at 1, bind at 1, Fritz.testConnection.
  unfold bind at 1 2 3, get_state, emit, ret at 1 2 3. cbn [trace].
  assert (Hok : (match get_root w (List.length (trace st)) with
                 | Some status => (status =? 200)%nat
                 | None => false
                 end) = true
                <-> get_root w (List.length (trace st)) = Some 200).
  { destruct (get_root w _) as [status|]; [|split; discriminate].
    split; [intros H; apply Nat.eqb_eq in H; now subst|].
    intros [= ->]. reflexivity. }
  set (ok := match get_root w (List.length (trace st)) with
             | Some status => (status =? 200)%nat
             | None => false
             end) in *.
  unfold try_catch, bind, newDateISO, logSystem_on.
  destruct fault as [error|]; [unfold throw, ret | unfold logSystem, ret];
    cbn [fst snd system_logs alert_logs trace clock_reads sessionId];
    do 2 eexists; (split; [reflexivity|]);
    cbn [test_sms test_database test_fritz test_errors fst snd trace
         alert_logs system_logs];
    (split; [reflexivity|]); (split; [exact Hok|]).
  - split; [split; discriminate|].
    split; [now destruct ok|].
    split; [|rewrite List.app_nil_r; repeat split; reflexivity].
    split; [destruct ok; discriminate | now intros [_ ?]].
  - split; [split; reflexivity|].
    split; [destruct ok; reflexivity|].
    split; [|repeat split; reflexivity].
    destruct ok; cbn; split; auto; try discriminate.
    now intros [? _].
Qed.

End StatusFacts.

(** ** The tables *)

Module StoreFacts.

Import DatabaseService.
Import Cleanup.

(** X17.  A row written by [logAlert] is found by the dedup query under its
    own number, day and minutes; the answer for every other key is as it was
    before the row was written; [logSystem] changes no answer; and the query
    itself leaves both tables as they are. *)
Theorem logAlert_then_query :
  forall a l st phone day mins,
  exists st1 st2 st3 st4,
    logAlert a st = Ret tt st1
    /\ wasAlertSentForMinutes (phoneNumber a) (date a) (alert_minutes a) st1
       = Ret true st2
    /\ wasAlertSentForMinutes phone day mins st1
       = Ret (row_matches phone day mins a
              || was_sent (alert_logs st) phone day mins) st3
    /\ alert_logs st3 = alert_logs st1
    /\ system_logs st3 = system_logs st1
    /\ logSystem l st = Ret tt st4
    /\ was_sent (alert_logs st4) phone day mins
       = was_sent (alert_logs st) phone day mins.
Proof.
  intros a l st phone day mins.
  unfold logAlert, logSystem, wasAlertSentForMinutes, bind, get_state, emit,
    ret.
  cbn [alert_logs system_logs].
  assert (H : forall p d m,
             was_sent (alert_logs st ++ [a]) p d m
             = row_matches p d m a || was_sent (alert_logs st) p d m).
  { intros p d m. unfold was_sent, count_rows.
    rewrite filter_app, length_app. cbn [filter].
    destruct (row_matches p d m a); cbn [List.length orb].
    - apply Nat.ltb_lt. lia.
    - now rewrite Nat.add_0_r. }
  do 4 eexists. split; [reflexivity|].
  split.
  { rewrite H. unfold row_matches.
    now rewrite !String.eqb_refl, Z.eqb_refl. }
  split; [rewrite H; reflexivity|].
  repeat split.
Qed.


(** The rows of a key that the deletion leaves: all of them or none,
    according to the day of the key. *)
Lemma count_rows_kept cutoffString rows phone day mins :
  count_rows (filter (keeps_alert cutoffString) rows) phone day mins
  = if (day <? cutoffString)%string then 0
    else count_rows rows phone day mins.
Proof.
  unfold count_rows.
  induction rows as [|a rows IH]; [now destruct (day <? cutoffString)%string|].
  cbn [filter]. unfold keeps_alert at 1.
  destruct (row_matches phone day mins a) eqn:Hm.
  - pose proof Hm as Hm'. unfold row_matches in Hm'.
    apply andb_true_iff in Hm' as [Hm' _].
    apply andb_true_iff in Hm' as [_ Hd]. apply String.eqb_eq in Hd.
    rewrite Hd.
    destruct (day <? cutoffString)%string eqn:Hlt; cbn [negb].
    + exact IH.
    + cbn [filter]. rewrite Hm. cbn [List.length]. now rewrite IH.
  - destruct (negb (date a <? cutoffString)%string); [|exact IH].
    cbn [filter]. rewrite Hm. exact IH.
Qed.

(** X18.  [cleanupOldLogs] always completes, and what it does to the dedup
    query goes by the day alone: for a day that sorts before the cut-off
    text the query answers [false] afterwards, for every other day it
    answers as before.  No key has more rows than before.  The system log
    ends with the [cleanup] event, written after the deletion; the session
    is left alone. *)
Theorem cleanup_and_dedup :
  forall w shifted daysToKeep st,
  exists st' entry,
    cleanupOldLogs w shifted daysToKeep st = Ret tt st'
    /\ (forall phone day mins,
          was_sent (alert_logs st') phone day mins
          = negb (day <? day_of (shifted (clock w (clock_reads st))
                                         daysToKeep))%string
            && was_sent (alert_logs st) phone day mins)
    /\ (forall phone day mins,
          count_rows (alert_logs st') phone day mins
          <= count_rows (alert_logs st) phone day mins)
    /\ system_logs st'
       = filter (keeps_system (day_of (shifted (clock w (clock_reads st))
                                               daysToKeep)))
                (system_logs st) ++ [entry]
    /\ event entry = "cleanup"
    /\ sessionId st' = sessionId st.
Proof.
  intros w shifted daysToKeep st.
  unfold cleanupOldLogs, bind, newDateISO, get_state, set_tables, logSystem.
  cbn [alert_logs system_logs sessionId clock_reads trace].
  do 2 eexists. split; [reflexivity|].
  cbn [alert_logs system_logs sessionId].
  split; [|split; [|split; [reflexivity | split; reflexivity]]].
  - intros phone day mins. unfold was_sent. rewrite count_rows_kept.
    now destruct (day <? _)%string.
  - intros phone day mins. rewrite count_rows_kept.
    destruct (day <? _)%string; lia.
Qed.

End StoreFacts.

(** ** Validation of the configuration *)

Module ConfigFacts.

Import ConfigService.
Import TypedConfig.
Import Scenario.

Lemma app_nil_iff {A} (a b : list A) : a ++ b = [] <-> a = [] /\ b = [].
Proof.
  split; [apply app_eq_nil | intros [-> ->]; reflexivity].
Qed.

Lemma message_errors_nil index l :
  forall msgIndex,
    message_errors index msgIndex l = []
    <-> Forall (fun m => is_number (raw_minutes m) = true
                         /\ truthy (raw_message m) = true) l.
Proof.
  induction l as [|m l IH]; intros msgIndex; cbn [message_errors].
  - split; [constructor | reflexivity].
  - rewrite !app_nil_iff, IH. split.
    + intros (H1 & H2 & H3). constructor; [|exact H3].
      destruct (is_number (raw_minutes m)); [|discriminate].
      destruct (truthy (raw_message m)); [|discriminate]. now split.
    + intros H. inversion H as [|? ? [Hn Ht] H3]; subst.
      rewrite Hn, Ht. now repeat split.
Qed.

(** An entry of [NumbersToSMS] that adds no error. *)
Lemma number_errors_nil l :
  forall index,
    number_errors index l = []
    <-> Forall (fun n =>
                  truthy (raw_number n) = true
                  /\ is_boolean (raw_isAdmin n) = true
                  /\ exists msgs,
                      raw_messages n = Some msgs
                      /\ Forall (fun m => is_number (raw_minutes m) = true
                                          /\ truthy (raw_message m) = true)
                                msgs) l.
Proof.
  induction l as [|n l IH]; intros index; cbn [number_errors].
  - split; [constructor | reflexivity].
  - rewrite !app_nil_iff, IH. split.
    + intros (H1 & H2 & H3 & H4). constructor; [|exact H4].
      destruct (truthy (raw_number n)); [|discriminate].
      destruct (is_boolean (raw_isAdmin n)); [|discriminate].
      destruct (raw_messages n) as [msgs|]; [|discriminate].
      apply message_errors_nil in H3. repeat split. now exists msgs.
    + intros H. inversion H as [|? ? (Hn & Hb & msgs & Hs & Hm) H4]; subst.
      rewrite Hn, Hb, Hs. repeat split; auto. now apply message_errors_nil.
Qed.

Lemma validateConfig_None c :
  validateConfig c = None <-> validation_errors c = [].
Proof.
  unfold validateConfig. destruct (validation_errors c); split;
    try reflexivity; discriminate.
Qed.

(** X19.  The files that [validateConfig] accepts.  It returns without
    throwing exactly when there is a [fritz] entry with a non-empty [url]
    and [device_name]; [NumbersToSMS] is an array whose entries all have a
    number, a boolean [isAdmin] and an array of rules, each rule with a
    number for [minutes] and a non-empty message; one entry at least has a
    truthy [isAdmin]; and [cron_schedule] is not empty.  An empty array of
    numbers is refused, an empty array of rules is accepted, and nothing is
    asked of the value of [minutes]. *)
Theorem validateConfig_accepts_iff :
  forall c,
    validateConfig c = None
    <-> (exists url device_name,
            raw_fritz c = Some (url, device_name)
            /\ truthy url = true /\ truthy device_name = true)
        /\ (exists numbers,
               raw_numbers c = Some numbers
               /\ Forall (fun n =>
                            truthy (raw_number n) = true
                            /\ is_boolean (raw_isAdmin n) = true
                            /\ exists msgs,
                                raw_messages n = Some msgs
                                /\ Forall
                                     (fun m =>
                                        is_number (raw_minutes m) = true
                                        /\ truthy (raw_message m) = true)
                                     msgs) numbers
               /\ Exists (fun n => truthy (raw_isAdmin n) = true) numbers)
        /\ truthy (raw_cron_schedule c) = true.
Proof.
  intros c. rewrite validateConfig_None. unfold validation_errors.
  rewrite !app_nil_iff. split.
  - intros (H1 & H2 & H3). split; [|split].
    + destruct (raw_fritz c) as [[url dev]|]; [|discriminate].
      apply app_nil_iff in H1 as [Hu Hd]. exists url, dev.
      destruct (truthy url); [|discriminate].
      destruct (truthy dev); [|discriminate]. now repeat split.
    + destruct (raw_numbers c) as [numbers|]; [|discriminate].
      apply app_nil_iff in H2 as [Hn Ha]. exists numbers.
      split; [reflexivity|]. split; [now apply number_errors_nil in Hn|].
      destruct (existsb _ numbers) eqn:Hex; [|discriminate].
      apply existsb_exists in Hex as (n & Hin & Hn').
      apply Exists_exists. now exists n.
    + destruct (truthy (raw_cron_schedule c)); [reflexivity | discriminate].
  - intros ((url & dev & -> & -> & ->) & (numbers & -> & Hn & Ha) & ->).
    repeat split. apply app_nil_iff. split; [now apply number_errors_nil|].
    assert (Hex : existsb (fun n => truthy (raw_isAdmin n)) numbers = true).
    { apply existsb_exists. apply Exists_exists in Ha as (n & Hin & Hn').
      now exists n. }
    now rewrite Hex.
Qed.

Lemma as_messages_truthy l :
  forall rules,
    Forall (fun m => is_number (raw_minutes m) = true
                     /\ truthy (raw_message m) = true) l ->
    as_messages l = Some rules ->
    Forall (fun rule => Str.truthy (message rule) = true) rules.
Proof.
  induction l as [|m l IH]; intros rules H; cbn [as_messages].
  - intros [= <-]. constructor.
  - inversion H as [|? ? [_ Hm] Hl]; subst.
    unfold as_message.
    destruct (raw_minutes m) as [| | |[z|]| |]; try discriminate.
    destruct (raw_message m) as [| | | |s|] eqn:Hs; try discriminate.
    destruct (as_messages l) as [r|]; [|discriminate].
    intros [= <-]. constructor; [exact Hm | now apply IH].
Qed.

Lemma as_numbers_ok l :
  forall numbers,
    Forall (fun n =>
              truthy (raw_number n) = true
              /\ is_boolean (raw_isAdmin n) = true
              /\ exists msgs,
                  raw_messages n = Some msgs
                  /\ Forall (fun m => is_number (raw_minutes m) = true
                                      /\ truthy (raw_message m) = true)
                            msgs) l ->
    as_numbers l = Some numbers ->
    Forall (fun n =>
              Str.truthy (number n) = true
              /\ Forall (fun rule => Str.truthy (message rule) = true)
                        (MessageWhenRemainingMins n)) numbers
    /\ (Exists (fun n => truthy (raw_isAdmin n) = true) l ->
        Exists (fun n => isAdmin n = true) numbers).
Proof.
  induction l as [|n l IH]; intros numbers H; cbn [as_numbers].
  - intros [= <-]. split; [constructor|]. intros X. inversion X.
  - inversion H as [|? ? (Hn & _ & msgs & Hm & Hr) Hl]; subst.
    unfold as_number. rewrite Hm.
    destruct (raw_number n) as [| | | |s|] eqn:Hs; try discriminate.
    destruct (raw_isAdmin n) as [| |b| | |] eqn:Hb; try discriminate.
    destruct (as_messages msgs) as [rules|] eqn:Hrules; [|discriminate].
    cbn [option_map].
    destruct (as_numbers l) as [r|]; [|discriminate].
    intros [= <-]. destruct (IH r Hl eq_refl) as [IH1 IH2]. split.
    + constructor; [|exact IH1]. cbn [number MessageWhenRemainingMins].
      split; [exact Hn | now apply (as_messages_truthy msgs)].
    + intros X. inversion X as [? ? Hx|? ? Hx]; subst.
      * left. cbn [isAdmin]. rewrite Hb in Hx. exact Hx.
      * right. now apply IH2.
Qed.

(** X20.  What validation promises to the alert manager.  For a file that
    [validateConfig] accepts and whose values have the declared types, the
    configuration has an administrator, so the connectivity path has someone
    to alert; every number and the device name are non-empty; and every rule
    has a non-empty text, so a rule that is selected is always sent. *)
Theorem validated_config_guarantees :
  forall raw config,
    validateConfig raw = None ->
    as_config raw = Some config ->
    filter isAdmin (NumbersToSMS config) <> []
    /\ Str.truthy (fritz_url config) = true
    /\ Str.truthy (fritz_device_name config) = true
    /\ Str.truthy (cron_schedule config) = true
    /\ Forall (fun n =>
                 Str.truthy (number n) = true
                 /\ Forall (fun rule => Str.truthy (message rule) = true)
                           (MessageWhenRemainingMins n))
              (NumbersToSMS config).
Proof.
  intros raw config Hv Hc.
  rewrite validateConfig_None in Hv. unfold validation_errors in Hv.
  rewrite !app_nil_iff in Hv. destruct Hv as (H1 & H2 & H3).
  unfold as_config in Hc.
  destruct (raw_fritz raw) as [[url dev]|]; [|discriminate].
  destruct url as [| | | |url|]; try discriminate.
  destruct dev as [| | | |dev|]; try discriminate.
  destruct (raw_numbers raw) as [numbers|]; [|discriminate].
  destruct (raw_cron_schedule raw) as [| | | |schedule|]; try discriminate.
  destruct (as_numbers numbers) as [l|] eqn:Hl; [|discriminate].
  cbn [option_map] in Hc. injection Hc as <-.
  cbn [NumbersToSMS fritz_url fritz_device_name cron_schedule].
  apply app_nil_iff in H1 as [Hu Hd]. apply app_nil_iff in H2 as [Hn Ha].
  apply number_errors_nil in Hn.
  destruct (as_numbers_ok numbers l Hn Hl) as [Hok Hadm].
  cbn [truthy] in Hu, Hd, H3.
  split; [|split; [|split; [|split]]].
  - destruct (existsb _ numbers) eqn:Hex; [|discriminate].
    apply existsb_exists in Hex as (n & Hin & Hn').
    assert (Exists (fun n => truthy (raw_isAdmin n) = true) numbers)
      by (apply Exists_exists; now exists n).
    apply Hadm in H. apply Exists_exists in H as (a & Hina & Hia).
    intros Hnil.
    assert (In a (filter isAdmin l)) by (apply filter_In; now split).
    rewrite Hnil in H. destruct H.
  - now destruct (Str.truthy url).
  - now destruct (Str.truthy dev).
  - now destruct (Str.truthy schedule).
  - exact Hok.
Qed.

Lemma validated_config_guarantees_witness :
  as_config raw_config_minus_one
  = Some (mkConfig "http://fritz.box" "Leos-11" [offline_parent]
                   "*/5 * * * *")
  /\ filter isAdmin [offline_parent] <> []
  /\ Forall (fun n =>
               Str.truthy (number n) = true
               /\ Forall (fun rule => Str.truthy (message rule) = true)
                         (MessageWhenRemainingMins n)) [offline_parent].
Proof.
  split; [reflexivity|].
  destruct (validated_config_guarantees raw_config_minus_one
              (mkConfig "http://fritz.box" "Leos-11" [offline_parent]
                        "*/5 * * * *") eq_refl eq_refl)
    as (A & _ & _ & _ & F).
  split; assumption.
Defined.


End ConfigFacts.

(** ** The time rules *)

Module ScheduleFacts.

Import Schedule.

(** *** The order of texts *)

Lemma ascii_compare_refl a : Ascii.compare a a = Eq.
Proof. unfold Ascii.compare. apply N.compare_refl. Qed.

Lemma ascii_compare_trans c a b d :
  Ascii.compare a b = c -> Ascii.compare b d = c -> Ascii.compare a d = c.
Proof.
  unfold Ascii.compare. intros H1 H2. destruct c.
  - apply N.compare_eq_iff in H1, H2. apply N.compare_eq_iff. congruence.
  - rewrite N.compare_lt_iff in *. lia.
  - rewrite N.compare_gt_iff in *. lia.
Qed.

Lemma ascii_compare_eq a b : Ascii.compare a b = Eq -> a = b.
Proof. apply Ascii.compare_eq_iff. Qed.

Lemma leb_trans (a b c : string) :
  (a <=? b)%string = true -> (b <=? c)%string = true ->
  (a <=? c)%string = true.
Proof.
  unfold String.leb. revert b c.
  induction a as [|x a IH]; intros b c; [now destruct c|].
  destruct b as [|y b]; [discriminate|].
  destruct c as [|z c]; [now destruct (Ascii.compare x y), (String.compare a b)|].
  cbn [String.compare].
  destruct (Ascii.compare x y) eqn:Hxy, (Ascii.compare y z) eqn:Hyz;
    try discriminate.
  - apply ascii_compare_eq in Hxy, Hyz. subst.
    rewrite ascii_compare_refl. apply IH.
  - apply ascii_compare_eq in Hxy. subst. now rewrite Hyz.
  - apply ascii_compare_eq in Hyz. subst. now rewrite Hxy.
  - now rewrite (ascii_compare_trans Lt x y z Hxy Hyz).
Qed.

Lemma leb_not_ltb (a b : string) :
  (a <=? b)%string = true -> (b <? a)%string = false.
Proof.
  unfold String.leb, String.ltb. rewrite (String.compare_antisym a b).
  destruct (String.compare b a); cbn; congruence.
Qed.

(** X21.  A window whose end sorts before its start is never open: when the
    rule of the day has an [end] that is, as a text, before its [start],
    [isWithinAllowedHours] is [false] at every time of the day.  So a window
    that runs over midnight, such as 22:00 to 06:00, allows nothing. *)
Theorem window_over_midnight_is_closed :
  forall rules today hours minutes r,
    getTodayTimeRules rules today = Some r ->
    (time_end r <? time_start r)%string = true ->
    isWithinAllowedHours rules today hours minutes = false.
Proof.
  intros rules today hours minutes r Hr Hlt.
  unfold isWithinAllowedHours. rewrite Hr.
  destruct (time_start r <=? time_text hours minutes)%string eqn:H1;
    [|reflexivity].
  destruct (time_text hours minutes <=? time_end r)%string eqn:H2;
    [|reflexivity].
  pose proof (leb_trans _ _ _ H1 H2) as H.
  apply leb_not_ltb in H. congruence.
Qed.

(** From 22:00 to 06:00 every day: closed at 23:30. *)
Lemma window_over_midnight_is_closed_witness :
  isWithinAllowedHours (fun _ => Some (mkTimeRule "22:00" "06:00" 60))
                       Friday 23 30
  = false.
Proof.
  apply (window_over_midnight_is_closed
           (fun _ => Some (mkTimeRule "22:00" "06:00" 60)) Friday 23 30
           (mkTimeRule "22:00" "06:00" 60));
    reflexivity.
Defined.


(** *** The text of a time *)

Lemma two_digits n :
  n < 100 ->
  padStart 2 "0" (Str.of_nat n)
  = String (ascii_of_nat (48 + n / 10))
      (String (ascii_of_nat (48 + n mod 10)) EmptyString).
Proof.
  intros H.
  assert (A : forallb
                (fun n =>
                   (padStart 2 "0" (Str.of_nat n)
                    =? String (ascii_of_nat (48 + n / 10))
                         (String (ascii_of_nat (48 + n mod 10))
                                 EmptyString))%string)
                (seq 0 100) = true) by (vm_compute; reflexivity).
  rewrite forallb_forall in A. apply String.eqb_eq. apply A.
  apply in_seq. lia.
Qed.

Lemma digit_compare a b :
  a < 10 -> b < 10 ->
  Ascii.compare (ascii_of_nat (48 + a)) (ascii_of_nat (48 + b))
  = Nat.compare a b.
Proof.
  intros Ha Hb.
  assert (A : forallb
                (fun a =>
                   forallb
                     (fun b =>
                        match Ascii.compare (ascii_of_nat (48 + a))
                                            (ascii_of_nat (48 + b)),
                              Nat.compare a b with
                        | Eq, Eq | Lt, Lt | Gt, Gt => true
                        | _, _ => false
                        end) (seq 0 10)) (seq 0 10) = true)
    by (vm_compute; reflexivity).
  rewrite forallb_forall in A.
  assert (Ia : In a (seq 0 10)) by (apply in_seq; lia).
  specialize (A a Ia). rewrite forallb_forall in A.
  assert (Ib : In b (seq 0 10)) by (apply in_seq; lia).
  specialize (A b Ib).
  destruct (Ascii.compare _ _), (Nat.compare a b);
    try reflexivity; discriminate.
Qed.

(** The order of two texts of times is the order of the times. *)
Lemma time_text_leb h m h' m' :
  h < 100 -> m < 60 -> h' < 100 -> m' < 60 ->
  (time_text h m <=? time_text h' m')%string
  = (60 * h + m <=? 60 * h' + m')%nat.
Proof.
  intros Hh Hm Hh' Hm'. unfold time_text.
  rewrite !two_digits by lia. cbn [String.append].
  unfold String.leb. cbn [String.compare].
  pose proof (Nat.div_mod_eq h 10) as E1.
  pose proof (Nat.mod_upper_bound h 10 ltac:(lia)) as B1.
  pose proof (Nat.div_mod_eq m 10) as E2.
  pose proof (Nat.mod_upper_bound m 10 ltac:(lia)) as B2.
  pose proof (Nat.div_mod_eq h' 10) as E3.
  pose proof (Nat.mod_upper_bound h' 10 ltac:(lia)) as B3.
  pose proof (Nat.div_mod_eq m' 10) as E4.
  pose proof (Nat.mod_upper_bound m' 10 ltac:(lia)) as B4.
  revert E1 B1 E2 B2 E3 B3 E4 B4.
  generalize (h / 10) (h mod 10) (m / 10) (m mod 10)
             (h' / 10) (h' mod 10) (m' / 10) (m' mod 10).
  intros a b c d a' b' c' d' E1 B1 E2 B2 E3 B3 E4 B4.
  rewrite !digit_compare by lia. rewrite ascii_compare_refl.
  symmetry.
  destruct (Nat.compare_spec a a');
    [destruct (Nat.compare_spec b b');
     [destruct (Nat.compare_spec c c');
      [destruct (Nat.compare_spec d d')|..]|..]|..];
    first [apply Nat.leb_le; lia | apply Nat.leb_gt; lia].
Qed.

(** X22.  For a rule whose bounds are times written with two digits for the
    hours and two for the minutes, the comparison of texts that
    [isWithinAllowedHours] makes is the comparison of the times: the answer
    is [true] exactly when the time of the day lies between the two bounds,
    both included. *)
Theorem allowed_hours_are_chronological :
  forall rules today hours minutes r h1 m1 h2 m2,
    getTodayTimeRules rules today = Some r ->
    time_start r = time_text h1 m1 ->
    time_end r = time_text h2 m2 ->
    h1 < 100 -> m1 < 60 -> h2 < 100 -> m2 < 60 ->
    hours < 24 -> minutes < 60 ->
    (isWithinAllowedHours rules today hours minutes = true
     <-> 60 * h1 + m1 <= 60 * hours + minutes <= 60 * h2 + m2).
Proof.
  intros rules today hours minutes r h1 m1 h2 m2 Hr Hs He
         B1 B2 B3 B4 B5 B6.
  unfold isWithinAllowedHours. rewrite Hr, Hs, He.
  rewrite !time_text_leb by lia.
  rewrite andb_true_iff, !Nat.leb_le. reflexivity.
Qed.

(** From 07:30 to 19:00: open at 07:30. *)
Lemma allowed_hours_are_chronological_witness :
  isWithinAllowedHours (fun _ => Some (mkTimeRule "07:30" "19:00" 60))
                       Monday 7 30
  = true.
Proof.
  apply (proj2 (allowed_hours_are_chronological
                  (fun _ => Some (mkTimeRule "07:30" "19:00" 60)) Monday 7 30
                  (mkTimeRule "07:30" "19:00" 60) 7 30 19 0
                  eq_refl eq_refl eq_refl
                  ltac:(lia) ltac:(lia) ltac:(lia) ltac:(lia)
                  ltac:(lia) ltac:(lia))).
  lia.
Defined.


End ScheduleFacts.


(** ** Worked examples *)

Module Examples.

Import Scenario.
Import AlertManager.
Import Protocol.

Example find_lo : Str.find "lo" "hello" = Some 3%nat.
Proof. reflexivity. Qed.

Example split_label : Str.split ":" "02:10" = ["02"; "10"].
Proof. reflexivity. Qed.

(** [.*?] stops at the first closing tag. *)
Example exec_lazy_capture :
  Regex.exec (Regex.lit "<SID>" ++ [Regex.Group [Regex.lazy_star Regex.dot]]
              ++ Regex.lit "</SID>")
             "xx<SID>ab</SID>cd</SID>"
  = Some (Regex.MatchResult 2 "<SID>ab</SID>" ["ab"]).
Proof. reflexivity. Qed.

(** The search moves on to the next start when a greedy run cannot be
    completed. *)
Example exec_greedy_restart :
  Regex.exec (Regex.lit "<" ++ [Regex.Plain (Regex.star Regex.not_gt)]
              ++ Regex.lit ">a")
             "<b>x<c d>a"
  = Some (Regex.MatchResult 4 "<c d>a" []).
Proof. reflexivity. Qed.

(** A total below ten hours is found by the third pattern. *)
Example parse_short_total :
  Fritz.parseParentalControlData
    ("<td>Leos-11</td><span title=" +++ Str.dq +++ "00:06 of 0:59 hours"
     +++ Str.dq +++ ">") "Leos-11"
  = Fritz.Return (mkTimeRemaining "00:06" "0:59" (Int 53) false).
Proof. vm_compute. reflexivity. Qed.

(** More used than allowed: clamped at zero, and exhausted. *)
Example parse_overrun :
  Fritz.parseParentalControlData
    (page "Leos-11" "02:05 of 02:00 hours") "Leos-11"
  = Fritz.Return (mkTimeRemaining "02:05" "02:00" (Int 0) true).
Proof. vm_compute. reflexivity. Qed.

(** The exhausted marker wins over a numeric marker that comes first. *)
Example parse_exhausted_after_numeric :
  Fritz.parseParentalControlData
    (page "Leos-11" "00:04 of 02:10 hours" +++ Fritz.exhausted_marker)
    "Leos-11"
  = Fritz.Return (mkTimeRemaining "N/A" "N/A" (Int 0) true).
Proof. vm_compute. reflexivity. Qed.

Example sort_parent_rules :
  map minutes (sort_desc (MessageWhenRemainingMins parent))
  = [30; 15; 5; 0]%Z.
Proof. reflexivity. Qed.

(** With 18 minutes left the first check of the day sends the text of the
    rule of 30 minutes; the second check of the day sends nothing. *)
Example one_alert_per_threshold :
  let st1 := state_of (checkAndAlert 1 steady client (config "Leos-11")
                                     initial_state) in
  let st2 := state_of (checkAndAlert 1 steady client (config "Leos-11")
                                     st1) in
  sms_of (trace st1) = [("+441", "30 left", true)]
  /\ sms_of (trace st2) = [("+441", "30 left", true)]
  /\ map alert_minutes (alert_logs st2) = [30%Z].
Proof. vm_compute. repeat split; reflexivity. Qed.

(** When the gateway refuses the text, nothing is recorded and the next
    check tries the same rule again. *)
Example refused_text_is_retried :
  let w := world (fun _ _ => inl (page "Leos-11" "01:42 of 02:00 hours"))
                 false in
  let st1 := state_of (checkAndAlert 1 w client (config "Leos-11")
                                     initial_state) in
  let st2 := state_of (checkAndAlert 1 w client (config "Leos-11") st1) in
  alert_logs st2 = []
  /\ sms_of (trace st2)
     = [("+441", "30 left", false); ("+441", "30 left", false)]
  /\ map event (system_logs st2)
     = ["check_start"; "time_check"; "alert_failed";
        "check_start"; "time_check"; "alert_failed"].
Proof. vm_compute. repeat split; reflexivity. Qed.

End Examples.
